(** * ZenFS zoned block device: zones, tokens and wear levelling

    A shallow embedding of [fs/zbd_zenfs.cc]: the [Zone] methods and the
    [ZonedBlockDevice] allocator, followed by the properties the
    specification states about them.

    Conventions.
    - Unsigned machine integers are [Z] with the wrap-around written out
      ([u32], [u64]).
    - The two zone vectors [meta_zones] and [io_zones] are lists; a [Zone *]
      is the index of the zone in its vector ([ZoneRef]).
    - The backend ([zbd_be_]) is an external collaborator: its answers are
      the fields of a [Backend] record.
    - Metrics, logging and latency guards do not touch the state modelled
      here and are left out. *)

From stdpp Require Import base list numbers option.
From Stdlib Require Import ZArith Lia Bool.
From Stdlib Require Import Floats.PrimFloat Numbers.Cyclic.Int63.Uint63.

Local Open Scope Z_scope.

(** ** Machine integers *)

Definition u32 (x : Z) : Z := x mod 2 ^ 32.
Definition u64 (x : Z) : Z := x mod 2 ^ 64.

(** [int] arithmetic, with the wrap-around of the machine. *)
Definition s32 (x : Z) : Z := (x + 2 ^ 31) mod 2 ^ 32 - 2 ^ 31.

(** ** IOStatus

    Only the status code matters to the control flow ([ok()], [!=]); the
    message strings are dropped. *)

Inductive IOStatus : Type :=
  | OK
  | InvalidArgument
  | NotSupported
  | NotFound
  | NoSpace
  | IOError
  | Corruption.

Definition ok (s : IOStatus) : bool :=
  match s with OK => true | _ => false end.

#[global] Instance IOStatus_eq_dec : EqDecision IOStatus.
Proof. solve_decision. Defined.

(** ** Env::WriteLifeTimeHint (rocksdb/env.h) *)

Inductive WriteLifeTimeHint : Type :=
  | WLTH_NOT_SET
  | WLTH_NONE
  | WLTH_SHORT
  | WLTH_MEDIUM
  | WLTH_LONG
  | WLTH_EXTREME.

#[global] Instance WriteLifeTimeHint_eq_dec : EqDecision WriteLifeTimeHint.
Proof. solve_decision. Defined.

(** The enumerator values. *)
Definition hint_val (h : WriteLifeTimeHint) : Z :=
  match h with
  | WLTH_NOT_SET => 0
  | WLTH_NONE => 1
  | WLTH_SHORT => 2
  | WLTH_MEDIUM => 3
  | WLTH_LONG => 4
  | WLTH_EXTREME => 5
  end.

Definition LIFETIME_DIFF_NOT_GOOD : Z := 100.
Definition LIFETIME_DIFF_COULD_BE_WORSE : Z := 50.

(** [GetLifeTimeDiff] (zbd_zenfs.cc:626). *)
Definition GetLifeTimeDiff (zone_lifetime file_lifetime : WriteLifeTimeHint) : Z :=
  if bool_decide (file_lifetime = WLTH_NOT_SET) || bool_decide (file_lifetime = WLTH_NONE)
  then
    if bool_decide (file_lifetime = zone_lifetime) then 0
    else LIFETIME_DIFF_NOT_GOOD
  else if hint_val file_lifetime <? hint_val zone_lifetime
  then u32 (hint_val zone_lifetime - hint_val file_lifetime)
  else if hint_val zone_lifetime =? hint_val file_lifetime
  then LIFETIME_DIFF_COULD_BE_WORSE
  else LIFETIME_DIFF_NOT_GOOD.

(** ** Zone *)

(** Modelled from the spec: [class Zone] is declared in zbd_zenfs.h, which
    is not part of the sources at hand.  The fields are those the
    constructor and the methods of zbd_zenfs.cc use; the byte offsets and
    capacities are [uint64_t] (the accessors return them as such) and the
    reset count is 32 bit. *)
Record Zone : Type := mkZone {
  busy_ : bool;
  start_ : Z;
  max_capacity_ : Z;
  wp_ : Z;
  lifetime_ : WriteLifeTimeHint;
  used_capacity_ : Z;
  capacity_ : Z;
  reset_count_ : Z
}.

Definition set_busy (b : bool) (z : Zone) : Zone :=
  mkZone b (start_ z) (max_capacity_ z) (wp_ z) (lifetime_ z)
         (used_capacity_ z) (capacity_ z) (reset_count_ z).
Definition set_max_capacity (v : Z) (z : Zone) : Zone :=
  mkZone (busy_ z) (start_ z) v (wp_ z) (lifetime_ z)
         (used_capacity_ z) (capacity_ z) (reset_count_ z).
Definition set_wp (v : Z) (z : Zone) : Zone :=
  mkZone (busy_ z) (start_ z) (max_capacity_ z) v (lifetime_ z)
         (used_capacity_ z) (capacity_ z) (reset_count_ z).
Definition set_lifetime (h : WriteLifeTimeHint) (z : Zone) : Zone :=
  mkZone (busy_ z) (start_ z) (max_capacity_ z) (wp_ z) h
         (used_capacity_ z) (capacity_ z) (reset_count_ z).
Definition set_capacity (v : Z) (z : Zone) : Zone :=
  mkZone (busy_ z) (start_ z) (max_capacity_ z) (wp_ z) (lifetime_ z)
         (used_capacity_ z) v (reset_count_ z).
Definition set_reset_count (v : Z) (z : Zone) : Zone :=
  mkZone (busy_ z) (start_ z) (max_capacity_ z) (wp_ z) (lifetime_ z)
         (used_capacity_ z) (capacity_ z) v.

Definition IsUsed (z : Zone) : bool := 0 <? used_capacity_ z.
Definition IsFull (z : Zone) : bool := capacity_ z =? 0.
Definition IsEmpty (z : Zone) : bool := wp_ z =? start_ z.
Definition IsBusy (z : Zone) : bool := busy_ z.

(** Modelled from the spec: [Zone::Acquire] and [Zone::Release] are declared
    in zbd_zenfs.h, which is not part of the sources at hand.  The spec
    gives them as an atomic compare-and-set of [busy] from false to true,
    and a release that clears [busy] and fails only if it was not held. *)
Definition Acquire (z : Zone) : bool * Zone :=
  if busy_ z then (false, z) else (true, set_busy true z).

Definition Release (z : Zone) : bool * Zone :=
  if busy_ z then (true, set_busy false z) else (false, z).

(** [Zone::CheckRelease] (zbd_zenfs.cc:202). *)
Definition CheckRelease (z : Zone) : IOStatus * Zone :=
  let '(released, z') := Release z in
  if released then (OK, z') else (Corruption, z').

(** [Zone::GetZoneReclaimableSpace] (zbd_zenfs.cc:136). *)
Definition GetZoneReclaimableSpace (z : Zone) : Z :=
  if IsFull z then u64 (max_capacity_ z - used_capacity_ z)
  else u64 (wp_ z - start_ z - used_capacity_ z).

(** ** The backend

    [ZonedBlockDeviceBackend] is an external collaborator.  Its answers are
    data here: what it reports on [Open], the zone listing, and the outcome
    of [Reset], [Finish] and [Close] for the zone starting at a given byte
    offset. *)

Record ZoneDesc : Type := mkZoneDesc {
  zd_start : Z;          (* ZoneStart        *)
  zd_max_capacity : Z;   (* ZoneMaxCapacity  *)
  zd_wp : Z;             (* ZoneWp           *)
  zd_swr : bool;         (* ZoneIsSwr        *)
  zd_offline : bool;     (* ZoneIsOffline    *)
  zd_writable : bool;    (* ZoneIsWritable   *)
  zd_active : bool;      (* ZoneIsActive     *)
  zd_open : bool         (* ZoneIsOpen       *)
}.

Record Backend : Type := mkBackend {
  be_ZoneSize : Z;                              (* GetZoneSize  *)
  be_BlockSize : Z;                             (* GetBlockSize *)
  be_NrZones : Z;                               (* GetNrZones   *)
  be_Open : bool -> bool -> IOStatus * Z * Z;   (* status, max active, max open *)
  be_ListZones : option (list ZoneDesc);        (* None: nullptr *)
  be_Reset : Z -> IOStatus * bool * Z;          (* status, offline, max capacity *)
  be_Finish : Z -> IOStatus;
  be_Close : Z -> IOStatus
}.

(** [Zone::Zone] (zbd_zenfs.cc:52). *)
Definition new_Zone (zd : ZoneDesc) : Zone :=
  let z := mkZone false (zd_start zd) (zd_max_capacity zd) (zd_wp zd)
                  WLTH_NOT_SET 0 0 0 in
  if zd_writable zd
  then set_capacity (u64 (max_capacity_ z - u64 (wp_ z - start_ z))) z
  else z.

(** [Zone::Finish] (zbd_zenfs.cc:148). *)
Definition Zone_Finish (be : Backend) (z : Zone) : IOStatus * Zone :=
  let ios := be_Finish be (start_ z) in
  if negb (bool_decide (ios = OK)) then (ios, z)
  else (OK, set_wp (u64 (start_ z + be_ZoneSize be)) (set_capacity 0 z)).

(** [Zone::Close] (zbd_zenfs.cc:160): the zone itself is never modified. *)
Definition Zone_Close (be : Backend) (z : Zone) : IOStatus * Zone :=
  if negb (IsEmpty z || IsFull z) then
    let ios := be_Close be (start_ z) in
    if negb (bool_decide (ios = OK)) then (ios, z) else (OK, z)
  else (OK, z).

(** [Zone::Append] (zbd_zenfs.cc:171).  [rets] lists what the successive
    calls of [zbd_be_->Write] return (an [int]: bytes written, or negative
    on error).  The result is [None] when the list runs out while the loop
    is still asking the backend for more.  The assertion on the block size
    and the byte counter of the device ([AddBytesWritten]) are left out. *)
Fixpoint Append_loop (rets : list Z) (left : Z) (z : Zone) : option (IOStatus * Zone) :=
  if left =? 0 then Some (OK, z)
  else
    match rets with
    | [] => None
    | ret :: rets' =>
        if ret <? 0 then Some (IOError, z)
        else
          Append_loop rets' (u32 (left - ret))
            (set_capacity (u64 (capacity_ z - ret)) (set_wp (u64 (wp_ z + ret)) z))
    end.

Definition Zone_Append (rets : list Z) (z : Zone) (size : Z) : option (IOStatus * Zone) :=
  if capacity_ z <? size then Some (NoSpace, z)
  else Append_loop rets size z.

(** ** ZonedBlockDevice *)

(** Modelled from the spec: [class ZonedBlockDevice] is declared in
    zbd_zenfs.h, which is not part of the sources at hand.  The fields are
    those zbd_zenfs.cc reads or writes.  The counters that [Zone::Reset]
    copies into [uint32_t] locals are 32 bit; the token counts are [long];
    the limits receive [unsigned int] values in [Open];
    [reset_ratio_threshold_] is divided by a [double] and stored back, and
    the spec lets its sign flip, so it is a [double].  [wl_notified] counts
    the [notify_one] calls on the wear-levelling worker's condition
    variable. *)
Record Device : Type := mkDevice {
  meta_zones : list Zone;
  io_zones : list Zone;
  open_io_zones_ : Z;
  active_io_zones_ : Z;
  max_nr_active_io_zones_ : Z;
  max_nr_open_io_zones_ : Z;
  finish_threshold_ : Z;
  total_reset_count_ : Z;
  check_reset_count_ : Z;
  reset_ratio_threshold_ : float;
  wl_trigger_count_ : Z;
  wl_worker_sleep_ : bool;
  wl_notified : nat;
  migrating_ : bool;
  zone_deferred_status_ : IOStatus
}.

Definition set_meta_zones (v : list Zone) (d : Device) : Device :=
  mkDevice v (io_zones d) (open_io_zones_ d) (active_io_zones_ d)
    (max_nr_active_io_zones_ d) (max_nr_open_io_zones_ d) (finish_threshold_ d)
    (total_reset_count_ d) (check_reset_count_ d) (reset_ratio_threshold_ d)
    (wl_trigger_count_ d) (wl_worker_sleep_ d) (wl_notified d) (migrating_ d)
    (zone_deferred_status_ d).
Definition set_io_zones (v : list Zone) (d : Device) : Device :=
  mkDevice (meta_zones d) v (open_io_zones_ d) (active_io_zones_ d)
    (max_nr_active_io_zones_ d) (max_nr_open_io_zones_ d) (finish_threshold_ d)
    (total_reset_count_ d) (check_reset_count_ d) (reset_ratio_threshold_ d)
    (wl_trigger_count_ d) (wl_worker_sleep_ d) (wl_notified d) (migrating_ d)
    (zone_deferred_status_ d).
Definition set_open_io_zones (v : Z) (d : Device) : Device :=
  mkDevice (meta_zones d) (io_zones d) v (active_io_zones_ d)
    (max_nr_active_io_zones_ d) (max_nr_open_io_zones_ d) (finish_threshold_ d)
    (total_reset_count_ d) (check_reset_count_ d) (reset_ratio_threshold_ d)
    (wl_trigger_count_ d) (wl_worker_sleep_ d) (wl_notified d) (migrating_ d)
    (zone_deferred_status_ d).
Definition set_active_io_zones (v : Z) (d : Device) : Device :=
  mkDevice (meta_zones d) (io_zones d) (open_io_zones_ d) v
    (max_nr_active_io_zones_ d) (max_nr_open_io_zones_ d) (finish_threshold_ d)
    (total_reset_count_ d) (check_reset_count_ d) (reset_ratio_threshold_ d)
    (wl_trigger_count_ d) (wl_worker_sleep_ d) (wl_notified d) (migrating_ d)
    (zone_deferred_status_ d).
Definition set_max_nr_active_io_zones (v : Z) (d : Device) : Device :=
  mkDevice (meta_zones d) (io_zones d) (open_io_zones_ d) (active_io_zones_ d)
    v (max_nr_open_io_zones_ d) (finish_threshold_ d)
    (total_reset_count_ d) (check_reset_count_ d) (reset_ratio_threshold_ d)
    (wl_trigger_count_ d) (wl_worker_sleep_ d) (wl_notified d) (migrating_ d)
    (zone_deferred_status_ d).
Definition set_max_nr_open_io_zones (v : Z) (d : Device) : Device :=
  mkDevice (meta_zones d) (io_zones d) (open_io_zones_ d) (active_io_zones_ d)
    (max_nr_active_io_zones_ d) v (finish_threshold_ d)
    (total_reset_count_ d) (check_reset_count_ d) (reset_ratio_threshold_ d)
    (wl_trigger_count_ d) (wl_worker_sleep_ d) (wl_notified d) (migrating_ d)
    (zone_deferred_status_ d).
Definition set_total_reset_count (v : Z) (d : Device) : Device :=
  mkDevice (meta_zones d) (io_zones d) (open_io_zones_ d) (active_io_zones_ d)
    (max_nr_active_io_zones_ d) (max_nr_open_io_zones_ d) (finish_threshold_ d)
    v (check_reset_count_ d) (reset_ratio_threshold_ d)
    (wl_trigger_count_ d) (wl_worker_sleep_ d) (wl_notified d) (migrating_ d)
    (zone_deferred_status_ d).
Definition SetCheckResetCount (v : Z) (d : Device) : Device :=
  mkDevice (meta_zones d) (io_zones d) (open_io_zones_ d) (active_io_zones_ d)
    (max_nr_active_io_zones_ d) (max_nr_open_io_zones_ d) (finish_threshold_ d)
    (total_reset_count_ d) v (reset_ratio_threshold_ d)
    (wl_trigger_count_ d) (wl_worker_sleep_ d) (wl_notified d) (migrating_ d)
    (zone_deferred_status_ d).
Definition set_reset_ratio_threshold (v : float) (d : Device) : Device :=
  mkDevice (meta_zones d) (io_zones d) (open_io_zones_ d) (active_io_zones_ d)
    (max_nr_active_io_zones_ d) (max_nr_open_io_zones_ d) (finish_threshold_ d)
    (total_reset_count_ d) (check_reset_count_ d) v
    (wl_trigger_count_ d) (wl_worker_sleep_ d) (wl_notified d) (migrating_ d)
    (zone_deferred_status_ d).
Definition set_wl_trigger_count (v : Z) (d : Device) : Device :=
  mkDevice (meta_zones d) (io_zones d) (open_io_zones_ d) (active_io_zones_ d)
    (max_nr_active_io_zones_ d) (max_nr_open_io_zones_ d) (finish_threshold_ d)
    (total_reset_count_ d) (check_reset_count_ d) (reset_ratio_threshold_ d)
    v (wl_worker_sleep_ d) (wl_notified d) (migrating_ d)
    (zone_deferred_status_ d).
Definition set_migrating (v : bool) (d : Device) : Device :=
  mkDevice (meta_zones d) (io_zones d) (open_io_zones_ d) (active_io_zones_ d)
    (max_nr_active_io_zones_ d) (max_nr_open_io_zones_ d) (finish_threshold_ d)
    (total_reset_count_ d) (check_reset_count_ d) (reset_ratio_threshold_ d)
    (wl_trigger_count_ d) (wl_worker_sleep_ d) (wl_notified d) v
    (zone_deferred_status_ d).
Definition set_zone_deferred_status (v : IOStatus) (d : Device) : Device :=
  mkDevice (meta_zones d) (io_zones d) (open_io_zones_ d) (active_io_zones_ d)
    (max_nr_active_io_zones_ d) (max_nr_open_io_zones_ d) (finish_threshold_ d)
    (total_reset_count_ d) (check_reset_count_ d) (reset_ratio_threshold_ d)
    (wl_trigger_count_ d) (wl_worker_sleep_ d) (wl_notified d) (migrating_ d)
    v.

(** [ZonedBlockDevice::WakeupWLWorker] (zbd_zenfs.cc:274). *)
Definition WakeupWLWorker (d : Device) : Device :=
  mkDevice (meta_zones d) (io_zones d) (open_io_zones_ d) (active_io_zones_ d)
    (max_nr_active_io_zones_ d) (max_nr_open_io_zones_ d) (finish_threshold_ d)
    (total_reset_count_ d) (check_reset_count_ d) (reset_ratio_threshold_ d)
    (wl_trigger_count_ d) false (S (wl_notified d)) (migrating_ d)
    (zone_deferred_status_ d).

(** A [Zone *]: which vector the zone is in, and where. *)
Inductive ZoneRef : Type :=
  | MetaZone (i : nat)
  | IOZone (i : nat).

Definition zone_at (d : Device) (r : ZoneRef) : option Zone :=
  match r with
  | MetaZone i => meta_zones d !! i
  | IOZone i => io_zones d !! i
  end.

Definition set_zone (r : ZoneRef) (z : Zone) (d : Device) : Device :=
  match r with
  | MetaZone i => set_meta_zones (<[i := z]> (meta_zones d)) d
  | IOZone i => set_io_zones (<[i := z]> (io_zones d)) d
  end.

(** ** Reset counters and the wear-levelling trigger *)

(** [uint32_t] to [double]: exact. *)
Definition of_u32 (x : Z) : float := PrimFloat.of_uint63 (Uint63.of_Z x).

(** [int] to [double]: exact. *)
Definition of_s32 (x : Z) : float :=
  if x <? 0 then PrimFloat.opp (of_u32 (- x)) else of_u32 x.

(** [GetIOZoneResetCountNow] (zbd_zenfs.cc:235). *)
Definition GetIOZoneResetCountNow (d : Device) : Z :=
  fold_left (fun total z => u32 (total + reset_count_ z)) (io_zones d) 0.

(** [GetMetaZoneResetCountNow] (zbd_zenfs.cc:261). *)
Definition GetMetaZoneResetCountNow (d : Device) : Z :=
  fold_left (fun total z => u32 (total + reset_count_ z)) (meta_zones d) 0.

(** [GetResetCountStdDev] (zbd_zenfs.cc:280).  [n] is the [int] that
    [io_zones.size ()] is stored in.  The mean is an unsigned integer
    division ([n] converted to [unsigned]) whose quotient is converted to
    [double]; [pow (x, 2)] is [x * x]; the variance divides by [n] as a
    [double].  With [n = 0] the integer division traps and the process
    dies, which is the result [None]. *)
Definition GetResetCountStdDev (d : Device) : option float :=
  let n := s32 (Z.of_nat (length (io_zones d))) in
  if u32 n =? 0 then None
  else
    let mean := of_u32 (GetIOZoneResetCountNow d / u32 n) in
    let sum :=
      fold_left
        (fun sum z =>
           let x := (of_u32 (reset_count_ z) - mean)%float in
           (sum + x * x)%float)
        (io_zones d) 0%float in
    let variance := (sum / of_s32 n)%float in
    Some (PrimFloat.sqrt variance).

(** The device has io zones, and their number fits 32 bits: the divisor
    [n] of [GetResetCountStdDev] is not 0. *)
Definition io_zones_counted (d : Device) : Prop :=
  io_zones d <> [] /\ Z.of_nat (length (io_zones d)) < 2 ^ 32.

(** The damped threshold (zbd_zenfs.cc:125). *)
Definition damped_threshold (threshold reset_count_std_dev : float) : float :=
  (threshold / (1 + (reset_count_std_dev - 1.5) / 1.5))%float.

(** The two conditions on the reset-count diff (zbd_zenfs.cc:119):
    [100 * reset_count_diff] is computed in [uint32_t], the right-hand side
    and the comparison in [double]. *)
Definition wl_diff_conditions (be : Backend) (d : Device)
    (io_zones_reset_count reset_count_diff : Z) : bool :=
  PrimFloat.ltb (of_u32 io_zones_reset_count * reset_ratio_threshold_ d)%float
                (of_u32 (u32 (100 * reset_count_diff)))
  && (be_NrZones be <=? reset_count_diff).

(** The tail of [Zone::Reset] (zbd_zenfs.cc:113-131), run after the two
    counters have been incremented.  [None]: the process dies in
    [GetResetCountStdDev]. *)
Definition wl_trigger (be : Backend) (d : Device) : option Device :=
  let io_zones_reset_count :=
    u32 (total_reset_count_ d - GetMetaZoneResetCountNow d) in
  if be_NrZones be <? total_reset_count_ d then
    let d1 :=
      if check_reset_count_ d <? be_NrZones be
      then SetCheckResetCount (be_NrZones be) d else d in
    let reset_count_diff := u32 (io_zones_reset_count - check_reset_count_ d1) in
    if wl_diff_conditions be d1 io_zones_reset_count reset_count_diff then
      let d2 :=
        if 2 <=? wl_trigger_count_ d1 then
          let d' := set_wl_trigger_count 0 d1 in
          match GetResetCountStdDev d' with
          | None => None
          | Some reset_count_std_dev =>
              Some (set_reset_ratio_threshold
                      (damped_threshold (reset_ratio_threshold_ d')
                         reset_count_std_dev) d')
          end
        else Some d1 in
      match d2 with
      | None => None
      | Some d2 =>
          Some (SetCheckResetCount io_zones_reset_count (WakeupWLWorker d2))
      end
    else Some d1
  else Some d.

(** What lines 102-110 of [Zone::Reset] do to the zone itself. *)
Definition reset_zone (offline : bool) (max_capacity : Z) (z : Zone) : Zone :=
  let z1 :=
    if offline then set_capacity 0 z
    else set_max_capacity max_capacity (set_capacity max_capacity z) in
  let z2 := set_lifetime WLTH_NOT_SET (set_wp (start_ z1) z1) in
  set_reset_count (u32 (reset_count_ z2 + 1)) z2.

(** [Zone::Reset] (zbd_zenfs.cc:90) on the zone [r] of device [d].  A
    reference outside its vector does not arise (every [ZoneRef] below comes
    from a loop over the vector); the model answers [IOError] there.
    [None]: the process dies in the wear-levelling tail. *)
Definition Zone_Reset (be : Backend) (r : ZoneRef) (d : Device)
    : option (IOStatus * Device) :=
  match zone_at d r with
  | None => Some (IOError, d)
  | Some z =>
      let '(ios, offline, max_capacity) := be_Reset be (start_ z) in
      if negb (bool_decide (ios = OK)) then Some (ios, d)
      else
        let d1 := set_zone r (reset_zone offline max_capacity z) d in
        let d2 := set_total_reset_count (u32 (total_reset_count_ d1 + 1)) d1 in
        match wl_trigger be d2 with
        | None => None
        | Some d3 => Some (OK, d3)
        end
  end.

(** ** Opening the device *)

Definition ZENFS_META_ZONES : Z := 3.
Definition ZENFS_MIN_ZONES : Z := 32.

(** The first loop of [Open] (zbd_zenfs.cc:458): the listing is walked from
    its head; the result is the meta zones and the part of the listing the
    loop has not consumed. *)
Fixpoint Open_meta_loop (zone_rep : list ZoneDesc) (m : Z) (meta : list Zone)
    : list Zone * list ZoneDesc :=
  match zone_rep with
  | [] => (meta, [])
  | zd :: rest =>
      if m <? ZENFS_META_ZONES then
        if zd_swr zd then
          Open_meta_loop rest (m + 1)
            (if negb (zd_offline zd) then meta ++ [new_Zone zd] else meta)
        else Open_meta_loop rest m meta
      else (meta, zone_rep)
  end.

(** The second loop of [Open] (zbd_zenfs.cc:472).  [newZone->Close()] does
    not change the zone and its status is dropped. *)
Fixpoint Open_io_loop (be : Backend) (readonly : bool) (zone_rep : list ZoneDesc)
    (d : Device) : IOStatus * Device :=
  match zone_rep with
  | [] => (OK, d)
  | zd :: rest =>
      if zd_swr zd && negb (zd_offline zd) then
        let newZone := new_Zone zd in
        let '(acquired, z1) := Acquire newZone in
        if negb acquired then (Corruption, d)
        else
          let d1 :=
            if zd_active zd
            then set_active_io_zones (active_io_zones_ d + 1) d else d in
          let z2 :=
            if zd_active zd && zd_open zd && negb readonly
            then snd (Zone_Close be z1) else z1 in
          let '(status, z3) := CheckRelease z2 in
          let d2 := set_io_zones (io_zones d1 ++ [z3]) d1 in
          if negb (ok status) then (status, d2)
          else Open_io_loop be readonly rest d2
      else Open_io_loop be readonly rest d
  end.

(** [ZonedBlockDevice::Open] (zbd_zenfs.cc:416); [start_time_] is left
    out. *)
Definition Open (be : Backend) (readonly exclusive : bool) (d : Device)
    : IOStatus * Device :=
  let reserved_zones := 2 in
  if negb readonly && negb exclusive then (InvalidArgument, d)
  else
    let '(ios, max_nr_active_zones, max_nr_open_zones) :=
      be_Open be readonly exclusive in
    if negb (bool_decide (ios = OK)) then (ios, d)
    else if be_NrZones be <? ZENFS_MIN_ZONES then (NotSupported, d)
    else
      let d1 :=
        set_max_nr_active_io_zones
          (if max_nr_active_zones =? 0 then be_NrZones be
           else u32 (max_nr_active_zones - reserved_zones)) d in
      let d2 :=
        set_max_nr_open_io_zones
          (if max_nr_open_zones =? 0 then be_NrZones be
           else u32 (max_nr_open_zones - reserved_zones)) d1 in
      match be_ListZones be with
      | None => (IOError, d2)
      | Some zone_rep =>
          if negb (Z.of_nat (length zone_rep) =? be_NrZones be)
          then (IOError, d2)
          else
            let '(meta, rest) := Open_meta_loop zone_rep 0 (meta_zones d2) in
            let d3 := set_meta_zones meta d2 in
            let d4 := set_open_io_zones 0 (set_active_io_zones 0 d3) in
            Open_io_loop be readonly rest d4
      end.


(** ** Tokens *)

(** [WaitForOpenIOZoneToken] (zbd_zenfs.cc:801).  [None]: the wait does not
    return, since no other thread hands a token back in this model. *)
Definition WaitForOpenIOZoneToken (prioritized : bool) (d : Device) : option Device :=
  let allocator_open_limit :=
    if prioritized then max_nr_open_io_zones_ d
    else u32 (max_nr_open_io_zones_ d - 1) in
  if open_io_zones_ d <? allocator_open_limit
  then Some (set_open_io_zones (open_io_zones_ d + 1) d)
  else None.

(** [GetActiveIOZoneTokenIfAvailable] (zbd_zenfs.cc:826). *)
Definition GetActiveIOZoneTokenIfAvailable (d : Device) : bool * Device :=
  if active_io_zones_ d <? max_nr_active_io_zones_ d
  then (true, set_active_io_zones (active_io_zones_ d + 1) d)
  else (false, d).

(** [PutOpenIOZoneToken] (zbd_zenfs.cc:839). *)
Definition PutOpenIOZoneToken (d : Device) : Device :=
  set_open_io_zones (open_io_zones_ d - 1) d.

(** [PutActiveIOZoneToken] (zbd_zenfs.cc:847). *)
Definition PutActiveIOZoneToken (d : Device) : Device :=
  set_active_io_zones (active_io_zones_ d - 1) d.

(** ** The deferred status *)

(** [GetZoneDeferredStatus] (zbd_zenfs.cc:1274). *)
Definition GetZoneDeferredStatus (d : Device) : IOStatus :=
  zone_deferred_status_ d.

(** [SetZoneDeferredStatus] (zbd_zenfs.cc:1279). *)
Definition SetZoneDeferredStatus (status : IOStatus) (d : Device) : Device :=
  if negb (ok (zone_deferred_status_ d))
  then set_zone_deferred_status status d
  else d.

(** ** Loops over a zone vector

    The body of a [for (const auto z : zones)] loop either goes on to the
    next zone ([continue], or the end of the body), leaves the loop
    ([break]) or leaves the function ([return]). *)

Inductive Step (S R : Type) : Type :=
  | Continue (s : S)
  | Break (s : S)
  | Return (r : R).
Arguments Continue {S R} s.
Arguments Break {S R} s.
Arguments Return {S R} r.

Fixpoint for_zones {S R : Type} (body : nat -> S -> Step S R)
    (idxs : list nat) (s : S) : S + R :=
  match idxs with
  | [] => inl s
  | i :: rest =>
      match body i s with
      | Continue s' => for_zones body rest s'
      | Break s' => inl s'
      | Return r => inr r
      end
  end.

(** The positions of a vector, in iteration order. *)
Definition indices (zones : list Zone) : list nat := seq 0 (length zones).

(** ** The allocator

    [be] is the backend.  [rogue] stands for the other threads during one
    pass over a zone vector: a release fails only when the busy flag is not
    held, which a single thread that has just acquired the flag cannot
    observe on its own; [rogue r] says that by the time this thread
    releases zone [r] in this pass another thread has cleared its flag (the
    programming error [CheckRelease] reports as [Corruption]).  A pass
    acquires each zone once and so releases it at most once: one answer per
    zone decides every release of the pass on its own.  [quiet] is the
    environment with no such thread.  The functions that make several
    passes ([GetMigrateTargetZone], [AllocateIOZone]) take an environment
    for each pass, further down. *)

Definition quiet : ZoneRef -> bool := fun _ => false.

Section Allocator.

Variable be : Backend.
Variable rogue : ZoneRef -> bool.

Definition interfered (r : ZoneRef) (z : Zone) : Zone :=
  if rogue r then set_busy false z else z.

(** [z->Acquire()] on the zone [r]; a reference outside the vector is not
    acquirable. *)
Definition zone_Acquire (r : ZoneRef) (d : Device) : bool * Device :=
  match zone_at d r with
  | Some z => let '(acquired, z') := Acquire z in (acquired, set_zone r z' d)
  | None => (false, d)
  end.

(** [z->Release()] on the zone [r]. *)
Definition zone_Release (r : ZoneRef) (d : Device) : bool * Device :=
  match zone_at d r with
  | Some z =>
      let '(released, z') := Release (interfered r z) in
      (released, set_zone r z' d)
  | None => (false, d)
  end.

(** [z->CheckRelease()] on the zone [r]. *)
Definition zone_CheckRelease (r : ZoneRef) (d : Device) : IOStatus * Device :=
  match zone_at d r with
  | Some z =>
      let '(s, z') := CheckRelease (interfered r z) in (s, set_zone r z' d)
  | None => (Corruption, d)
  end.

(** [z->Finish()] on the io zone [i]. *)
Definition zone_Finish (i : nat) (d : Device) : IOStatus * Device :=
  match io_zones d !! i with
  | Some z => let '(s, z') := Zone_Finish be z in (s, set_zone (IOZone i) z' d)
  | None => (IOError, d)
  end.

(** [AllocateMetaZone] (zbd_zenfs.cc:755).  The result is the status, what
    [*out_meta_zone] holds on return, and the device; [None] when the
    process dies in [Zone::Reset]. *)
Definition AllocateMetaZone_body (i : nat) (d : Device)
    : Step Device (option (IOStatus * option nat * Device)) :=
  let '(acquired, d) := zone_Acquire (MetaZone i) d in
  if acquired then
    match meta_zones d !! i with
    | None => Continue d
    | Some z =>
        if negb (IsUsed z) then
          if negb (IsEmpty z) then
            match Zone_Reset be (MetaZone i) d with
            | None => Return None
            | Some (reset_status, d) =>
                if negb (ok reset_status) then
                  let '(status, d) := zone_CheckRelease (MetaZone i) d in
                  if negb (ok status) then Return (Some (status, None, d))
                  else Continue d
                else Return (Some (OK, Some i, d))
            end
          else Return (Some (OK, Some i, d))
        else Continue d
    end
  else Continue d.

Definition AllocateMetaZone (d : Device)
    : option (IOStatus * option nat * Device) :=
  match for_zones AllocateMetaZone_body (indices (meta_zones d)) d with
  | inr r => r
  | inl d => Some (NoSpace, None, d)
  end.

(** [ApplyFinishThreshold] (zbd_zenfs.cc:855). *)
Definition ApplyFinishThreshold_body (i : nat) (d : Device)
    : Step Device (IOStatus * Device) :=
  let '(acquired, d) := zone_Acquire (IOZone i) d in
  if acquired then
    match io_zones d !! i with
    | None => Continue d
    | Some z =>
        let within_finish_threshold :=
          capacity_ z <? u64 (max_capacity_ z * finish_threshold_ d) / 100 in
        if negb (IsEmpty z || IsFull z) && within_finish_threshold then
          let '(s, d) := zone_Finish i d in
          if negb (ok s) then
            let '(_, d) := zone_Release (IOZone i) d in Return (s, d)
          else
            let '(s, d) := zone_CheckRelease (IOZone i) d in
            if negb (ok s) then Return (s, d)
            else Continue (PutActiveIOZoneToken d)
        else
          let '(s, d) := zone_CheckRelease (IOZone i) d in
          if negb (ok s) then Return (s, d) else Continue d
    end
  else Continue d.

Definition ApplyFinishThreshold (d : Device) : IOStatus * Device :=
  if finish_threshold_ d =? 0 then (OK, d)
  else
    match for_zones ApplyFinishThreshold_body (indices (io_zones d)) d with
    | inr r => r
    | inl d => (OK, d)
    end.

(** [FinishCheapestIOZone] (zbd_zenfs.cc:886). *)
Definition FinishCheapestIOZone_body (i : nat) (s : Device * option nat)
    : Step (Device * option nat) (IOStatus * Device) :=
  let '(d, finish_victim) := s in
  let '(acquired, d) := zone_Acquire (IOZone i) d in
  if acquired then
    match io_zones d !! i with
    | None => Continue (d, finish_victim)
    | Some z =>
        if IsEmpty z || IsFull z then
          let '(s, d) := zone_CheckRelease (IOZone i) d in
          if negb (ok s) then Return (s, d) else Continue (d, finish_victim)
        else
          match finish_victim with
          | None => Continue (d, Some i)
          | Some v =>
              let victim_capacity :=
                match io_zones d !! v with
                | Some zv => capacity_ zv
                | None => 0
                end in
              if capacity_ z <? victim_capacity then
                let '(s, d) := zone_CheckRelease (IOZone v) d in
                if negb (ok s) then Return (s, d) else Continue (d, Some i)
              else
                let '(s, d) := zone_CheckRelease (IOZone i) d in
                if negb (ok s) then Return (s, d) else Continue (d, Some v)
          end
    end
  else Continue (d, finish_victim).

Definition FinishCheapestIOZone (d : Device) : IOStatus * Device :=
  match for_zones FinishCheapestIOZone_body (indices (io_zones d)) (d, None) with
  | inr r => r
  | inl (d, None) => (OK, d)
  | inl (d, Some v) =>
      let '(s, d) := zone_Finish v d in
      let '(release_status, d) := zone_CheckRelease (IOZone v) d in
      let d := if ok s then PutActiveIOZoneToken d else d in
      if negb (ok release_status) then (release_status, d) else (s, d)
  end.

(** [GetBestOpenZoneMatch] (zbd_zenfs.cc:932).  The loop state is the
    device, [allocated_zone] and [best_diff]; the result is the status, what
    was stored through [best_diff_out] and [zone_out] (nothing on an
    error), and the device. *)
Definition GetBestOpenZoneMatch_body (file_lifetime : WriteLifeTimeHint)
    (min_capacity : Z) (i : nat) (s : Device * option nat * Z)
    : Step (Device * option nat * Z) (IOStatus * Device) :=
  let '(d, allocated_zone, best_diff) := s in
  let '(acquired, d) := zone_Acquire (IOZone i) d in
  if acquired then
    match io_zones d !! i with
    | None => Continue (d, allocated_zone, best_diff)
    | Some z =>
        if (0 <? used_capacity_ z) && negb (IsFull z)
           && (min_capacity <=? capacity_ z) then
          let diff := GetLifeTimeDiff (lifetime_ z) file_lifetime in
          if diff <=? best_diff then
            match allocated_zone with
            | Some a =>
                let '(s, d) := zone_CheckRelease (IOZone a) d in
                if negb (ok s) then
                  let '(s_, d) := zone_CheckRelease (IOZone i) d in
                  if negb (ok s_) then Return (s_, d) else Return (s, d)
                else Continue (d, Some i, diff)
            | None => Continue (d, Some i, diff)
            end
          else
            let '(s, d) := zone_CheckRelease (IOZone i) d in
            if negb (ok s) then Return (s, d)
            else Continue (d, allocated_zone, best_diff)
        else
          let '(s, d) := zone_CheckRelease (IOZone i) d in
          if negb (ok s) then Return (s, d)
          else Continue (d, allocated_zone, best_diff)
    end
  else Continue (d, allocated_zone, best_diff).

Definition GetBestOpenZoneMatch (file_lifetime : WriteLifeTimeHint)
    (min_capacity : Z) (d : Device)
    : IOStatus * option (Z * option nat) * Device :=
  match for_zones (GetBestOpenZoneMatch_body file_lifetime min_capacity)
          (indices (io_zones d)) (d, None, LIFETIME_DIFF_NOT_GOOD) with
  | inr (s, d) => (s, None, d)
  | inl (d, allocated_zone, best_diff) =>
      (OK, Some (best_diff, allocated_zone), d)
  end.

(** The reset count of the io zone a pointer names. *)
Definition reset_count_at (d : Device) (i : nat) : Z :=
  match io_zones d !! i with
  | Some z => reset_count_ z
  | None => 0
  end.

(** The release of the zone at hand, shared by the scans below:
    [s = z->CheckRelease(); if (!s.ok()) return s;]. *)
Definition release_or_return {S : Type} (i : nat) (d : Device) (k : Device -> S)
    : Step S (IOStatus * Device) :=
  let '(s, d) := zone_CheckRelease (IOZone i) d in
  if negb (ok s) then Return (s, d) else Continue (k d).

(** The replacement of the zone held so far by the zone at hand, shared by
    the scans below: release the old one if there is one; if that fails,
    release the new one too and return the first failure seen. *)
Definition replace_or_return {S : Type} (i : nat) (held : option nat)
    (d : Device) (k : Device -> Step S (IOStatus * Device))
    : Step S (IOStatus * Device) :=
  match held with
  | Some a =>
      let '(s, d) := zone_CheckRelease (IOZone a) d in
      if negb (ok s) then
        let '(s_, d) := zone_CheckRelease (IOZone i) d in
        if negb (ok s_) then Return (s_, d) else Return (s, d)
      else k d
  | None => k d
  end.

(** [AllocateEmptyZone (file_lifetime, zone_out)] (zbd_zenfs.cc:989): the
    loop for [file_lifetime < WLTH_SHORT] keeps the empty zone with the
    highest reset count, the other loop the one with the lowest and stops
    at a zone never reset. *)
Definition AllocateEmptyZone_body (prefer_worn : bool) (i : nat)
    (s : Device * option nat)
    : Step (Device * option nat) (IOStatus * Device) :=
  let '(d, allocated_zone) := s in
  let '(acquired, d) := zone_Acquire (IOZone i) d in
  if acquired then
    match io_zones d !! i with
    | None => Continue (d, allocated_zone)
    | Some z =>
        if IsEmpty z then
          let better :=
            match allocated_zone with
            | None => true
            | Some a =>
                if prefer_worn then reset_count_at d a <? reset_count_ z
                else reset_count_ z <? reset_count_at d a
            end in
          if better then
            replace_or_return i allocated_zone d (fun d =>
              if negb prefer_worn && (reset_count_ z =? 0)
              then Break (d, Some i)
              else Continue (d, Some i))
          else release_or_return i d (fun d => (d, allocated_zone))
        else release_or_return i d (fun d => (d, allocated_zone))
    end
  else Continue (d, allocated_zone).

Definition AllocateEmptyZone (file_lifetime : WriteLifeTimeHint) (d : Device)
    : IOStatus * option (option nat) * Device :=
  let prefer_worn := hint_val file_lifetime <? hint_val WLTH_SHORT in
  match for_zones (AllocateEmptyZone_body prefer_worn)
          (indices (io_zones d)) (d, None) with
  | inr (s, d) => (s, None, d)
  | inl (d, allocated_zone) => (OK, Some allocated_zone, d)
  end.

(** Modelled from the spec: [IOType] is declared in a header that is not at
    hand; the allocator only tells write-ahead-log writes from the rest. *)
Inductive IOType : Type :=
  | kWAL
  | kNonWAL.

(** Modelled from the spec: the default value of the [min_capacity]
    argument of [GetBestOpenZoneMatch] is given in zbd_zenfs.h, not at
    hand; the spec's allocator asks for no minimal capacity. *)
Definition default_min_capacity : Z := 0.

(** [TakeMigrateZone] (zbd_zenfs.cc:1101).  [None]: the wait for
    [!migrating_] does not return. *)
Definition TakeMigrateZone (file_lifetime : WriteLifeTimeHint)
    (min_capacity : Z) (d : Device)
    : option (IOStatus * option (option nat) * Device) :=
  if migrating_ d then None
  else
    let d := set_migrating true d in
    let '(s, out, d) := GetBestOpenZoneMatch file_lifetime min_capacity d in
    let out_zone := snd <$> out in
    if ok s && bool_decide (is_Some (mjoin out_zone))
    then Some (s, out_zone, d)
    else Some (s, out_zone, set_migrating false d).

(** [ReleaseMigrateZone] (zbd_zenfs.cc:1087). *)
Definition ReleaseMigrateZone (zone : option nat) (d : Device) : IOStatus * Device :=
  let d := set_migrating false d in
  match zone with
  | Some i => zone_CheckRelease (IOZone i) d
  | None => (OK, d)
  end.

(** [GetMigrateTargetZone] (zbd_zenfs.cc:645), first loop: the empty zone
    with the highest reset count.  Every error exit of this loop puts the
    open token back. *)
Definition migrate_empty_body (i : nat) (s : Device * option nat)
    : Step (Device * option nat) (IOStatus * Device) :=
  let '(d, target_zone) := s in
  let '(acquired, d) := zone_Acquire (IOZone i) d in
  if acquired then
    match io_zones d !! i with
    | None => Continue (d, target_zone)
    | Some z =>
        if IsEmpty z then
          match target_zone with
          | None => Continue (d, Some i)
          | Some t =>
              if reset_count_at d t <? reset_count_ z then
                let '(s, d) := zone_CheckRelease (IOZone t) d in
                if negb (ok s) then
                  let '(s_, d) := zone_CheckRelease (IOZone i) d in
                  if negb (ok s_) then Return (s_, PutOpenIOZoneToken d)
                  else Return (s, PutOpenIOZoneToken d)
                else Continue (d, Some i)
              else
                let '(s, d) := zone_CheckRelease (IOZone i) d in
                if negb (ok s) then Return (s, PutOpenIOZoneToken d)
                else Continue (d, target_zone)
          end
        else
          let '(s, d) := zone_CheckRelease (IOZone i) d in
          if negb (ok s) then Return (s, PutOpenIOZoneToken d)
          else Continue (d, target_zone)
    end
  else Continue (d, target_zone).

(** Second loop (zbd_zenfs.cc:706): the open zone with the highest score.
    Its error exits return at once. *)
Definition migrate_open_body (file_lifetime : WriteLifeTimeHint)
    (min_capacity : Z) (i : nat) (s : Device * option nat * Z)
    : Step (Device * option nat * Z) (IOStatus * Device) :=
  let '(d, target_zone, target_zone_score) := s in
  let '(acquired, d) := zone_Acquire (IOZone i) d in
  if acquired then
    match io_zones d !! i with
    | None => Continue (d, target_zone, target_zone_score)
    | Some z =>
        if (0 <? used_capacity_ z) && negb (IsFull z)
           && (min_capacity <=? capacity_ z) then
          let reclaimable_space := GetZoneReclaimableSpace z in
          let zone_score :=
            u64 (reset_count_ z * reclaimable_space) / max_capacity_ z in
          let better :=
            match target_zone with
            | None => true
            | Some t =>
                (target_zone_score <? zone_score)
                || ((zone_score =? target_zone_score)
                    && (reset_count_at d t <? reset_count_ z))
            end in
          if better then
            let diff := GetLifeTimeDiff (lifetime_ z) file_lifetime in
            if negb (diff =? LIFETIME_DIFF_NOT_GOOD) then
              match target_zone with
              | Some t =>
                  let '(s, d) := zone_CheckRelease (IOZone t) d in
                  if negb (ok s) then
                    let '(s_, d) := zone_CheckRelease (IOZone i) d in
                    if negb (ok s_) then Return (s_, d) else Return (s, d)
                  else Continue (d, Some i, zone_score)
              | None => Continue (d, Some i, zone_score)
              end
            else
              let '(s, d) := zone_CheckRelease (IOZone i) d in
              if negb (ok s) then Return (s, d)
              else Continue (d, target_zone, target_zone_score)
          else
            let '(s, d) := zone_CheckRelease (IOZone i) d in
            if negb (ok s) then Return (s, d)
            else Continue (d, target_zone, target_zone_score)
        else
          let '(s, d) := zone_CheckRelease (IOZone i) d in
          if negb (ok s) then Return (s, d)
          else Continue (d, target_zone, target_zone_score)
    end
  else Continue (d, target_zone, target_zone_score).

(** Between the loops (zbd_zenfs.cc:693): an empty target needs an active
    token; without one the open token is put back and the target let go. *)
Definition migrate_claim_empty (file_lifetime : WriteLifeTimeHint)
    (target_zone : option nat) (d : Device) : Device * option nat :=
  match target_zone with
  | None => (d, None)
  | Some t =>
      let '(got_token, d) := GetActiveIOZoneTokenIfAvailable d in
      if negb got_token then
        let d := PutOpenIOZoneToken d in
        let '(_, d) := zone_Release (IOZone t) d in
        (d, None)
      else
        match io_zones d !! t with
        | Some z => (set_zone (IOZone t) (set_lifetime file_lifetime z) d, Some t)
        | None => (d, Some t)
        end
  end.

(** The second loop runs only when the first part left no target. *)
Definition migrate_open_scan (file_lifetime : WriteLifeTimeHint)
    (min_capacity : Z) (target_zone : option nat) (d : Device)
    : (Device * option nat) + IOStatus * Device :=
  match target_zone with
  | Some t => inl (d, Some t)
  | None =>
      match for_zones (migrate_open_body file_lifetime min_capacity)
              (indices (io_zones d)) (d, None, 0) with
      | inr r => inr r
      | inl (d, target_zone, _) => inl (d, target_zone)
      end
  end.

(** The entry of [GetMigrateTargetZone] (zbd_zenfs.cc:648-657): wait for
    [!migrating_], set it, take an open token.  [None]: one of the two
    waits does not return. *)
Definition migrate_enter (d : Device) : option Device :=
  if migrating_ d then None
  else WaitForOpenIOZoneToken true (set_migrating true d).

(** The first loop, from a null target. *)
Definition migrate_empty_scan (d : Device)
    : (Device * option nat) + IOStatus * Device :=
  for_zones migrate_empty_body (indices (io_zones d)) (d, None).

End Allocator.

(** ** Several passes

    [rogue_at k] is the environment of the [k]-th pass a function makes
    over the zones. *)

Section Passes.

Variable be : Backend.
Variable rogue_at : nat -> ZoneRef -> bool.

(** The loop [while (!got_token && !GetActiveIOZoneTokenIfAvailable ())] of
    [AllocateIOZone] (zbd_zenfs.cc:1191) for [got_token = false]; every
    call of [FinishCheapestIOZone] is a pass of its own, the next one
    being pass [k].  [None]: the loop is still running after [fuel] calls
    of [FinishCheapestIOZone]. *)
Fixpoint finish_until_active_token (k : nat) (fuel : nat) (d : Device)
    : option (IOStatus * Device) :=
  let '(got, d) := GetActiveIOZoneTokenIfAvailable d in
  if got then Some (OK, d)
  else
    match fuel with
    | O => None
    | S fuel' =>
        let '(s, d) := FinishCheapestIOZone be (rogue_at k) d in
        if negb (ok s) then Some (s, d)
        else finish_until_active_token (S k) fuel' d
    end.

(** [AllocateIOZone] (zbd_zenfs.cc:1121).  The result is the status, what
    was stored through [out_zone] (nothing on an error) and the device;
    [None] when the call does not return.  The locals [best_diff] and
    [allocated_zone] keep their initial values where a callee returns
    without storing through its out-parameters.  The passes:
    [ApplyFinishThreshold] is pass 0; [GetBestOpenZoneMatch] with the
    release of its match is pass 1; [AllocateEmptyZone] is pass 2; the
    calls of [FinishCheapestIOZone] are the passes from 3 on. *)
Definition AllocateIOZone_finish (allocated_zone : option nat) (d : Device)
    : option (IOStatus * option (option nat) * Device) :=
  let d :=
    match allocated_zone with
    | Some _ => d
    | None => PutOpenIOZoneToken d
    end in
  Some (OK, Some allocated_zone, d).

Definition AllocateIOZone_new_zone (fuel : nat)
    (file_lifetime : WriteLifeTimeHint) (got_token : bool) (d : Device)
    : option (IOStatus * option (option nat) * Device) :=
  match (if got_token then Some (OK, d)
         else finish_until_active_token 3 fuel d) with
  | None => None
  | Some (s, d) =>
      if negb (ok s) then Some (s, None, PutOpenIOZoneToken d)
      else
        let '(s, out, d) := AllocateEmptyZone (rogue_at 2) file_lifetime d in
        if negb (ok s)
        then Some (s, None, PutOpenIOZoneToken (PutActiveIOZoneToken d))
        else
          match default None out with
          | Some a =>
              let d :=
                match io_zones d !! a with
                | Some z => set_zone (IOZone a) (set_lifetime file_lifetime z) d
                | None => d
                end in
              AllocateIOZone_finish (Some a) d
          | None => AllocateIOZone_finish None (PutActiveIOZoneToken d)
          end
  end.

Definition AllocateIOZone (fuel : nat) (file_lifetime : WriteLifeTimeHint)
    (io_type : IOType) (d : Device)
    : option (IOStatus * option (option nat) * Device) :=
  let wal := match io_type with kWAL => true | kNonWAL => false end in
  let s := GetZoneDeferredStatus d in
  if negb (ok s) then Some (s, None, d)
  else
    let '(s, d) :=
      if wal then (OK, d) else ApplyFinishThreshold be (rogue_at 0) d in
    if negb (ok s) then Some (s, None, d)
    else
      match WaitForOpenIOZoneToken wal d with
      | None => None
      | Some d =>
          let '(s, out, d) :=
            GetBestOpenZoneMatch (rogue_at 1) file_lifetime
              default_min_capacity d in
          if negb (ok s) then Some (s, None, PutOpenIOZoneToken d)
          else
            let '(best_diff, allocated_zone) :=
              default (LIFETIME_DIFF_NOT_GOOD, None) out in
            if LIFETIME_DIFF_COULD_BE_WORSE <=? best_diff then
              let '(got_token, d) := GetActiveIOZoneTokenIfAvailable d in
              match allocated_zone with
              | Some a =>
                  if negb got_token
                     && (best_diff =? LIFETIME_DIFF_COULD_BE_WORSE)
                  then AllocateIOZone_finish allocated_zone d
                  else
                    let '(s, d) :=
                      zone_CheckRelease (rogue_at 1) (IOZone a) d in
                    if negb (ok s) then
                      let d := PutOpenIOZoneToken d in
                      Some (s, None,
                            if got_token then PutActiveIOZoneToken d else d)
                    else AllocateIOZone_new_zone fuel file_lifetime got_token d
              | None => AllocateIOZone_new_zone fuel file_lifetime got_token d
              end
            else AllocateIOZone_finish allocated_zone d
      end.

(** [GetMigrateTargetZone] (zbd_zenfs.cc:645).  The result is the status,
    what was stored through [out_zone] (nothing on an error exit of a loop)
    and the device.  The first loop with the release of its target is
    pass 0, the second loop is pass 1. *)
Definition GetMigrateTargetZone (file_lifetime : WriteLifeTimeHint)
    (min_capacity : Z) (d : Device)
    : option (IOStatus * option (option nat) * Device) :=
  match migrate_enter d with
  | None => None
  | Some d =>
      match migrate_empty_scan (rogue_at 0) d with
      | inr (s, d) => Some (s, None, d)
      | inl (d, target_zone) =>
          let '(d, target_zone) :=
            migrate_claim_empty (rogue_at 0) file_lifetime target_zone d in
          match migrate_open_scan (rogue_at 1) file_lifetime min_capacity
                  target_zone d with
          | inr (s, d) => Some (s, None, d)
          | inl (d, None) => Some (NotFound, Some None, set_migrating false d)
          | inl (d, Some t) => Some (OK, Some (Some t), d)
          end
      end
  end.

End Passes.

(** The same environment in every pass. *)
Definition always (rogue : ZoneRef -> bool) : nat -> ZoneRef -> bool :=
  fun _ => rogue.


(** ** What the scans choose *)

(** A zone [GetBestOpenZoneMatch] may pick: its busy flag can be taken, it
    has live data, it is not full and it has [min_capacity] bytes left. *)
Definition open_candidate (min_capacity : Z) (z : Zone) : bool :=
  negb (busy_ z) && (0 <? used_capacity_ z) && negb (IsFull z)
  && (min_capacity <=? capacity_ z).

(** The device [d] with the busy flag of the io zone [held] set. *)
Definition hold (held : option nat) (d : Device) : Device :=
  match held with
  | None => d
  | Some a =>
      match io_zones d !! a with
      | Some z => set_zone (IOZone a) (set_busy true z) d
      | None => d
      end
  end.

(** The choice of [GetBestOpenZoneMatch] as a pass over the zones alone:
    [k] is the position of the head of [zones], [acc] the zone chosen so
    far and its diff. *)
Fixpoint best_match_scan (file_lifetime : WriteLifeTimeHint) (min_capacity : Z)
    (zones : list Zone) (k : nat) (acc : option nat * Z) : option nat * Z :=
  match zones with
  | [] => acc
  | z :: zones' =>
      let diff := GetLifeTimeDiff (lifetime_ z) file_lifetime in
      best_match_scan file_lifetime min_capacity zones' (S k)
        (if open_candidate min_capacity z && (diff <=? snd acc)
         then (Some k, diff) else acc)
  end.

(** [zone_out] and [best_diff] are the best open-zone match among
    [zones]: with no candidate there is no zone and the diff is the
    sentinel; otherwise the zone is a candidate with the smallest diff, and
    every candidate after it has a strictly larger diff. *)
Definition is_best_match (file_lifetime : WriteLifeTimeHint) (min_capacity : Z)
    (zones : list Zone) (zone_out : option nat) (best_diff : Z) : Prop :=
  match zone_out with
  | None =>
      best_diff = LIFETIME_DIFF_NOT_GOOD /\
      forall j z, zones !! j = Some z -> open_candidate min_capacity z = false
  | Some a =>
      exists za,
        zones !! a = Some za /\
        open_candidate min_capacity za = true /\
        best_diff = GetLifeTimeDiff (lifetime_ za) file_lifetime /\
        forall j z,
          zones !! j = Some z -> open_candidate min_capacity z = true ->
          best_diff <= GetLifeTimeDiff (lifetime_ z) file_lifetime /\
          ((a < j)%nat ->
           best_diff < GetLifeTimeDiff (lifetime_ z) file_lifetime)
  end.

(** The token counts, their limit and the migration flag of [d'] are
    those of [d]. *)
Definition tokens_kept (d d' : Device) : Prop :=
  open_io_zones_ d' = open_io_zones_ d /\
  active_io_zones_ d' = active_io_zones_ d /\
  max_nr_active_io_zones_ d' = max_nr_active_io_zones_ d /\
  migrating_ d' = migrating_ d.

(** ** Zone invariants *)

(** The write pointer stays inside the zone's capacity, and the remaining
    capacity of a zone that is not full is what the write pointer leaves. *)
Definition zone_inv (z : Zone) : Prop :=
  start_ z <= wp_ z <= start_ z + max_capacity_ z /\
  (capacity_ z <> 0 -> capacity_ z = max_capacity_ z - (wp_ z - start_ z)).

(** The fields hold [uint64_t] values and the zone does not wrap around the
    end of the address space. *)
Definition zone_in_range (z : Zone) : Prop :=
  0 <= start_ z /\ 0 <= max_capacity_ z /\ 0 <= capacity_ z /\
  start_ z + max_capacity_ z < 2 ^ 64.

(** The backend never reports more bytes written than it was asked for:
    [left] is the request of the first call, [rets] the successive answers. *)
(** The bytes a run of successful writes reports. *)
Definition bytes_written (rets : list Z) : Z := fold_right Z.add 0 rets.

Fixpoint short_writes (left : Z) (rets : list Z) : Prop :=
  match rets with
  | [] => True
  | ret :: rets' => ret <= left /\ (0 <= ret -> short_writes (left - ret) rets')
  end.

(** ** Concrete inputs

    A device in the shape of a small ZNS drive: 2 GiB zones of which
    1077 MiB are writable, 4 KiB blocks, 40 zones. *)

Definition zone_size_ex : Z := 2147483648.
Definition zone_cap_ex : Z := 1129316352.

Definition be_ex : Backend :=
  mkBackend zone_size_ex 4096 40
    (fun _ _ => (OK, 14, 14)) None
    (fun _ => (OK, false, zone_cap_ex))
    (fun _ => OK) (fun _ => OK).

(** The fourth zone of the drive, held busy, one block written, no live
    data, reset five times so far. *)
Definition zone_ex : Zone :=
  mkZone true (3 * zone_size_ex) zone_cap_ex (3 * zone_size_ex + 4096)
         WLTH_MEDIUM 0 (zone_cap_ex - 4096) 5.

(** A device holding that zone as its first io zone: 44 resets so far, the
    wear-levelling check last ran at 40, one trigger counted. *)
Definition dev_ex : Device :=
  mkDevice [] [zone_ex] 1 1 12 12 0 44 40 10%float 1 true 0 false OK.

(** A listing of 40 zones: three sequential-write-required zones for the
    metadata, then one zone that the backend reports active and open with
    one block written, then 36 empty zones. *)
Definition zd_empty (k : Z) : ZoneDesc :=
  mkZoneDesc (k * zone_size_ex) zone_cap_ex (k * zone_size_ex)
             true false true false false.

Definition zd_open_ex : ZoneDesc :=
  mkZoneDesc (3 * zone_size_ex) zone_cap_ex (3 * zone_size_ex + 4096)
             true false true true true.

Definition listing_ex : list ZoneDesc :=
  [zd_empty 0; zd_empty 1; zd_empty 2; zd_open_ex]
  ++ map (fun k => zd_empty (Z.of_nat k)) (seq 4 36).

Definition be_listing_ex : Backend :=
  mkBackend zone_size_ex 4096 40
    (fun _ _ => (OK, 14, 14)) (Some listing_ex)
    (fun _ => (OK, false, zone_cap_ex))
    (fun _ => OK) (fun _ => OK).

(** The device as its constructor leaves it (zbd_zenfs.cc:219): no zones,
    counters at zero. *)
Definition dev_new : Device :=
  mkDevice [] [] 0 0 0 0 0 0 0 10%float 0 true 0 false OK.

(** Two metadata zones, neither held: the first still has live data, the
    second is empty. *)
Definition meta_used_ex : Zone :=
  mkZone false 0 zone_cap_ex 8192 WLTH_NOT_SET 4096 (zone_cap_ex - 8192) 2.

Definition meta_free_ex : Zone :=
  mkZone false zone_size_ex zone_cap_ex zone_size_ex WLTH_NOT_SET 0 zone_cap_ex 2.

Definition dev_meta_ex : Device :=
  mkDevice [meta_used_ex; meta_free_ex] [] 0 0 12 12 0 4 0 10%float 0 true 0
           false OK.

(** Three open io zones with live data and room left, all written with
    short-lived data; the first two are idle, the third is held by another
    writer. *)
Definition open_zone_ex (k : Z) : Zone :=
  mkZone false (k * zone_size_ex) zone_cap_ex (k * zone_size_ex + 8192)
         WLTH_SHORT 8192 (zone_cap_ex - 8192) 1.

Definition dev_open_ex : Device :=
  mkDevice [] [open_zone_ex 3; open_zone_ex 4; set_busy true (open_zone_ex 5)]
           3 3 12 12 0 3 0 10%float 0 true 0 false OK.

(** One empty io zone, not held, on a device whose active tokens are all
    taken; [rogue_all] is an environment in which another thread clears the
    busy flag of whatever zone this thread holds. *)
Definition dev_migrate_ex : Device :=
  mkDevice [] [mkZone false (3 * zone_size_ex) zone_cap_ex (3 * zone_size_ex)
                      WLTH_NOT_SET 0 zone_cap_ex 7]
           2 12 12 12 0 7 0 10%float 0 true 0 false OK.

Definition rogue_all : ZoneRef -> bool := fun _ => true.

(** ** Reading, lookups and reclaiming *)

(** [ZonedBlockDevice::Read] (zbd_zenfs.cc:1061).  [answers] lists what the
    successive calls of [zbd_be_->Read] return, each with whether [errno]
    is [EINTR] after it.  The result is [None] when the list runs out
    while the loop is still asking the backend for more.  [r] is the last
    answer seen, [ret] the bytes read so far. *)
Fixpoint Read_loop (answers : list (Z * bool)) (left ret r : Z) : option Z :=
  if left =? 0 then Some (if r <? 0 then r else ret)
  else
    match answers with
    | [] => None
    | (r', eintr) :: answers' =>
        if r' <=? 0 then
          if (r' =? -1) && eintr then Read_loop answers' left ret r'
          else Some (if r' <? 0 then r' else ret)
        else Read_loop answers' (s32 (left - r')) (s32 (ret + r')) r'
    end.

Definition Read (answers : list (Z * bool)) (n : Z) : option Z :=
  Read_loop answers n 0 (-1).

(** [Zone::GetZoneNr] (zbd_zenfs.cc:72). *)
Definition GetZoneNr (be : Backend) (z : Zone) : Z :=
  start_ z / be_ZoneSize be.

(** [ZonedBlockDevice::GetIOZone] (zbd_zenfs.cc:212): the first io zone
    whose span holds [offset]. *)
Fixpoint GetIOZone_from (be : Backend) (offset : Z) (zones : list Zone) (k : nat)
    : option nat :=
  match zones with
  | [] => None
  | z :: zones' =>
      if (start_ z <=? offset) && (offset <? u64 (start_ z + be_ZoneSize be))
      then Some k
      else GetIOZone_from be offset zones' (S k)
  end.

Definition GetIOZone (be : Backend) (offset : Z) (d : Device) : option nat :=
  GetIOZone_from be offset (io_zones d) 0.

(** [GetIOZonesResetCountArray] (zbd_zenfs.cc:243): the entries the loop
    fills, one per io zone.  The array itself has [GetNrIOZones ()]
    entries; what lies past the io zones is not initialised. *)
Definition GetIOZonesResetCountArray (d : Device) : list Z :=
  reset_count_ <$> io_zones d.

(** [SetIOZonesResetCount] (zbd_zenfs.cc:253).  A zone past the end of the
    array is left alone here; the code reads past the array there. *)
Definition SetIOZonesResetCount (reset_count : list Z) (d : Device) : Device :=
  set_io_zones
    (imap (fun i z =>
             match reset_count !! i with
             | Some v => set_reset_count v z
             | None => z
             end) (io_zones d)) d.

(** [GetFreeSpace], [GetUsedSpace] and [GetReclaimableSpace]
    (zbd_zenfs.cc:504-526). *)
Definition GetFreeSpace (d : Device) : Z :=
  fold_left (fun free z => u64 (free + capacity_ z)) (io_zones d) 0.

Definition GetUsedSpace (d : Device) : Z :=
  fold_left (fun used z => u64 (used + used_capacity_ z)) (io_zones d) 0.

Definition GetReclaimableSpace (d : Device) : Z :=
  fold_left
    (fun reclaimable z =>
       if IsFull z
       then u64 (reclaimable + u64 (max_capacity_ z - used_capacity_ z))
       else reclaimable)
    (io_zones d) 0.

(** [GetLeastResetCountZone] (zbd_zenfs.cc:296).  No busy flag is taken.
    [all] is the vector, for the look at the zone chosen so far; the
    accumulator is [least_reset_count_zone] and its score. *)
Definition least_reset_step (all : list Zone) (k : nat) (z : Zone)
    (acc : option nat * Z) : option nat * Z :=
  if IsEmpty z then acc
  else if IsUsed z then
    if bool_decide (lifetime_ z = WLTH_EXTREME) then
      let reclaimable_space := GetZoneReclaimableSpace z in
      if negb (reclaimable_space =? 0) then
        let zone_score :=
          u64 (reset_count_ z * max_capacity_ z) / reclaimable_space in
        let better :=
          match fst acc with
          | None => true
          | Some a =>
              (zone_score <? snd acc)
              || ((zone_score =? snd acc)
                  && (match all !! a with
                      | Some za => GetZoneReclaimableSpace za
                      | None => 0
                      end <? reclaimable_space))
          end in
        if better then (Some k, zone_score) else acc
      else acc
    else acc
  else acc.

Fixpoint least_reset_scan (all zones : list Zone) (k : nat)
    (acc : option nat * Z) : option nat * Z :=
  match zones with
  | [] => acc
  | z :: zones' => least_reset_scan all zones' (S k) (least_reset_step all k z acc)
  end.

Definition GetLeastResetCountZone (d : Device) : IOStatus * option nat :=
  match fst (least_reset_scan (io_zones d) (io_zones d) 0 (None, 0)) with
  | None => (NotFound, None)
  | Some a => (OK, Some a)
  end.

Section Reclaim.

Variable be : Backend.
Variable rogue : ZoneRef -> bool.

(** [ResetUnusedIOZones] (zbd_zenfs.cc:782).  [None]: the process dies in
    [Zone::Reset]. *)
Definition ResetUnusedIOZones_body (i : nat) (d : Device)
    : Step Device (option (IOStatus * Device)) :=
  let '(acquired, d) := zone_Acquire (IOZone i) d in
  if acquired then
    match io_zones d !! i with
    | None => Continue d
    | Some z =>
        if negb (IsEmpty z) && negb (IsUsed z) then
          let full := IsFull z in
          match Zone_Reset be (IOZone i) d with
          | None => Return None
          | Some (reset_status, d) =>
              let '(release_status, d) :=
                zone_CheckRelease rogue (IOZone i) d in
              if negb (ok reset_status) then Return (Some (reset_status, d))
              else if negb (ok release_status)
              then Return (Some (release_status, d))
              else Continue (if negb full then PutActiveIOZoneToken d else d)
          end
        else
          let '(release_status, d) := zone_CheckRelease rogue (IOZone i) d in
          if negb (ok release_status) then Return (Some (release_status, d))
          else Continue d
    end
  else Continue d.

Definition ResetUnusedIOZones (d : Device) : option (IOStatus * Device) :=
  match for_zones ResetUnusedIOZones_body (indices (io_zones d)) d with
  | inr r => r
  | inl d => Some (OK, d)
  end.

End Reclaim.

(** The sort key of [GetLeastResetCountZone]: the score of a zone, and its
    reclaimable space. *)
Definition least_reset_eligible (z : Zone) : bool :=
  negb (IsEmpty z) && IsUsed z && bool_decide (lifetime_ z = WLTH_EXTREME)
  && negb (GetZoneReclaimableSpace z =? 0).

Definition least_reset_score (z : Zone) : Z :=
  u64 (reset_count_ z * max_capacity_ z) / GetZoneReclaimableSpace z.

(** [z1] goes before [z2]: a smaller score, or the same score and more
    reclaimable space. *)
Definition least_reset_before (z1 z2 : Zone) : Prop :=
  least_reset_score z1 < least_reset_score z2 \/
  (least_reset_score z1 = least_reset_score z2 /\
   GetZoneReclaimableSpace z2 < GetZoneReclaimableSpace z1).

(** An answer of the backend that [Read] retries: [-1] with [errno] at
    [EINTR]. *)
Definition interrupted (a : Z * bool) : bool := (fst a =? -1) && snd a.

(** The backend never reports more bytes read than it was asked for:
    [left] is the request of the first call. *)
(** An answer of the backend that moves the read on or is retried: it
    reports bytes, or it is interrupted. *)
Definition read_goes_on (a : Z * bool) : Prop :=
  0 < fst a \/ interrupted a = true.

(** The bytes a run of answers reports. *)
Definition bytes_read (answers : list (Z * bool)) : Z :=
  fold_right (fun a acc => (if 0 <? fst a then fst a else 0) + acc) 0 answers.

Fixpoint short_reads (left : Z) (answers : list (Z * bool)) : Prop :=
  match answers with
  | [] => True
  | a :: answers' =>
      fst a <= left /\
      short_reads (if 0 <? fst a then left - fst a else left) answers'
  end.

(** The zone starts at a multiple of the zone size and ends inside the
    address space. *)
Definition zone_aligned (be : Backend) (z : Zone) : Prop :=
  (exists k, 0 <= k /\ start_ z = k * be_ZoneSize be) /\
  start_ z + be_ZoneSize be < 2 ^ 64.

(** [least] with its score is the choice of [GetLeastResetCountZone] among
    the first [k] zones of [zones]. *)
Definition is_least_reset (zones : list Zone) (k : nat) (acc : option nat * Z)
    : Prop :=
  match fst acc with
  | None =>
      forall j zj, (j < k)%nat -> zones !! j = Some zj ->
        least_reset_eligible zj = false
  | Some a =>
      (a < k)%nat /\
      exists za,
        zones !! a = Some za /\
        least_reset_eligible za = true /\
        snd acc = least_reset_score za /\
        forall j zj, (j < k)%nat -> zones !! j = Some zj ->
          least_reset_eligible zj = true ->
          ~ least_reset_before zj za /\
          ((j < a)%nat -> least_reset_before za zj)
  end.

(** A zone of the listing that [Open] turns into a [Zone]: sequential-write
    required and not offline. *)
Definition zd_usable (zd : ZoneDesc) : bool :=
  zd_swr zd && negb (zd_offline zd).

(** A zone of the listing whose write pointer lies in its capacity, and
    whose capacity lies in the address space. *)
Definition zd_sane (zd : ZoneDesc) : Prop :=
  0 <= zd_start zd /\ zd_start zd <= zd_wp zd /\
  zd_wp zd <= zd_start zd + zd_max_capacity zd /\
  zd_start zd + zd_max_capacity zd < 2 ^ 64.

(** What [AllocateMetaZone] leaves alone: the tokens, the io zones and the
    number of metadata zones. *)
Definition meta_frame (d d' : Device) : Prop :=
  tokens_kept d d' /\ io_zones d' = io_zones d /\
  length (meta_zones d') = length (meta_zones d).

(** What the scans over the io zones leave alone: the open-token count and
    its limit, the metadata zones, the migration flag, the deferred status
    and the number of io zones. *)
Definition open_frame (d d' : Device) : Prop :=
  open_io_zones_ d' = open_io_zones_ d /\
  max_nr_open_io_zones_ d' = max_nr_open_io_zones_ d /\
  meta_zones d' = meta_zones d /\
  migrating_ d' = migrating_ d /\
  zone_deferred_status_ d' = zone_deferred_status_ d /\
  length (io_zones d') = length (io_zones d).

(** One if a zone is handed out through [out_zone], zero for null or
    nothing. *)
Definition handed_out (out : option (option nat)) : Z :=
  match out with
  | Some (Some _) => 1
  | _ => 0
  end.

(** The device [d1] is [d0] with one more open token taken, up to what the
    scans do to the io zones and the active tokens. *)
Definition open_token_held (d0 d1 : Device) : Prop :=
  open_io_zones_ d1 = open_io_zones_ d0 + 1 /\
  max_nr_open_io_zones_ d1 = max_nr_open_io_zones_ d0 /\
  meta_zones d1 = meta_zones d0 /\
  migrating_ d1 = migrating_ d0 /\
  zone_deferred_status_ d1 = zone_deferred_status_ d0 /\
  length (io_zones d1) = length (io_zones d0).

(** What every return of [AllocateIOZone] satisfies, [d0] being the device
    at the entry. *)
Definition AllocateIOZone_post (d0 : Device)
    (r : IOStatus * option (option nat) * Device) : Prop :=
  let '(st, out, d') := r in
  open_io_zones_ d' = open_io_zones_ d0 + handed_out out /\
  (out = None <-> st <> OK) /\
  meta_zones d' = meta_zones d0 /\
  migrating_ d' = migrating_ d0 /\
  zone_deferred_status_ d' = zone_deferred_status_ d0 /\
  length (io_zones d') = length (io_zones d0).

(** ** Reclaiming and finishing zones *)

(** A zone [ResetUnusedIOZones] resets: its busy flag can be taken, it has
    been written to and it holds no live data. *)
Definition reclaimable (z : Zone) : bool :=
  negb (busy_ z) && negb (IsEmpty z) && negb (IsUsed z).

(** The status of the backend's reset of the zone [z]. *)
Definition reset_answer (be : Backend) (z : Zone) : IOStatus :=
  fst (fst (be_Reset be (start_ z))).

(** What a successful [ResetUnusedIOZones] makes of the zone [z]. *)
Definition reclaim_zone (be : Backend) (z : Zone) : Zone :=
  if reclaimable z then
    let '(_, offline, max_capacity) := be_Reset be (start_ z) in
    reset_zone offline max_capacity z
  else z.

(** The vector [zones] after its first [k] zones have gone through [f]. *)
Definition scanned (f : Zone -> Zone) (k : nat) (zones : list Zone)
    : list Zone :=
  (f <$> take k zones) ++ drop k zones.

(** The number of zones of [zones] that satisfy [p]. *)
Definition count_zones (p : Zone -> bool) (zones : list Zone) : Z :=
  Z.of_nat (length (List.filter p zones)).

(** The io zones whose busy flag is free are released without a failure,
    and the backend resets those of them that are reclaimable. *)
Definition reclaim_succeeds (be : Backend) (rogue : ZoneRef -> bool)
    (j : nat) (z : Zone) : Prop :=
  rogue (IOZone j) = false /\
  (reclaimable z = true -> reset_answer be z = OK).

(** Three io zones: one written and without live data, one with live data,
    and one without live data that another thread holds. *)
Definition garbage_zone_ex (k : Z) : Zone :=
  mkZone false (k * zone_size_ex) zone_cap_ex (k * zone_size_ex + 8192)
         WLTH_SHORT 0 (zone_cap_ex - 8192) 1.

Definition dev_garbage_ex : Device :=
  mkDevice []
    [garbage_zone_ex 3; open_zone_ex 4; set_busy true (garbage_zone_ex 5)]
    0 3 12 12 0 3 0 10%float 0 true 0 false OK.

(** A zone [ApplyFinishThreshold] finishes: its busy flag can be taken, it
    is neither empty nor full, and less than [threshold] percent of its
    capacity are left. *)
Definition finishable (threshold : Z) (z : Zone) : bool :=
  negb (busy_ z) && negb (IsEmpty z || IsFull z)
  && (capacity_ z <? u64 (max_capacity_ z * threshold) / 100).

(** The zone [z] after a successful [Zone::Finish]. *)
Definition finished_zone (be : Backend) (z : Zone) : Zone :=
  set_wp (u64 (start_ z + be_ZoneSize be)) (set_capacity 0 z).

(** What a successful [ApplyFinishThreshold] makes of the zone [z]. *)
Definition finish_zone (be : Backend) (threshold : Z) (z : Zone) : Zone :=
  if finishable threshold z then finished_zone be z else z.

(** The io zone [z] at position [j] is released without a failure, and the
    backend finishes it if it is finishable. *)
Definition finish_succeeds (be : Backend) (rogue : ZoneRef -> bool)
    (threshold : Z) (j : nat) (z : Zone) : Prop :=
  rogue (IOZone j) = false /\
  (finishable threshold z = true -> be_Finish be (start_ z) = OK).

(** The first scan of [GetMigrateTargetZone] ended with an empty zone in
    hand. *)
Definition empty_target
    (r : (Device * option nat) + IOStatus * Device) : bool :=
  match r with
  | inl (_, Some _) => true
  | _ => false
  end.

(** ** The victim of [FinishCheapestIOZone] *)

(** A zone [FinishCheapestIOZone] may finish: its busy flag can be taken
    and it is neither empty nor full. *)
Definition finish_candidate (z : Zone) : bool :=
  negb (busy_ z) && negb (IsEmpty z || IsFull z).

Definition capacity_at (zones : list Zone) (v : nat) : Z :=
  match zones !! v with
  | Some zv => capacity_ zv
  | None => 0
  end.

(** The choice of [FinishCheapestIOZone] as a pass over the zones alone:
    [k] is the position of the head of [zones], [victim] the zone chosen so
    far. *)
Definition cheapest_step (all : list Zone) (k : nat) (z : Zone)
    (victim : option nat) : option nat :=
  if finish_candidate z then
    match victim with
    | None => Some k
    | Some v => if capacity_ z <? capacity_at all v then Some k else Some v
    end
  else victim.

Fixpoint cheapest_scan (all zones : list Zone) (k : nat)
    (victim : option nat) : option nat :=
  match zones with
  | [] => victim
  | z :: zones' => cheapest_scan all zones' (S k) (cheapest_step all k z victim)
  end.

(** [victim] is the cheapest zone to finish among the first [k] of
    [zones]: a candidate with the least capacity left, the first of
    those. *)
Definition is_cheapest (zones : list Zone) (k : nat) (victim : option nat)
    : Prop :=
  match victim with
  | None =>
      forall j z, (j < k)%nat -> zones !! j = Some z ->
        finish_candidate z = false
  | Some v =>
      (v < k)%nat /\
      exists zv,
        zones !! v = Some zv /\ finish_candidate zv = true /\
        forall j z, (j < k)%nat -> zones !! j = Some z ->
          finish_candidate z = true ->
          capacity_ zv <= capacity_ z /\
          ((j < v)%nat -> capacity_ zv < capacity_ z)
  end.

(** ** The choice of [AllocateEmptyZone] *)

(** A zone [AllocateEmptyZone] may hand out: its busy flag can be taken and
    it is empty. *)
Definition empty_candidate (z : Zone) : bool := negb (busy_ z) && IsEmpty z.

(** [z1] suits better than [z2]: more resets when worn zones are preferred
    (files with a hint below [SHORT]), fewer otherwise. *)
Definition suits_better (prefer_worn : bool) (z1 z2 : Zone) : bool :=
  if prefer_worn then reset_count_ z2 <? reset_count_ z1
  else reset_count_ z1 <? reset_count_ z2.

(** The zone at hand replaces the zone kept so far. *)
Definition empty_replaces (prefer_worn : bool) (all : list Zone)
    (acc : option nat) (z : Zone) : bool :=
  match acc with
  | None => true
  | Some a =>
      let kept :=
        match all !! a with
        | Some za => reset_count_ za
        | None => 0
        end in
      if prefer_worn then kept <? reset_count_ z else reset_count_ z <? kept
  end.

(** The choice of [AllocateEmptyZone] as a pass over the zones alone; the
    pass for files with a hint of [SHORT] or above stops at a zone that was
    never reset. *)
Fixpoint empty_scan (prefer_worn : bool) (all zones : list Zone) (k : nat)
    (acc : option nat) : option nat :=
  match zones with
  | [] => acc
  | z :: zones' =>
      if empty_candidate z && empty_replaces prefer_worn all acc z then
        if negb prefer_worn && (reset_count_ z =? 0) then Some k
        else empty_scan prefer_worn all zones' (S k) (Some k)
      else empty_scan prefer_worn all zones' (S k) acc
  end.

(** [acc] is the choice among the first [k] of [zones]: no candidate there
    suits better, and every candidate before it suits worse. *)
Definition is_empty_choice_upto (prefer_worn : bool) (zones : list Zone)
    (k : nat) (acc : option nat) : Prop :=
  match acc with
  | None =>
      forall j z, (j < k)%nat -> zones !! j = Some z ->
        empty_candidate z = false
  | Some a =>
      (a < k)%nat /\
      exists za,
        zones !! a = Some za /\ empty_candidate za = true /\
        forall j z, (j < k)%nat -> zones !! j = Some z ->
          empty_candidate z = true ->
          suits_better prefer_worn z za = false /\
          ((j < a)%nat -> suits_better prefer_worn za z = true)
  end.

(** [zone_out] is the choice of [AllocateEmptyZone]: the choice among all
    zones, or, when fresh zones are preferred, a zone never reset and the
    choice among the zones up to it. *)
Definition is_empty_choice (prefer_worn : bool) (zones : list Zone)
    (zone_out : option nat) : Prop :=
  is_empty_choice_upto prefer_worn zones (length zones) zone_out \/
  (prefer_worn = false /\
   exists a za, zone_out = Some a /\ zones !! a = Some za /\
                reset_count_ za = 0 /\
                is_empty_choice_upto prefer_worn zones (S a) zone_out).

(** ** The idle detector *)

(** Modelled from the spec: the fields [JudgeQpsTrend] works on are
    declared in zbd_zenfs.h, which is not part of the sources at hand.  The
    spec gives them as request rates and counters of verdicts; they are
    taken as unsigned 64-bit like the samples ([uint64_t] locals) they are
    compared with. *)
Record QpsState : Type := mkQpsState {
  window_qps_write_max_ : Z;
  window_qps_read_max_ : Z;
  idle_qps_write_threshold_ : Z;
  idle_qps_read_threshold_ : Z;
  idle_qps_fail_count_ : Z;
  idle_qps_successive_count_ : Z
}.

(** Lines 353-363: one window maximum takes the larger sample if that is
    above it. *)
Definition window_max (window_qps_max qps1 qps2 : Z) : Z :=
  if qps1 <? qps2 then
    if window_qps_max <? qps2 then qps2 else window_qps_max
  else
    if window_qps_max <? qps1 then qps1 else window_qps_max.

(** Lines 371-376: a threshold below the window maximum moves half the way
    to it. *)
Definition raise_threshold (idle_qps_threshold window_qps_max : Z) : Z :=
  if idle_qps_threshold <? window_qps_max
  then u64 (idle_qps_threshold + window_qps_max) / 2
  else idle_qps_threshold.

(** Lines 390-412: the verdict, from the samples and the thresholds. *)
Definition qps_verdict (qps_write1 qps_read1 qps_write2 qps_read2 : Z)
    (write_threshold read_threshold : Z) : Z :=
  if (qps_write1 <? write_threshold) && (qps_write2 <? write_threshold) then
    if (qps_read1 <? read_threshold) && (qps_read2 <? read_threshold) then 1
    else if qps_read1 <? qps_read2 then 0
    else if u64 (read_threshold * 5) <? u64 (100 * u64 (qps_read1 - qps_read2))
    then 1
    else 0
  else
    if qps_write1 <? qps_write2 then 0
    else if (qps_read1 <? read_threshold) && (qps_read2 <? read_threshold) then
      if u64 (write_threshold * 5) <? u64 (100 * u64 (qps_write1 - qps_write2))
      then 1
      else 0
    else 0.

(** [JudgeQpsTrend] (zbd_zenfs.cc:341).  The four samples are what the
    meter reports after each of the two 100 ms windows. *)
Definition JudgeQpsTrend (qps_write1 qps_read1 qps_write2 qps_read2 : Z)
    (q : QpsState) : Z * QpsState :=
  let wmax := window_max (window_qps_write_max_ q) qps_write1 qps_write2 in
  let rmax := window_max (window_qps_read_max_ q) qps_read1 qps_read2 in
  let '(wmax, rmax, wthr, rthr, fail_count) :=
    if 5 <=? idle_qps_fail_count_ q then
      (0, 0,
       raise_threshold (idle_qps_write_threshold_ q) wmax,
       raise_threshold (idle_qps_read_threshold_ q) rmax,
       0)
    else
      (wmax, rmax, idle_qps_write_threshold_ q, idle_qps_read_threshold_ q,
       idle_qps_fail_count_ q) in
  let '(wthr, rthr, successive_count) :=
    if negb (wthr =? 76) || negb (rthr =? 5000) then
      if 5 <=? idle_qps_successive_count_ q then (76, 5000, 0)
      else (wthr, rthr, idle_qps_successive_count_ q)
    else (wthr, rthr, idle_qps_successive_count_ q) in
  (qps_verdict qps_write1 qps_read1 qps_write2 qps_read2 wthr rthr,
   mkQpsState wmax rmax wthr rthr fail_count successive_count).

(** Rates and counters for which the arithmetic of [JudgeQpsTrend] is
    exact whatever the width of the fields: they fit 31 bits. *)
Definition qps_small (x : Z) : Prop := 0 <= x < 2 ^ 31.

Definition qps_state_small (q : QpsState) : Prop :=
  qps_small (window_qps_write_max_ q) /\ qps_small (window_qps_read_max_ q) /\
  qps_small (idle_qps_write_threshold_ q) /\
  qps_small (idle_qps_read_threshold_ q) /\
  qps_small (idle_qps_fail_count_ q) /\
  qps_small (idle_qps_successive_count_ q).

(** A state of the detector after five failed verdicts, with thresholds
    raised before. *)
Definition qps_ex : QpsState := mkQpsState 300 9000 100 6000 5 2.

(** A rate is calm: below the threshold in both windows, or falling by
    more than five percent of the threshold. *)
Definition calm (qps1 qps2 threshold : Z) : Prop :=
  (qps1 < threshold /\ qps2 < threshold) \/
  (qps2 <= qps1 /\ 5 * threshold < 100 * (qps1 - qps2)).

(** ** Space accounting *)

(** The sum of [f] over the zones. *)
Definition sum_over (f : Zone -> Z) (zones : list Zone) : Z :=
  foldr (fun z s => f z + s) 0 zones.

(** A zone whose counters are consistent: a full zone holds at most its
    capacity in live data; in any other zone the capacity left is what the
    write pointer leaves, and the live data lies in what has been
    written. *)
Definition space_ok (z : Zone) : Prop :=
  0 <= used_capacity_ z /\
  if IsFull z then used_capacity_ z <= max_capacity_ z
  else 0 <= capacity_ z /\
       capacity_ z = max_capacity_ z - (wp_ z - start_ z) /\
       used_capacity_ z <= wp_ z - start_ z.

(** Four io zones: empty, partly written with garbage, full with live
    data, and finished early. *)
Definition dev_space_ex : Device :=
  mkDevice []
    [mkZone false (3 * zone_size_ex) zone_cap_ex (3 * zone_size_ex)
            WLTH_NOT_SET 0 zone_cap_ex 0;
     mkZone false (4 * zone_size_ex) zone_cap_ex (4 * zone_size_ex + 12288)
            WLTH_SHORT 4096 (zone_cap_ex - 12288) 1;
     mkZone false (5 * zone_size_ex) zone_cap_ex (5 * zone_size_ex + zone_cap_ex)
            WLTH_LONG 1000000 0 2;
     mkZone false (6 * zone_size_ex) zone_cap_ex (7 * zone_size_ex)
            WLTH_MEDIUM 8192 0 2]
    0 1 12 12 0 5 0 10%float 0 true 0 false OK.

(** The device [dev_open_ex] with every active token taken. *)
Definition dev_open_full_ex : Device := set_active_io_zones 12 dev_open_ex.

(** One full io zone with live data, not held, on a device with free
    tokens; [rogue_in_second_pass] is an environment that leaves the first
    pass alone and clears every busy flag this thread holds in the later
    ones. *)
Definition dev_full_ex : Device :=
  mkDevice []
    [mkZone false (3 * zone_size_ex) zone_cap_ex (3 * zone_size_ex + zone_cap_ex)
            WLTH_SHORT 4096 0 1]
    0 1 12 12 0 1 0 10%float 0 true 0 false OK.

Definition rogue_in_second_pass : nat -> ZoneRef -> bool :=
  fun k =>
    match k with
    | O => quiet
    | S _ => rogue_all
    end.

(** A device that is not migrating, with tokens of both kinds left, a
    written io zone and an empty one behind it. *)
Definition dev_migrate_free_ex : Device :=
  mkDevice [] [mkZone false (3 * zone_size_ex) zone_cap_ex
                      (3 * zone_size_ex + 4096) WLTH_SHORT 4096
                      (zone_cap_ex - 4096) 3;
               mkZone false (4 * zone_size_ex) zone_cap_ex (4 * zone_size_ex)
                      WLTH_NOT_SET 0 zone_cap_ex 7]
           2 3 12 12 0 7 0 10%float 0 true 0 false OK.

(** The device [dev_meta_ex] with an io zone. *)
Definition dev_meta_io_ex : Device :=
  mkDevice [meta_used_ex; meta_free_ex] [zone_ex] 0 0 12 12 0 4 0 10%float 0
           true 0 false OK.

(** A device on which the wear-levelling trigger fires and damps the
    threshold: 90 resets against 40 zones, the last check at 40, two
    triggers counted, and two io zones with 5 and 9 resets (standard
    deviation 2). *)
Definition dev_wl_ex : Device :=
  mkDevice [] [zone_ex;
               mkZone false (4 * zone_size_ex) zone_cap_ex (4 * zone_size_ex)
                      WLTH_NOT_SET 0 zone_cap_ex 9]
           1 1 12 12 0 90 40 10%float 2 true 0 false OK.

(** * Properties *)

(** ** Lifetime distance *)

Lemma GetLifeTimeDiff_le (zone_lifetime file_lifetime : WriteLifeTimeHint) :
  0 <= GetLifeTimeDiff zone_lifetime file_lifetime <= LIFETIME_DIFF_NOT_GOOD.
Proof. destruct zone_lifetime, file_lifetime; vm_compute; split; discriminate. Qed.

(** C9.  [GetLifeTimeDiff] is the table of the specification.  Every hint
    is at most [WLTH_EXTREME].  For a file hint [NOT_SET] or [NONE] the diff
    is 0 when the zone hint equals it and 100 otherwise; for the other file
    hints it is 50 on equal hints, [zone - file] when the zone hint is the
    larger one, and 100 when it is the smaller one. *)
Theorem GetLifeTimeDiff_table (zone_lifetime file_lifetime : WriteLifeTimeHint) :
  hint_val file_lifetime <= hint_val WLTH_EXTREME /\
  (file_lifetime = WLTH_NOT_SET \/ file_lifetime = WLTH_NONE ->
     (zone_lifetime = file_lifetime ->
        GetLifeTimeDiff zone_lifetime file_lifetime = 0) /\
     (zone_lifetime <> file_lifetime ->
        GetLifeTimeDiff zone_lifetime file_lifetime = 100)) /\
  (file_lifetime <> WLTH_NOT_SET /\ file_lifetime <> WLTH_NONE ->
     (zone_lifetime = file_lifetime ->
        GetLifeTimeDiff zone_lifetime file_lifetime = 50) /\
     (hint_val zone_lifetime > hint_val file_lifetime ->
        GetLifeTimeDiff zone_lifetime file_lifetime =
        hint_val zone_lifetime - hint_val file_lifetime) /\
     (hint_val zone_lifetime < hint_val file_lifetime ->
        GetLifeTimeDiff zone_lifetime file_lifetime = 100)).
Proof.
  destruct zone_lifetime, file_lifetime; vm_compute;
    repeat split; intros; try reflexivity; try congruence;
    repeat match goal with
           | H : _ \/ _ |- _ => destruct H
           | H : _ /\ _ |- _ => destruct H
           end; congruence.
Qed.

(** ** Append *)

Lemma Append_loop_status (rets : list Z) : forall left z st z',
  Append_loop rets left z = Some (st, z') ->
  st = OK \/ (st = IOError /\ Exists (fun ret => ret < 0) rets).
Proof.
  induction rets as [|ret rets IH]; intros left z st z' H; simpl in H.
  - destruct (left =? 0); [left|]; congruence.
  - destruct (left =? 0); [left; congruence|].
    destruct (ret <? 0) eqn:Hret.
    + right. split; [congruence|]. apply Exists_cons_hd. lia.
    + apply IH in H as [->|[-> Hex]]; [now left|right].
      split; [reflexivity|]. now apply Exists_cons_tl.
Qed.

Lemma Append_loop_zero (rets : list Z) (z : Zone) :
  Append_loop rets 0 z = Some (OK, z).
Proof. destruct rets; reflexivity. Qed.

(** A backend that writes the whole request at once ends the loop after one
    call: with enough answers the loop returns. *)
Lemma Append_loop_one_write (rets : list Z) (left : Z) (z : Zone) :
  0 < left < 2 ^ 32 ->
  Append_loop (left :: rets) left z =
  Some (OK, set_capacity (u64 (capacity_ z - left)) (set_wp (u64 (wp_ z + left)) z)).
Proof.
  intros Hl. simpl.
  destruct (left =? 0) eqn:E; [lia|].
  destruct (left <? 0) eqn:E'; [lia|].
  replace (u32 (left - left)) with 0 by (unfold u32; now rewrite Z.sub_diag).
  apply Append_loop_zero.
Qed.

(** C8.  [Zone::Append] answers [NoSpace] exactly when the size exceeds the
    remaining capacity, and then leaves the zone as it was; a zero-length
    append answers [OK] and leaves the zone as it was; with a backend that
    never fails, the append fails if and only if the size exceeds the
    remaining capacity. *)
Theorem Zone_Append_NoSpace_iff (rets : list Z) (z : Zone) (size : Z)
    (Hcap : 0 <= capacity_ z) :
  (capacity_ z < size -> Zone_Append rets z size = Some (NoSpace, z)) /\
  Zone_Append rets z 0 = Some (OK, z) /\
  (forall st z', Zone_Append rets z size = Some (st, z') ->
     (st = NoSpace <-> capacity_ z < size) /\
     (Forall (fun ret => 0 <= ret) rets -> (st <> OK <-> capacity_ z < size))).
Proof.
  unfold Zone_Append. repeat split.
  - intros H. destruct (capacity_ z <? size) eqn:E; [reflexivity|lia].
  - destruct (capacity_ z <? 0) eqn:E; [lia|]. apply Append_loop_zero.
  - intros ->. destruct (capacity_ z <? size) eqn:E; [lia|].
    apply Append_loop_status in H as [?|[? _]]; discriminate.
  - intros Hlt. destruct (capacity_ z <? size) eqn:E; [congruence|lia].
  - intros Hst. destruct (capacity_ z <? size) eqn:E; [lia|].
    apply Append_loop_status in H as [?|[_ Hex]]; [contradiction|].
    apply Exists_exists in Hex as (ret & Hin & Hneg).
    rewrite Forall_forall in H0. apply H0 in Hin. lia.
  - intros Hlt Hst. destruct (capacity_ z <? size) eqn:E; [congruence|lia].
Qed.

Lemma Zone_Append_NoSpace_iff_witness :
  let z := mkZone true 0 8192 4096 WLTH_SHORT 0 4096 0 in
  Zone_Append [4096] z 8192 = Some (NoSpace, z) /\
  Zone_Append [4096] z 0 = Some (OK, z).
Proof.
  intros z.
  destruct (Zone_Append_NoSpace_iff [4096] z 8192) as (H1 & H2 & _).
  - simpl. lia.
  - split; [apply H1; simpl; lia | exact H2].
Defined.

(** ** Machine-integer helpers *)

Lemma u64_small (x : Z) : 0 <= x < 2 ^ 64 -> u64 x = x.
Proof. intros H. unfold u64. now apply Z.mod_small. Qed.

Lemma u32_small (x : Z) : 0 <= x < 2 ^ 32 -> u32 x = x.
Proof. intros H. unfold u32. now apply Z.mod_small. Qed.

Lemma u32_range (x : Z) : 0 <= u32 x < 2 ^ 32.
Proof. unfold u32. apply Z.mod_pos_bound. lia. Qed.

(** ** The zone store *)

Lemma zone_at_set_zone (r : ZoneRef) (z z' : Zone) (d : Device) :
  zone_at d r = Some z -> zone_at (set_zone r z' d) r = Some z'.
Proof.
  destruct r as [i|i]; simpl; intros H;
    apply list_lookup_insert_eq; eapply lookup_lt_Some; eassumption.
Qed.

Lemma zone_at_set_total_reset_count (v : Z) (d : Device) (r : ZoneRef) :
  zone_at (set_total_reset_count v d) r = zone_at d r.
Proof. destruct r; reflexivity. Qed.

(** Take the conditions of [wl_trigger] apart. *)
Ltac wl_trigger_cases :=
  unfold wl_trigger;
  repeat match goal with
         | |- context [if ?c then _ else _] => destruct c
         | |- context [match GetResetCountStdDev ?d with _ => _ end] =>
             destruct (GetResetCountStdDev d)
         end.

Lemma wl_trigger_zones (be : Backend) (d d' : Device) :
  wl_trigger be d = Some d' ->
  meta_zones d' = meta_zones d /\
  io_zones d' = io_zones d /\
  total_reset_count_ d' = total_reset_count_ d.
Proof.
  revert d'. wl_trigger_cases; intros d' H; try discriminate;
    injection H as <-; simpl; auto.
Qed.

Lemma zone_at_wl_trigger (be : Backend) (d d' : Device) (r : ZoneRef) :
  wl_trigger be d = Some d' -> zone_at d' r = zone_at d r.
Proof.
  intros H. destruct (wl_trigger_zones be d d' H) as (Hm & Hi & _).
  destruct r; simpl; congruence.
Qed.

(** An [int] converted to [unsigned] is the value it was stored from,
    modulo [2^32]. *)
Lemma u32_s32 (x : Z) : u32 (s32 x) = u32 x.
Proof.
  unfold u32, s32.
  change (2 ^ 32) with 4294967296. change (2 ^ 31) with 2147483648.
  Z.div_mod_to_equations. lia.
Qed.

Lemma GetResetCountStdDev_defined (d : Device) :
  io_zones_counted d -> is_Some (GetResetCountStdDev d).
Proof.
  intros [Hne Hlt]. unfold GetResetCountStdDev.
  assert (Hpos : 0 < Z.of_nat (length (io_zones d))).
  { destruct (io_zones d); [contradiction|]. cbn [length]. lia. }
  rewrite u32_s32, u32_small by lia.
  destruct (Z.eqb_spec (Z.of_nat (length (io_zones d))) 0); [lia|].
  eexists. reflexivity.
Qed.

(** The trigger returns on a device with io zones. *)
Lemma wl_trigger_returns (be : Backend) (d : Device) :
  io_zones_counted d -> is_Some (wl_trigger be d).
Proof.
  intros H. unfold wl_trigger.
  assert (Hs : forall d0, io_zones d0 = io_zones d ->
                 is_Some (GetResetCountStdDev d0)).
  { intros d0 H0. apply GetResetCountStdDev_defined.
    unfold io_zones_counted. rewrite H0. exact H. }
  repeat match goal with
         | |- context [if ?c then _ else _] => destruct c
         end;
    try (eexists; reflexivity);
    match goal with
    | |- context [GetResetCountStdDev ?d0] =>
        destruct (Hs d0) as [sd ->]; [reflexivity|eexists; reflexivity]
    end.
Qed.

(** ** The zone invariant *)

Lemma Append_loop_inv (rets : list Z) : forall left z st z',
  0 <= left < 2 ^ 32 -> left <= capacity_ z ->
  zone_in_range z -> zone_inv z -> short_writes left rets ->
  Append_loop rets left z = Some (st, z') ->
  zone_inv z' /\ zone_in_range z'.
Proof.
  induction rets as [|ret rets IH]; intros left z st z' Hl Hcap Hr Hi Hs H;
    simpl in H.
  - destruct (left =? 0); [|discriminate].
    injection H as <- <-. split; assumption.
  - destruct (left =? 0) eqn:El.
    { injection H as <- <-. split; assumption. }
    destruct (ret <? 0) eqn:Er.
    { injection H as <- <-. split; assumption. }
    apply Z.eqb_neq in El. apply Z.ltb_ge in Er.
    destruct Hs as [Hle Hs]. specialize (Hs Er).
    destruct Hr as (Hr1 & Hr2 & Hr3 & Hr4).
    destruct Hi as [Hi1 Hi2].
    assert (Hc : capacity_ z = max_capacity_ z - (wp_ z - start_ z))
      by (apply Hi2; lia).
    revert H.
    rewrite (u32_small (left - ret)) by lia.
    rewrite (u64_small (capacity_ z - ret)) by lia.
    rewrite (u64_small (wp_ z + ret)) by lia.
    intros H. eapply IH in H; try eassumption; simpl; try lia.
    + repeat split; simpl; lia.
    + split; simpl; lia.
Qed.

(** C5 (amended).  A zone that satisfies the invariant still satisfies it
    after [Append] (whatever the outcome, for a backend that never reports
    more than it was asked to write), after [Reset] and after [Close].  A
    successful [Finish] sets [capacity := 0] and [wp := start + zone_size]:
    the bound [wp <= start + max_capacity] holds afterwards exactly when the
    zone size does not exceed the zone's maximal capacity. *)
Theorem zone_inv_operations (be : Backend) (z : Zone)
    (Hrange : zone_in_range z) (Hinv : zone_inv z) :
  (forall rets size st z',
     0 <= size < 2 ^ 32 -> short_writes size rets ->
     Zone_Append rets z size = Some (st, z') -> zone_inv z') /\
  (forall r d st d',
     zone_at d r = Some z -> (forall s, 0 <= (be_Reset be s).2) ->
     Zone_Reset be r d = Some (st, d') ->
     exists z', zone_at d' r = Some z' /\ zone_inv z') /\
  (forall st z', Zone_Close be z = (st, z') -> z' = z) /\
  (forall z',
     Zone_Finish be z = (OK, z') ->
     capacity_ z' = 0 /\ wp_ z' = u64 (start_ z + be_ZoneSize be) /\
     (0 <= be_ZoneSize be -> start_ z + be_ZoneSize be < 2 ^ 64 ->
      (start_ z' <= wp_ z' <= start_ z' + max_capacity_ z' <->
       be_ZoneSize be <= max_capacity_ z))).
Proof.
  split; [|split; [|split]].
  - intros rets size st z' Hsize Hs H. unfold Zone_Append in H.
    destruct (capacity_ z <? size) eqn:E.
    + injection H as <- <-. exact Hinv.
    + apply Z.ltb_ge in E.
      eapply Append_loop_inv in H; try eassumption. tauto.
  - intros r d st d' Hat Hbe H. unfold Zone_Reset in H. rewrite Hat in H.
    specialize (Hbe (start_ z)).
    destruct (be_Reset be (start_ z)) as [[ios offline] mc]. simpl in Hbe.
    destruct (negb (bool_decide (ios = OK))).
    + injection H as <- <-. eauto.
    + destruct (wl_trigger be _) as [d3|] eqn:Hwl; [|discriminate].
      injection H as <- <-. rewrite (zone_at_wl_trigger _ _ _ _ Hwl).
      eexists. split.
      * rewrite zone_at_set_total_reset_count.
        erewrite zone_at_set_zone by eassumption. reflexivity.
      * destruct Hrange as (? & ? & ? & ?).
        unfold zone_inv, reset_zone. destruct offline; simpl; lia.
  - intros st z' H. unfold Zone_Close in H.
    destruct (negb (IsEmpty z || IsFull z)); [|congruence].
    destruct (negb (bool_decide (be_Close be (start_ z) = OK))); congruence.
  - intros z' H. unfold Zone_Finish in H.
    destruct (negb (bool_decide (be_Finish be (start_ z) = OK))) eqn:E.
    { injection H as H1 <-. rewrite H1 in E. discriminate. }
    injection H as <-. simpl.
    split; [reflexivity|]. split; [reflexivity|].
    intros Hz Hlt. destruct Hrange as (? & ? & ? & ?).
    rewrite u64_small by lia. lia.
Qed.

Lemma zone_at_set_zone_ne (r r' : ZoneRef) (z' : Zone) (d : Device) :
  r <> r' -> zone_at (set_zone r z' d) r' = zone_at d r'.
Proof.
  destruct r as [i|i], r' as [j|j]; simpl; intros H; try reflexivity;
    apply list_lookup_insert_ne; congruence.
Qed.

(** ** Reset *)

(** A successful [Zone::Reset] ends with the trigger, run on the device
    with the zone reset and the total incremented. *)
Lemma Zone_Reset_runs_wl_trigger (be : Backend) (r : ZoneRef) (d : Device)
    (z : Zone) (offline : bool) (max_capacity : Z) :
  zone_at d r = Some z ->
  be_Reset be (start_ z) = (OK, offline, max_capacity) ->
  Zone_Reset be r d =
  (fun d' => (OK, d'))
    <$> wl_trigger be
          (set_total_reset_count (u32 (total_reset_count_ d + 1))
             (set_zone r (reset_zone offline max_capacity z) d)).
Proof.
  intros Hat Hbe. unfold Zone_Reset. rewrite Hat, Hbe. simpl.
  assert (Ht : total_reset_count_ (set_zone r (reset_zone offline max_capacity z) d)
               = total_reset_count_ d) by (destruct r; reflexivity).
  rewrite Ht. destruct (wl_trigger be _); reflexivity.
Qed.

Lemma io_zones_counted_set_zone (r : ZoneRef) (z : Zone) (d : Device) :
  io_zones_counted d -> io_zones_counted (set_zone r z d).
Proof.
  unfold io_zones_counted. destruct r as [i|i]; cbn; [tauto|].
  rewrite length_insert. intros [Hne Hlt]. split; [|exact Hlt].
  destruct (io_zones d); [contradiction|]. destruct i; discriminate.
Qed.

(** C7.  On a zone that is held busy and has no live data, a successful
    [Zone::Reset] leaves [wp = start], [used_capacity = 0] and
    [lifetime = NOT_SET], and increments the zone's [reset_count] and the
    device's [total_reset_count] (32-bit counters); unless the backend
    reports the zone offline it stores the reported maximal capacity in
    [max_capacity] and [capacity], and if offline it sets [capacity := 0].
    The other zones are not touched.  On a backend error nothing changes.
    After a successful backend reset the call returns, with [OK], on
    every device that has io zones; without io zones the process can die
    in the wear-levelling tail, and then nothing is returned. *)
Theorem Zone_Reset_spec (be : Backend) (r : ZoneRef) (d : Device) (z : Zone)
    (Hat : zone_at d r = Some z)
    (Hbusy : IsBusy z = true)
    (Hunused : IsUsed z = false)
    (Hrange : 0 <= used_capacity_ z) :
  forall ios offline max_capacity,
    be_Reset be (start_ z) = (ios, offline, max_capacity) ->
    (ios <> OK -> Zone_Reset be r d = Some (ios, d)) /\
    (ios = OK ->
     (io_zones_counted d -> exists d', Zone_Reset be r d = Some (OK, d')) /\
     forall st d',
       Zone_Reset be r d = Some (st, d') ->
       st = OK /\
       exists z',
       zone_at d' r = Some z' /\
       (forall r', r' <> r -> zone_at d' r' = zone_at d r') /\
       start_ z' = start_ z /\
       wp_ z' = start_ z /\
       used_capacity_ z' = 0 /\
       lifetime_ z' = WLTH_NOT_SET /\
       busy_ z' = true /\
       reset_count_ z' = u32 (reset_count_ z + 1) /\
       (0 <= reset_count_ z < 2 ^ 32 - 1 ->
        reset_count_ z' = reset_count_ z + 1) /\
       total_reset_count_ d' = u32 (total_reset_count_ d + 1) /\
       (0 <= total_reset_count_ d < 2 ^ 32 - 1 ->
        total_reset_count_ d' = total_reset_count_ d + 1) /\
       (offline = false ->
        max_capacity_ z' = max_capacity /\ capacity_ z' = max_capacity) /\
       (offline = true ->
        max_capacity_ z' = max_capacity_ z /\ capacity_ z' = 0)).
Proof.
  intros ios offline max_capacity Hbe. split.
  - intros Hios. unfold Zone_Reset. rewrite Hat, Hbe.
    destruct (bool_decide_reflect (ios = OK)); [contradiction|].
    reflexivity.
  - intros ->.
    rewrite (Zone_Reset_runs_wl_trigger be r d z offline max_capacity Hat Hbe).
    set (d2 := set_total_reset_count (u32 (total_reset_count_ d + 1))
                 (set_zone r (reset_zone offline max_capacity z) d)).
    split.
    { intros Hio.
      destruct (wl_trigger_returns be d2) as [d' ->]; [|eexists; reflexivity].
      apply (io_zones_counted_set_zone r (reset_zone offline max_capacity z))
        in Hio. exact Hio. }
    intros st d' H.
    destruct (wl_trigger be d2) as [d3|] eqn:Hwl; [|discriminate].
    injection H as <- <-. split; [reflexivity|].
    exists (reset_zone offline max_capacity z).
    destruct (wl_trigger_zones be d2 d3 Hwl) as (_ & _ & Htot).
    split.
    { rewrite (zone_at_wl_trigger _ _ _ _ Hwl). unfold d2.
      rewrite zone_at_set_total_reset_count.
      eapply zone_at_set_zone; eassumption. }
    split.
    { intros r' Hne.
      rewrite (zone_at_wl_trigger _ _ _ _ Hwl). unfold d2.
      rewrite zone_at_set_total_reset_count.
      apply zone_at_set_zone_ne. congruence. }
    assert (Hu : used_capacity_ z = 0).
    { unfold IsUsed in Hunused. apply Z.ltb_ge in Hunused. lia. }
    rewrite Htot. unfold d2. simpl.
    unfold reset_zone; destruct offline; simpl;
      repeat split; try assumption; try reflexivity; try discriminate;
      intros; apply u32_small; lia.
Qed.

Lemma Zone_Reset_spec_witness :
  exists d',
    Zone_Reset be_ex (IOZone 0) dev_ex = Some (OK, d') /\
    total_reset_count_ d' = 45 /\
    (reset_count_ <$> zone_at d' (IOZone 0)) = Some 6.
Proof.
  destruct (Zone_Reset_spec be_ex (IOZone 0) dev_ex zone_ex)
    with (ios := OK) (offline := false) (max_capacity := zone_cap_ex)
    as [_ H]; try reflexivity.
  destruct (H eq_refl) as [Hret Hspec].
  destruct Hret as [d' HR].
  { split; [discriminate|reflexivity]. }
  destruct (Hspec OK d' HR)
    as (_ & z' & Hat & _ & _ & _ & _ & _ & _ & _ & Hrc & _ & Htot & _).
  exists d'. split; [exact HR|]. split.
  - rewrite Htot; [reflexivity|]. vm_compute. intuition discriminate.
  - rewrite Hat. simpl. rewrite Hrc; [reflexivity|].
    vm_compute. intuition discriminate.
Defined.

Lemma zone_inv_operations_witness :
  zone_in_range zone_ex /\ zone_inv zone_ex /\
  forall st z', Zone_Close be_ex zone_ex = (st, z') -> z' = zone_ex.
Proof.
  assert (Hr : zone_in_range zone_ex) by (vm_compute; intuition discriminate).
  assert (Hi : zone_inv zone_ex)
    by (unfold zone_inv; vm_compute; intuition discriminate).
  split; [exact Hr|]. split; [exact Hi|].
  apply (zone_inv_operations be_ex zone_ex Hr Hi).
Defined.

(** C5: the bound on [wp] does not survive [Zone::Finish] on a zone whose
    writable capacity is smaller than the zone size.  The zone satisfies the
    invariant before the call; afterwards [wp = start + zone_size], past
    [start + max_capacity]. *)
Lemma Zone_Finish_breaks_wp_bound :
  zone_inv zone_ex /\
  exists z',
    Zone_Finish be_ex zone_ex = (OK, z') /\
    ~ (start_ z' <= wp_ z' <= start_ z' + max_capacity_ z').
Proof.
  split.
  - unfold zone_inv; vm_compute; intuition discriminate.
  - eexists. split; [reflexivity|]. vm_compute. intros [_ H]. now apply H.
Qed.

(** ** The wear-levelling trigger *)

(** C3 (amended).  The trigger at the end of [Zone::Reset] does nothing
    until [total_resets > nr_zones].  From then on [check_reset_count] is
    first raised to [nr_zones] if it is below; with [diff] the 32-bit
    difference [io_resets - check_reset_count], when both
    [100 * diff > io_resets * reset_ratio_threshold] and [diff >= nr_zones]
    hold, the worker is woken and [check_reset_count := io_resets], and if
    [wl_trigger_count >= 2] the threshold is divided by
    [1 + (sigma - 1.5) / 1.5] and [wl_trigger_count := 0].  [sigma] comes
    from [GetResetCountStdDev], which divides by the number of io zones: on
    a device without io zones the process dies there and the trigger
    returns nothing; with io zones it returns.  When the two conditions do
    not both hold, nothing else changes: in particular [wl_trigger_count]
    is not incremented. *)
Theorem wl_trigger_spec (be : Backend) (d : Device) :
  let nr_zones := be_NrZones be in
  let io_resets := u32 (total_reset_count_ d - GetMetaZoneResetCountNow d) in
  let floored := Z.max (check_reset_count_ d) nr_zones in
  let diff := u32 (io_resets - floored) in
  let both :=
    PrimFloat.ltb (of_u32 io_resets * reset_ratio_threshold_ d)%float
                  (of_u32 (u32 (100 * diff)))
    && (nr_zones <=? diff) in
  (total_reset_count_ d <= nr_zones -> wl_trigger be d = Some d) /\
  (nr_zones < total_reset_count_ d ->
   (both = true -> 2 <= wl_trigger_count_ d ->
      (GetResetCountStdDev d = None <->
       u32 (Z.of_nat (length (io_zones d))) = 0) /\
      (io_zones_counted d -> is_Some (GetResetCountStdDev d)) /\
      match GetResetCountStdDev d with
      | None => wl_trigger be d = None
      | Some sigma =>
          exists d',
            wl_trigger be d = Some d' /\
            check_reset_count_ d' = io_resets /\
            wl_notified d' = S (wl_notified d) /\
            wl_worker_sleep_ d' = false /\
            wl_trigger_count_ d' = 0 /\
            reset_ratio_threshold_ d' =
              damped_threshold (reset_ratio_threshold_ d) sigma
      end) /\
   (both = true -> wl_trigger_count_ d < 2 ->
      exists d',
        wl_trigger be d = Some d' /\
        check_reset_count_ d' = io_resets /\
        wl_notified d' = S (wl_notified d) /\
        wl_worker_sleep_ d' = false /\
        wl_trigger_count_ d' = wl_trigger_count_ d /\
        reset_ratio_threshold_ d' = reset_ratio_threshold_ d) /\
   (both = false ->
      exists d',
        wl_trigger be d = Some d' /\
        check_reset_count_ d' = floored /\
        wl_notified d' = wl_notified d /\
        wl_worker_sleep_ d' = wl_worker_sleep_ d /\
        wl_trigger_count_ d' = wl_trigger_count_ d /\
        reset_ratio_threshold_ d' = reset_ratio_threshold_ d)).
Proof.
  cbv zeta. unfold wl_trigger, wl_diff_conditions. split.
  - intros H. destruct (be_NrZones be <? total_reset_count_ d) eqn:E;
      [lia|reflexivity].
  - intros H. destruct (be_NrZones be <? total_reset_count_ d) eqn:E; [|lia].
    assert (Hsd : forall v, GetResetCountStdDev
                              (set_wl_trigger_count 0 (SetCheckResetCount v d))
                            = GetResetCountStdDev d) by reflexivity.
    assert (Hsd0 : GetResetCountStdDev (set_wl_trigger_count 0 d)
                   = GetResetCountStdDev d) by reflexivity.
    assert (Hnone : GetResetCountStdDev d = None <->
                    u32 (Z.of_nat (length (io_zones d))) = 0).
    { unfold GetResetCountStdDev. rewrite u32_s32.
      destruct (Z.eqb_spec (u32 (Z.of_nat (length (io_zones d)))) 0);
        split; intros Hx; try reflexivity; try assumption;
        try discriminate; contradiction. }
    destruct (check_reset_count_ d <? be_NrZones be) eqn:Ec.
    + rewrite Z.max_r by lia. cbn [check_reset_count_ SetCheckResetCount
        reset_ratio_threshold_ wl_trigger_count_].
      split; [|split]; intros Hb; rewrite Hb.
      * intros Ht. apply Z.leb_le in Ht. rewrite Ht. rewrite Hsd.
        split; [exact Hnone|].
        split; [apply GetResetCountStdDev_defined|].
        destruct (GetResetCountStdDev d); [|reflexivity].
        eexists. split; [reflexivity|]. repeat split.
      * intros Ht. destruct (Z.leb_spec 2 (wl_trigger_count_ d)); [lia|].
        eexists. split; [reflexivity|]. repeat split.
      * eexists. split; [reflexivity|]. repeat split.
    + rewrite Z.max_l by lia.
      split; [|split]; intros Hb; rewrite Hb.
      * intros Ht. apply Z.leb_le in Ht. rewrite Ht. rewrite Hsd0.
        split; [exact Hnone|].
        split; [apply GetResetCountStdDev_defined|].
        destruct (GetResetCountStdDev d); [|reflexivity].
        eexists. split; [reflexivity|]. repeat split.
      * intros Ht. destruct (Z.leb_spec 2 (wl_trigger_count_ d)); [lia|].
        eexists. split; [reflexivity|]. repeat split.
      * eexists. split; [reflexivity|]. repeat split.
Qed.

Lemma wl_trigger_spec_witness :
  exists d',
    wl_trigger be_ex dev_wl_ex = Some d' /\
    check_reset_count_ d' = 90 /\
    wl_trigger_count_ d' = 0 /\
    reset_ratio_threshold_ d' = damped_threshold 10 2.
Proof.
  pose proof (wl_trigger_spec be_ex dev_wl_ex) as H. cbv zeta in H.
  destruct H as [_ H].
  destruct (H ltac:(vm_compute; reflexivity)) as (Hd & _ & _).
  destruct (Hd ltac:(vm_compute; reflexivity) ltac:(vm_compute; discriminate))
    as (_ & _ & Hm).
  assert (Hs : GetResetCountStdDev dev_wl_ex = Some 2%float)
    by (vm_compute; reflexivity).
  rewrite Hs in Hm. destruct Hm as (d' & E & Hc & _ & _ & Ht & Hthr).
  exists d'. split; [exact E|].
  split; [rewrite Hc; vm_compute; reflexivity|].
  split; [exact Ht|exact Hthr].
Defined.

(** C3: a reset that misses the trigger does not count it.  On [dev_ex] the
    reset brings the total to 45 > 40 zones, the diff is 5 < 40, and
    [wl_trigger_count] is 1 before and after. *)
Lemma Zone_Reset_leaves_wl_trigger_count :
  (fun r : IOStatus * Device =>
     (fst r,
      bool_decide (be_NrZones be_ex < total_reset_count_ (snd r)),
      u32 (u32 (total_reset_count_ (snd r) - GetMetaZoneResetCountNow (snd r))
           - check_reset_count_ dev_ex),
      wl_trigger_count_ (snd r)))
    <$> Zone_Reset be_ex (IOZone 0) dev_ex
  = Some (OK, true, 5, 1) /\
  wl_trigger_count_ dev_ex = 1.
Proof. vm_compute. split; reflexivity. Qed.

(** ** Opening the device *)






(** ** The deferred status *)

Lemma SetZoneDeferredStatus_from_OK (status : IOStatus) (d : Device) :
  zone_deferred_status_ d = OK -> SetZoneDeferredStatus status d = d.
Proof. intros H. unfold SetZoneDeferredStatus. now rewrite H. Qed.

Lemma SetZoneDeferredStatus_reports_from_OK (statuses : list IOStatus) :
  forall d, zone_deferred_status_ d = OK ->
    fold_left (fun d status => SetZoneDeferredStatus status d) statuses d = d.
Proof.
  induction statuses as [|status statuses IH]; intros d H; simpl.
  - reflexivity.
  - rewrite SetZoneDeferredStatus_from_OK by exact H. now apply IH.
Qed.

(** C1.  [SetZoneDeferredStatus] stores the new status only when the latch
    already holds an error: starting from [OK], whatever statuses the
    background failures report and however many, the latch stays [OK], so
    the first failure is not latched (and none after it). *)
Theorem SetZoneDeferredStatus_never_latches (statuses : list IOStatus)
    (d : Device) :
  zone_deferred_status_
    (fold_left (fun d status => SetZoneDeferredStatus status d) statuses
       (set_zone_deferred_status OK d)) = OK.
Proof.
  rewrite SetZoneDeferredStatus_reports_from_OK; reflexivity.
Qed.

(** The other half of the latch works: with an error latched,
    [AllocateIOZone] returns it at once, stores nothing through [out_zone]
    and leaves the device as it was. *)
Lemma AllocateIOZone_fails_fast (be : Backend)
    (rogue_at : nat -> ZoneRef -> bool)
    (fuel : nat) (file_lifetime : WriteLifeTimeHint) (io_type : IOType)
    (d : Device) :
  ok (zone_deferred_status_ d) = false ->
  AllocateIOZone be rogue_at fuel file_lifetime io_type d =
  Some (zone_deferred_status_ d, None, d).
Proof.
  intros H. unfold AllocateIOZone, GetZoneDeferredStatus. now rewrite H.
Qed.

(** Once the latch holds an error, each later report overwrites it. *)
Lemma SetZoneDeferredStatus_overwrites (status : IOStatus) (d : Device) :
  ok (zone_deferred_status_ d) = false ->
  zone_deferred_status_ (SetZoneDeferredStatus status d) = status.
Proof. intros H. unfold SetZoneDeferredStatus. now rewrite H. Qed.

(** ** Metadata zones *)

(** C6.  [AllocateMetaZone] on two idle metadata zones, the first with live
    data: the second zone is handed out, and the first, acquired on the way
    and skipped, is still busy on return. *)
Theorem AllocateMetaZone_keeps_used_zone_busy :
  (busy_ <$> meta_zones dev_meta_ex !! 0%nat) = Some false /\
  (IsUsed <$> meta_zones dev_meta_ex !! 0%nat) = Some true /\
  fst <$> AllocateMetaZone be_ex quiet dev_meta_ex = Some (OK, Some 1%nat) /\
  (fun r : IOStatus * option nat * Device =>
     busy_ <$> meta_zones (snd r) !! 0%nat)
    <$> AllocateMetaZone be_ex quiet dev_meta_ex
  = Some (Some true).
Proof. vm_compute. repeat split. Qed.

(** ** The scans of the allocator *)

Lemma set_zone_id (r : ZoneRef) (z : Zone) (d : Device) :
  zone_at d r = Some z -> set_zone r z d = d.
Proof.
  destruct d, r as [i|i]; simpl; intros H; unfold set_meta_zones, set_io_zones;
    simpl; f_equal; now apply list_insert_id.
Qed.

Lemma set_zone_set_zone (r : ZoneRef) (z z' : Zone) (d : Device) :
  set_zone r z' (set_zone r z d) = set_zone r z' d.
Proof.
  destruct d, r as [i|i]; simpl; unfold set_meta_zones, set_io_zones; simpl;
    f_equal; apply list_insert_insert_eq.
Qed.

Lemma set_zone_comm (i j : nat) (z z' : Zone) (d : Device) :
  i <> j ->
  set_zone (IOZone i) z (set_zone (IOZone j) z' d) =
  set_zone (IOZone j) z' (set_zone (IOZone i) z d).
Proof.
  intros H. destruct d; simpl; unfold set_io_zones; simpl; f_equal.
  now apply list_insert_insert_ne.
Qed.

Lemma set_busy_roundtrip (z : Zone) :
  busy_ z = false -> set_busy false (set_busy true z) = z.
Proof. destruct z; simpl; intros ->; reflexivity. Qed.

Lemma io_zones_set_zone (i : nat) (z : Zone) (d : Device) :
  io_zones (set_zone (IOZone i) z d) = <[i := z]> (io_zones d).
Proof. reflexivity. Qed.

#[local] Arguments set_zone : simpl never.
#[local] Arguments hold : simpl never.

Lemma hold_Some (a : nat) (za : Zone) (d : Device) :
  io_zones d !! a = Some za ->
  hold (Some a) d = set_zone (IOZone a) (set_busy true za) d.
Proof. intros H. unfold hold. now rewrite H. Qed.

Lemma quiet_release (i : nat) (z : Zone) (d : Device) :
  io_zones d !! i = Some (set_busy true z) -> busy_ z = false ->
  zone_CheckRelease quiet (IOZone i) d = (OK, set_zone (IOZone i) z d).
Proof.
  intros H Hb. unfold zone_CheckRelease. simpl. rewrite H.
  unfold interfered, quiet, CheckRelease, Release. simpl.
  now rewrite set_busy_roundtrip.
Qed.

(** One iteration of [GetBestOpenZoneMatch] without interference, on a
    device that is [d0] with the choice so far held. *)
Lemma GetBestOpenZoneMatch_step lt mc (d0 : Device) (k : nat) (z : Zone)
    (alloc : option nat) (best : Z) :
  io_zones d0 !! k = Some z ->
  match alloc with
  | None => True
  | Some a => a <> k /\ exists za, io_zones d0 !! a = Some za /\ busy_ za = false
  end ->
  GetBestOpenZoneMatch_body quiet lt mc k (hold alloc d0, alloc, best) =
  Continue
    (let diff := GetLifeTimeDiff (lifetime_ z) lt in
     let '(a', b') :=
       if open_candidate mc z && (diff <=? best) then (Some k, diff)
       else (alloc, best) in
     (hold a' d0, a', b')).
Proof.
  intros Hk Ha.
  unfold GetBestOpenZoneMatch_body, zone_Acquire.
  assert (Hat : zone_at (hold alloc d0) (IOZone k) = Some z).
  { destruct alloc as [a|]; [|exact Hk].
    destruct Ha as (Hne & za & Hza & _). rewrite (hold_Some a za) by exact Hza.
    rewrite zone_at_set_zone_ne by congruence. exact Hk. }
  rewrite Hat. unfold Acquire, open_candidate.
  destruct (busy_ z) eqn:Hb.
  { rewrite set_zone_id by exact Hat. reflexivity. }
  rewrite io_zones_set_zone.
  assert (Hlen : (k < length (io_zones (hold alloc d0)))%nat).
  { simpl in Hat. eapply lookup_lt_Some; eassumption. }
  rewrite list_lookup_insert_eq by exact Hlen.
  assert (Hback : set_zone (IOZone k) z (set_zone (IOZone k) (set_busy true z) (hold alloc d0))
                  = hold alloc d0).
  { rewrite set_zone_set_zone. now apply set_zone_id. }
  assert (Hrel : zone_CheckRelease quiet (IOZone k)
                   (set_zone (IOZone k) (set_busy true z) (hold alloc d0))
                 = (OK, hold alloc d0)).
  { rewrite (quiet_release k z); [now rewrite Hback| |exact Hb].
    rewrite io_zones_set_zone. now apply list_lookup_insert_eq. }
  unfold IsFull. cbn [negb andb used_capacity_ capacity_ lifetime_ set_busy].
  destruct ((0 <? used_capacity_ z) && negb (capacity_ z =? 0) && (mc <=? capacity_ z)) eqn:Hc;
    [|rewrite Hrel; reflexivity].
  destruct (GetLifeTimeDiff (lifetime_ z) lt <=? best) eqn:Hd;
    [|rewrite Hrel; reflexivity].
  cbn [andb]. rewrite (hold_Some k z) by exact Hk.
  destruct alloc as [a|]; [|reflexivity].
  destruct Ha as (Hne & za & Hza & Hzb).
  rewrite (hold_Some a za) by exact Hza.
  rewrite (quiet_release a za).
  - cbn [ok negb]. rewrite set_zone_comm by exact Hne.
    rewrite set_zone_set_zone. rewrite (set_zone_id (IOZone a)) by exact Hza.
    reflexivity.
  - rewrite io_zones_set_zone. rewrite list_lookup_insert_ne by congruence.
    rewrite io_zones_set_zone. apply list_lookup_insert_eq.
    eapply lookup_lt_Some; eassumption.
  - exact Hzb.
Qed.

Lemma open_candidate_idle (mc : Z) (z : Zone) :
  open_candidate mc z = true -> busy_ z = false.
Proof. unfold open_candidate. destruct (busy_ z); [discriminate|reflexivity]. Qed.

(** The loop of [GetBestOpenZoneMatch], run without interference, chooses
    as [best_match_scan] does and leaves every zone as it found it, except
    that it holds the chosen one. *)
Lemma GetBestOpenZoneMatch_loop lt mc (d0 : Device) :
  forall suf pre alloc best,
    io_zones d0 = pre ++ suf ->
    match alloc with
    | None => True
    | Some a =>
        (a < length pre)%nat /\
        exists za, io_zones d0 !! a = Some za /\ busy_ za = false
    end ->
    for_zones (GetBestOpenZoneMatch_body quiet lt mc)
      (seq (length pre) (length suf)) (hold alloc d0, alloc, best) =
    inl (let '(a', b') := best_match_scan lt mc suf (length pre) (alloc, best) in
         (hold a' d0, a', b')).
Proof.
  induction suf as [|z suf IH]; intros pre alloc best Hzs Ha.
  - reflexivity.
  - assert (Hk : io_zones d0 !! length pre = Some z).
    { rewrite Hzs. apply list_lookup_middle. reflexivity. }
    cbn [length seq for_zones best_match_scan].
    rewrite (GetBestOpenZoneMatch_step lt mc d0 (length pre) z alloc best Hk).
    2:{ destruct alloc as [a|]; [|exact I].
        destruct Ha as [Hlt Hex]. split; [lia|exact Hex]. }
    cbn zeta. cbn [snd].
    specialize (IH (pre ++ [z])).
    rewrite length_app in IH. cbn [length] in IH.
    replace (length pre + 1)%nat with (S (length pre)) in IH by lia.
    destruct (open_candidate mc z && (GetLifeTimeDiff (lifetime_ z) lt <=? best))
      eqn:Hc.
    + apply IH.
      * rewrite Hzs, <- app_assoc. reflexivity.
      * split; [lia|]. exists z. split; [exact Hk|].
        apply andb_prop in Hc as [Hc _]. eapply open_candidate_idle; eassumption.
    + apply IH.
      * rewrite Hzs, <- app_assoc. reflexivity.
      * destruct alloc as [a|]; [|exact I].
        destruct Ha as [Hlt Hex]. split; [lia|exact Hex].
Qed.

(** What [best_match_scan] chooses is the best match. *)
Lemma best_match_scan_spec lt mc :
  forall suf pre alloc best,
    is_best_match lt mc pre alloc best ->
    (match alloc with Some a => (a < length pre)%nat | None => True end) ->
    is_best_match lt mc (pre ++ suf)
      (fst (best_match_scan lt mc suf (length pre) (alloc, best)))
      (snd (best_match_scan lt mc suf (length pre) (alloc, best))).
Proof.
  induction suf as [|z suf IH]; intros pre alloc best Hacc Hlt.
  - rewrite app_nil_r. exact Hacc.
  - cbn [best_match_scan snd].
    specialize (IH (pre ++ [z])).
    rewrite length_app in IH. cbn [length] in IH.
    replace (length pre + 1)%nat with (S (length pre)) in IH by lia.
    rewrite <- app_assoc in IH. cbn [app] in IH.
    pose proof (GetLifeTimeDiff_le (lifetime_ z) lt) as Hle.
    destruct (open_candidate mc z) eqn:Hc; cbn [andb].
    + destruct (GetLifeTimeDiff (lifetime_ z) lt <=? best) eqn:Hd.
      * (* the zone at hand replaces the choice *)
        apply IH; [|lia].
        exists z. split; [apply list_lookup_middle; reflexivity|].
        split; [exact Hc|]. split; [reflexivity|].
        intros j zj Hj Hcj.
        destruct (decide (j = length pre)) as [->|Hne].
        { rewrite list_lookup_middle in Hj by reflexivity.
          injection Hj as <-. split; [lia|lia]. }
        assert (Hj' : pre !! j = Some zj).
        { apply lookup_lt_Some in Hj as Hlen. rewrite length_app in Hlen.
          cbn [length] in Hlen. rewrite lookup_app_l in Hj by lia. exact Hj. }
        apply lookup_lt_Some in Hj' as Hjlt.
        split; [|lia].
        destruct alloc as [a|]; cbn [is_best_match] in Hacc.
        -- destruct Hacc as (za & _ & _ & -> & Hmin).
           destruct (Hmin j zj Hj' Hcj) as [Hm _]. lia.
        -- destruct Hacc as [_ Hnone]. rewrite (Hnone j zj Hj') in Hcj.
           discriminate.
      * (* the choice stays: it is strictly better *)
        apply IH; [|destruct alloc; [lia|exact I]].
        destruct alloc as [a|]; cbn [is_best_match] in Hacc |- *.
        -- destruct Hacc as (za & Hza & Hca & Hb & Hmin).
           exists za. split; [rewrite lookup_app_l by lia; exact Hza|].
           split; [exact Hca|]. split; [exact Hb|].
           intros j zj Hj Hcj.
           destruct (decide (j = length pre)) as [->|Hne].
           { rewrite list_lookup_middle in Hj by reflexivity.
             injection Hj as <-. split; lia. }
           assert (Hj' : pre !! j = Some zj).
           { apply lookup_lt_Some in Hj as Hlen. rewrite length_app in Hlen.
             cbn [length] in Hlen. rewrite lookup_app_l in Hj by lia. exact Hj. }
           exact (Hmin j zj Hj' Hcj).
        -- destruct Hacc as [Hb _]. unfold LIFETIME_DIFF_NOT_GOOD in *. lia.
    + (* not a candidate *)
      apply IH; [|destruct alloc; [lia|exact I]].
      destruct alloc as [a|]; cbn [is_best_match] in Hacc |- *.
      * destruct Hacc as (za & Hza & Hca & Hb & Hmin).
        exists za. split; [rewrite lookup_app_l by lia; exact Hza|].
        split; [exact Hca|]. split; [exact Hb|].
        intros j zj Hj Hcj.
        destruct (decide (j = length pre)) as [->|Hne].
        { rewrite list_lookup_middle in Hj by reflexivity.
          injection Hj as <-. congruence. }
        assert (Hj' : pre !! j = Some zj).
        { apply lookup_lt_Some in Hj as Hlen. rewrite length_app in Hlen.
          cbn [length] in Hlen. rewrite lookup_app_l in Hj by lia. exact Hj. }
        exact (Hmin j zj Hj' Hcj).
      * destruct Hacc as [Hb Hnone]. split; [exact Hb|].
        intros j zj Hj.
        destruct (decide (j = length pre)) as [->|Hne].
        { rewrite list_lookup_middle in Hj by reflexivity.
          injection Hj as <-. exact Hc. }
        apply (Hnone j). apply lookup_lt_Some in Hj as Hlen.
        rewrite length_app in Hlen. cbn [length] in Hlen.
        rewrite lookup_app_l in Hj by lia. exact Hj.
Qed.

(** C2 (amended).  Without interference [GetBestOpenZoneMatch] returns
    [OK].  A zone is a candidate iff its busy flag can be taken,
    [used_capacity > 0], it is not full and [capacity >= min_capacity].
    With no candidate [zone_out] is null and the diff is 100.  Otherwise
    [zone_out] is a candidate with the smallest lifetime diff, and among
    the candidates with that diff it is the last one in the order of
    [io_zones]; a candidate whose diff is 100 is chosen like any other.
    On return only the chosen zone is held. *)
Theorem GetBestOpenZoneMatch_spec (file_lifetime : WriteLifeTimeHint)
    (min_capacity : Z) (d : Device) :
  exists best_diff zone_out,
    GetBestOpenZoneMatch quiet file_lifetime min_capacity d =
      (OK, Some (best_diff, zone_out), hold zone_out d) /\
    is_best_match file_lifetime min_capacity (io_zones d) zone_out best_diff.
Proof.
  pose proof (GetBestOpenZoneMatch_loop file_lifetime min_capacity d
                (io_zones d) [] None LIFETIME_DIFF_NOT_GOOD eq_refl I) as Hloop.
  pose proof (best_match_scan_spec file_lifetime min_capacity
                (io_zones d) [] None LIFETIME_DIFF_NOT_GOOD) as Hspec.
  cbn [length app] in Hloop, Hspec.
  destruct (best_match_scan file_lifetime min_capacity (io_zones d) 0
              (None, LIFETIME_DIFF_NOT_GOOD)) as [zone_out best_diff].
  exists best_diff, zone_out. split.
  - unfold GetBestOpenZoneMatch, indices.
    change (hold None d) with d in Hloop. rewrite Hloop. reflexivity.
  - apply Hspec; [|exact I].
    split; [reflexivity|]. intros j z Hj. discriminate.
Qed.

(** C2: ties go to the last candidate, the sentinel is selected, and a
    held zone is no candidate.  The three zones of [dev_open_ex] have live
    data, room left and the same hint; the third is busy.  For a [SHORT]
    file all have diff 50 and the second is returned, neither the first
    nor the third; for a [MEDIUM] file all have diff 100 and the second is
    returned with [best_diff = 100]. *)
Lemma GetBestOpenZoneMatch_picks_last_and_sentinel :
  (busy_ <$> io_zones dev_open_ex) = [false; false; true] /\
  (open_candidate 0 <$> io_zones dev_open_ex) = [true; true; false] /\
  ((fun z => GetLifeTimeDiff (lifetime_ z) WLTH_SHORT) <$> io_zones dev_open_ex)
  = [50; 50; 50] /\
  fst (GetBestOpenZoneMatch quiet WLTH_SHORT 0 dev_open_ex)
  = (OK, Some (50, Some 1%nat)) /\
  ((fun z => GetLifeTimeDiff (lifetime_ z) WLTH_MEDIUM) <$> io_zones dev_open_ex)
  = [100; 100; 100] /\
  fst (GetBestOpenZoneMatch quiet WLTH_MEDIUM 0 dev_open_ex)
  = (OK, Some (100, Some 1%nat)).
Proof. vm_compute. repeat split. Qed.

(** ** Token accounting of the scans *)

(** The rule for a loop over a zone vector: an invariant [P] of the loop
    state that every iteration keeps, and a property [Q] of whatever an
    iteration returns. *)
Lemma for_zones_rule {S R : Type} (P : S -> Prop) (Q : R -> Prop)
    (body : nat -> S -> Step S R) :
  (forall i s, P s ->
     match body i s with
     | Continue s' | Break s' => P s'
     | Return r => Q r
     end) ->
  forall idxs s, P s ->
    match for_zones body idxs s with
    | inl s' => P s'
    | inr r => Q r
    end.
Proof.
  intros Hbody. induction idxs as [|i idxs IH]; intros s Hs; simpl.
  - exact Hs.
  - specialize (Hbody i s Hs).
    destruct (body i s); [apply IH; exact Hbody | exact Hbody | exact Hbody].
Qed.

Lemma tokens_kept_refl (d : Device) : tokens_kept d d.
Proof. repeat split. Qed.

Lemma tokens_kept_trans (d1 d2 d3 : Device) :
  tokens_kept d1 d2 -> tokens_kept d2 d3 -> tokens_kept d1 d3.
Proof. unfold tokens_kept. intuition congruence. Qed.

Lemma tokens_kept_set_zone (r : ZoneRef) (z : Zone) (d : Device) :
  tokens_kept d (set_zone r z d).
Proof. destruct r; repeat split. Qed.

Lemma zone_Acquire_tokens (r : ZoneRef) (d : Device) :
  tokens_kept d (snd (zone_Acquire r d)).
Proof.
  unfold zone_Acquire. destruct (zone_at d r) as [z|]; [|apply tokens_kept_refl].
  destruct (Acquire z). apply tokens_kept_set_zone.
Qed.

Lemma zone_Release_tokens (rogue : ZoneRef -> bool) (r : ZoneRef) (d : Device) :
  tokens_kept d (snd (zone_Release rogue r d)).
Proof.
  unfold zone_Release. destruct (zone_at d r) as [z|]; [|apply tokens_kept_refl].
  destruct (Release _). apply tokens_kept_set_zone.
Qed.

(** A release either succeeds or reports [Corruption]; either way it only
    touches the zone. *)
Lemma zone_CheckRelease_tokens (rogue : ZoneRef -> bool) (r : ZoneRef)
    (d : Device) :
  tokens_kept d (snd (zone_CheckRelease rogue r d)) /\
  (ok (fst (zone_CheckRelease rogue r d)) = false ->
   fst (zone_CheckRelease rogue r d) = Corruption).
Proof.
  unfold zone_CheckRelease.
  destruct (zone_at d r) as [z|]; [|split; [apply tokens_kept_refl|reflexivity]].
  unfold CheckRelease. destruct (Release _) as [[|] z']; simpl.
  - split; [apply tokens_kept_set_zone|discriminate].
  - split; [apply tokens_kept_set_zone|reflexivity].
Qed.

(** Take the next acquire or release of a scan body apart, keeping what it
    does to the tokens and which status it can report. *)
Ltac scan_step :=
  match goal with
  | |- context [zone_Acquire ?r ?d] =>
      let H := fresh "Hacq" in
      pose proof (zone_Acquire_tokens r d) as H;
      destruct (zone_Acquire r d) as [[|] ?]; cbn [fst snd] in H
  | |- context [zone_CheckRelease ?g ?r ?d] =>
      let H := fresh "Hrel" in
      let s := fresh "s" in
      pose proof (zone_CheckRelease_tokens g r d) as H;
      destruct (zone_CheckRelease g r d) as [s ?]; cbn [fst snd] in H;
      destruct (ok s) eqn:?; cbn [negb]
  | |- context [match ?l !! ?i with _ => _ end] => destruct (l !! i)
  | |- context [match ?x with _ => _ end] => is_var x; destruct x
  | |- context [if ?c then _ else _] => destruct c
  end.

Ltac tokens_solve :=
  unfold tokens_kept, PutOpenIOZoneToken in *; cbn in *; intuition (try congruence).

Lemma migrate_empty_body_tokens (rogue : ZoneRef -> bool) (d1 : Device)
    (i : nat) (s : Device * option nat) :
  tokens_kept d1 (fst s) ->
  match migrate_empty_body rogue i s with
  | Continue s' | Break s' => tokens_kept d1 (fst s')
  | Return (st, d') =>
      st = Corruption /\
      open_io_zones_ d' = open_io_zones_ d1 - 1 /\
      migrating_ d' = migrating_ d1
  end.
Proof.
  destruct s as [d t]. cbn [fst]. intros Hd.
  unfold migrate_empty_body.
  repeat scan_step; cbn [fst]; tokens_solve.
Qed.

Lemma migrate_open_body_tokens (rogue : ZoneRef -> bool)
    (lt : WriteLifeTimeHint) (mc : Z) (d1 : Device)
    (i : nat) (s : Device * option nat * Z) :
  tokens_kept d1 (fst (fst s)) ->
  match migrate_open_body rogue lt mc i s with
  | Continue s' | Break s' => tokens_kept d1 (fst (fst s'))
  | Return (st, d') => st = Corruption /\ tokens_kept d1 d'
  end.
Proof.
  destruct s as [[d t] sc]. cbn [fst]. intros Hd.
  unfold migrate_open_body.
  repeat scan_step; cbn [fst]; tokens_solve.
Qed.

Lemma migrate_enter_spec (d d1 : Device) :
  migrate_enter d = Some d1 ->
  migrating_ d1 = true /\ open_io_zones_ d1 = open_io_zones_ d + 1.
Proof.
  unfold migrate_enter, WaitForOpenIOZoneToken. intros H.
  destruct (migrating_ d); [discriminate|].
  destruct (_ <? _); [|discriminate].
  injection H as <-. split; reflexivity.
Qed.

Lemma migrate_empty_scan_tokens (rogue : ZoneRef -> bool) (d1 : Device) :
  match migrate_empty_scan rogue d1 with
  | inl s' => tokens_kept d1 (fst s')
  | inr (st, d') =>
      st = Corruption /\
      open_io_zones_ d' = open_io_zones_ d1 - 1 /\
      migrating_ d' = migrating_ d1
  end.
Proof.
  unfold migrate_empty_scan.
  apply (for_zones_rule
           (fun s : Device * option nat => tokens_kept d1 (fst s))
           (fun r : IOStatus * Device =>
              let '(st, d') := r in
              st = Corruption /\
              open_io_zones_ d' = open_io_zones_ d1 - 1 /\
              migrating_ d' = migrating_ d1)).
  - intros i s Hs. apply migrate_empty_body_tokens. exact Hs.
  - apply tokens_kept_refl.
Qed.

Lemma migrate_open_scan_tokens (rogue : ZoneRef -> bool)
    (lt : WriteLifeTimeHint) (mc : Z) (t : option nat) (d : Device) :
  match migrate_open_scan rogue lt mc t d with
  | inl s' => tokens_kept d (fst s')
  | inr (st, d') => st = Corruption /\ t = None /\ tokens_kept d d'
  end.
Proof.
  unfold migrate_open_scan. destruct t as [t|]; [apply tokens_kept_refl|].
  pose proof (for_zones_rule
           (fun s : Device * option nat * Z => tokens_kept d (fst (fst s)))
           (fun r : IOStatus * Device =>
              let '(st, d') := r in st = Corruption /\ tokens_kept d d')
           (migrate_open_body rogue lt mc)
           (fun i s Hs => migrate_open_body_tokens rogue lt mc d i s Hs)
           (indices (io_zones d)) (d, None, 0) (tokens_kept_refl d)) as H.
  destruct (for_zones _ _ _) as [[[d' t'] sc]|[st d']]; cbn [fst] in *.
  - exact H.
  - destruct H as [H1 H2]. repeat split; try assumption; apply H2.
Qed.

Lemma migrate_claim_empty_tokens (rogue : ZoneRef -> bool)
    (lt : WriteLifeTimeHint) (t : option nat) (d : Device) :
  let r := migrate_claim_empty rogue lt t d in
  migrating_ (fst r) = migrating_ d /\
  match t, snd r with
  | None, None => open_io_zones_ (fst r) = open_io_zones_ d
  | Some _, None => open_io_zones_ (fst r) = open_io_zones_ d - 1
  | Some _, Some _ => open_io_zones_ (fst r) = open_io_zones_ d
  | None, Some _ => False
  end.
Proof.
  unfold migrate_claim_empty. destruct t as [t|]; [|split; reflexivity].
  unfold GetActiveIOZoneTokenIfAvailable.
  destruct (_ <? _); cbn [negb].
  - destruct (_ !! _); cbn; split; reflexivity.
  - pose proof (zone_Release_tokens rogue (IOZone t) (PutOpenIOZoneToken d)) as H.
    destruct (zone_Release _ _ _) as [b d']. cbn [fst snd] in *.
    unfold tokens_kept, PutOpenIOZoneToken in H. cbn in H.
    intuition congruence.
Qed.

(** C10 (amended).  [GetMigrateTargetZone] has three kinds of exit.  On
    [OK] a target is handed out and [migrating_] is true; on [NotFound] no
    target is handed out and [migrating_] is false.  On [Corruption] (a
    failed [CheckRelease] in either scan) nothing is stored through
    [out_zone] and [migrating_] is still true; the open token taken at the
    entry has been put back when the failure is in the first scan, it is
    still out when the failure is in the second scan and the first scan
    had found no empty zone, and it had already been put back before the
    second scan when the first scan had found an empty zone for which no
    active token was available.  The two scans are two passes: what the
    other threads do to a zone in the second is independent of the
    first. *)
Theorem GetMigrateTargetZone_exits (rogue_at : nat -> ZoneRef -> bool)
    (file_lifetime : WriteLifeTimeHint) (min_capacity : Z)
    (d d1 d' : Device) (st : IOStatus) (out : option (option nat)) :
  migrate_enter d = Some d1 ->
  GetMigrateTargetZone rogue_at file_lifetime min_capacity d
  = Some (st, out, d') ->
  (st = OK /\ (exists t, out = Some (Some t)) /\ migrating_ d' = true) \/
  (st = NotFound /\ out = Some None /\ migrating_ d' = false) \/
  (st = Corruption /\ out = None /\ migrating_ d' = true /\
   match migrate_empty_scan (rogue_at 0%nat) d1 with
   | inr _ => open_io_zones_ d' = open_io_zones_ d
   | inl (_, None) => open_io_zones_ d' = open_io_zones_ d + 1
   | inl (_, Some _) => open_io_zones_ d' = open_io_zones_ d
   end).
Proof.
  intros Henter H. unfold GetMigrateTargetZone in H. rewrite Henter in H.
  apply migrate_enter_spec in Henter as [Hm Ho].
  pose proof (migrate_empty_scan_tokens (rogue_at 0%nat) d1) as H1.
  destruct (migrate_empty_scan (rogue_at 0%nat) d1) as [[d2 t]|[s1 d2]].
  - cbn [fst] in H1.
    pose proof (migrate_claim_empty_tokens (rogue_at 0%nat) file_lifetime t d2)
      as H2.
    destruct (migrate_claim_empty (rogue_at 0%nat) file_lifetime t d2) as [d3 t'].
    cbn [fst snd] in H2. destruct H2 as [H2m H2o].
    pose proof (migrate_open_scan_tokens (rogue_at 1%nat) file_lifetime
                  min_capacity t' d3) as H3.
    destruct (migrate_open_scan (rogue_at 1%nat) file_lifetime min_capacity t' d3)
      as [[d4 [t4|]]|[s4 d4]]; cbn [fst] in H3.
    + injection H as <- <- <-. left.
      split; [reflexivity|]. split; [eauto|].
      unfold tokens_kept in *. intuition congruence.
    + injection H as <- <- <-. right; left. repeat split.
    + injection H as <- <- <-. right; right.
      destruct H3 as (-> & -> & H3).
      split; [reflexivity|]. split; [reflexivity|].
      unfold tokens_kept in *.
      split; [intuition congruence|].
      destruct t as [t|]; intuition lia.
  - injection H as <- <- <-. right; right.
    destruct H1 as (-> & H1o & H1m).
    split; [reflexivity|]. split; [reflexivity|].
    split; [congruence|lia].
Qed.

(** The leak of C10 on [dev_full_ex]: the first scan releases the only
    zone, which is not empty, and finds no target; in the second scan the
    zone is no candidate either, and its release fails.  The call returns
    [Corruption] with [migrating_] set and the open token still out. *)
Lemma GetMigrateTargetZone_exits_witness :
  exists d',
    GetMigrateTargetZone rogue_in_second_pass WLTH_SHORT 0 dev_full_ex
    = Some (Corruption, None, d') /\
    migrating_ d' = true /\
    open_io_zones_ d' = open_io_zones_ dev_full_ex + 1.
Proof.
  destruct (migrate_enter dev_full_ex) as [d1|] eqn:Henter;
    [|vm_compute in Henter; discriminate].
  assert (Hfirst : match migrate_empty_scan (rogue_in_second_pass 0%nat) d1 with
                   | inl (_, None) => True
                   | _ => False
                   end).
  { pose proof Henter as Hc. vm_compute in Hc. injection Hc as Hc.
    rewrite <- Hc. vm_compute. exact I. }
  destruct (GetMigrateTargetZone rogue_in_second_pass WLTH_SHORT 0 dev_full_ex)
    as [[[st out] d']|] eqn:E; [|vm_compute in E; discriminate].
  assert (Hst : st = Corruption).
  { apply (f_equal (fmap (fun r => fst (fst r)))) in E.
    vm_compute in E. congruence. }
  subst st.
  destruct (GetMigrateTargetZone_exits rogue_in_second_pass WLTH_SHORT 0
              dev_full_ex d1 d' Corruption out Henter E)
    as [[Hc _]|[[Hc _]|(_ & -> & Hm & Hopen)]]; try discriminate.
  exists d'. split; [reflexivity|]. split; [exact Hm|].
  destruct (migrate_empty_scan (rogue_in_second_pass 0%nat) d1)
    as [[d2 [t|]]|[s1 d2]]; try contradiction. exact Hopen.
Defined.

(** C10: a [Corruption] exit of the second scan with the open token
    already back.  On [dev_migrate_ex] the first scan takes the empty zone
    as target, no active token is free, so the open token is put back and
    the target dropped; the second scan then fails to release the zone.
    The open-zone count on return is the one at the entry. *)
Lemma GetMigrateTargetZone_token_back_in_second_scan :
  (fun d1 =>
     match migrate_empty_scan rogue_all d1 with
     | inl (_, t) => Some t
     | inr _ => None
     end) <$> migrate_enter dev_migrate_ex = Some (Some (Some 0%nat)) /\
  (fun r : IOStatus * option (option nat) * Device =>
     (fst r, open_io_zones_ (snd r), migrating_ (snd r)))
    <$> GetMigrateTargetZone (always rogue_all) WLTH_SHORT 0 dev_migrate_ex
  = Some (Corruption, None, open_io_zones_ dev_migrate_ex, true).
Proof. vm_compute. split; reflexivity. Qed.

(** The migration flag is cleared only by [ReleaseMigrateZone] and by the
    [NotFound] exits: after a [Corruption] exit the next migration waits
    until someone calls [ReleaseMigrateZone]. *)
Lemma ReleaseMigrateZone_clears_migrating (rogue : ZoneRef -> bool)
    (zone : option nat) (d : Device) :
  migrating_ (snd (ReleaseMigrateZone rogue zone d)) = false.
Proof.
  unfold ReleaseMigrateZone. destruct zone as [i|]; [|reflexivity].
  destruct (zone_CheckRelease_tokens rogue (IOZone i) (set_migrating false d))
    as [(_ & _ & _ & Hm) _].
  exact Hm.
Qed.

Lemma GetMigrateTargetZone_waits_while_migrating (rogue : ZoneRef -> bool)
    (rogue_at : nat -> ZoneRef -> bool)
    (file_lifetime : WriteLifeTimeHint) (min_capacity : Z) (d : Device) :
  migrating_ d = true ->
  GetMigrateTargetZone rogue_at file_lifetime min_capacity d = None /\
  TakeMigrateZone rogue file_lifetime min_capacity d = None.
Proof.
  intros H. unfold GetMigrateTargetZone, migrate_enter, TakeMigrateZone.
  rewrite H. split; reflexivity.
Qed.

(** The defect behind C6 at the level of one iteration: on an idle
    metadata zone with live data the body of [AllocateMetaZone] sets the
    busy flag and goes on to the next zone. *)
Lemma AllocateMetaZone_body_skips_used (be : Backend) (rogue : ZoneRef -> bool)
    (i : nat) (d : Device) (z : Zone) :
  meta_zones d !! i = Some z -> busy_ z = false -> IsUsed z = true ->
  AllocateMetaZone_body be rogue i d =
  Continue (set_zone (MetaZone i) (set_busy true z) d).
Proof.
  intros Hz Hb Hu. unfold AllocateMetaZone_body, zone_Acquire.
  cbn [zone_at]. rewrite Hz. unfold Acquire. rewrite Hb.
  unfold set_zone at 1 2. cbn [meta_zones set_meta_zones].
  rewrite list_lookup_insert_eq by (eapply lookup_lt_Some; eassumption).
  change (IsUsed (set_busy true z)) with (IsUsed z). rewrite Hu.
  reflexivity.
Qed.

(** * Further properties of the code *)

(** ** Append moves the write pointer by what was written *)

Lemma advance_zero (z : Zone) :
  set_capacity (capacity_ z - 0) (set_wp (wp_ z + 0) z) = z.
Proof. destruct z; unfold set_capacity, set_wp; simpl; f_equal; lia. Qed.

Lemma advance_twice (z : Zone) (a b : Z) :
  set_capacity
    (capacity_ (set_capacity (capacity_ z - a) (set_wp (wp_ z + a) z)) - b)
    (set_wp (wp_ (set_capacity (capacity_ z - a) (set_wp (wp_ z + a) z)) + b)
       (set_capacity (capacity_ z - a) (set_wp (wp_ z + a) z)))
  = set_capacity (capacity_ z - (a + b)) (set_wp (wp_ z + (a + b)) z).
Proof. destruct z; unfold set_capacity, set_wp; simpl; f_equal; lia. Qed.

Lemma Append_loop_done (rets : list Z) (z : Zone) :
  Append_loop rets 0 z = Some (OK, z).
Proof. destruct rets; reflexivity. Qed.

Lemma Append_loop_written (rets : list Z) : forall left z st z',
  0 <= left < 2 ^ 32 -> left <= capacity_ z ->
  0 <= wp_ z -> wp_ z + capacity_ z < 2 ^ 64 ->
  short_writes left rets ->
  Append_loop rets left z = Some (st, z') ->
  exists written,
    0 <= written <= left /\
    z' = set_capacity (capacity_ z - written) (set_wp (wp_ z + written) z) /\
    (st = OK -> written = left) /\
    (st = OK \/ st = IOError) /\
    (st = IOError ->
     exists pre ret post,
       rets = pre ++ ret :: post /\ Forall (fun r => 0 <= r) pre /\
       ret < 0 /\ written = bytes_written pre /\ written < left).
Proof.
  induction rets as [|ret rets IH]; intros left z st z' Hl Hc Hw Hwc Hs H;
    simpl in H.
  - destruct (left =? 0) eqn:El; [|discriminate].
    injection H as <- <-. exists 0. apply Z.eqb_eq in El.
    rewrite advance_zero.
    repeat split; try lia; [now left|discriminate].
  - destruct (left =? 0) eqn:El.
    { injection H as <- <-. exists 0. apply Z.eqb_eq in El.
      rewrite advance_zero.
      repeat split; try lia; [now left|discriminate]. }
    apply Z.eqb_neq in El.
    destruct (ret <? 0) eqn:Er.
    { injection H as <- <-. exists 0. apply Z.ltb_lt in Er.
      rewrite advance_zero.
      split; [lia|]. split; [reflexivity|]. split; [discriminate|].
      split; [now right|].
      intros _. exists [], ret, rets.
      split; [reflexivity|]. split; [constructor|].
      split; [exact Er|]. split; [reflexivity|lia]. }
    apply Z.ltb_ge in Er.
    destruct Hs as [Hle Hs]. specialize (Hs Er).
    revert H.
    rewrite (u32_small (left - ret)) by lia.
    rewrite (u64_small (capacity_ z - ret)) by lia.
    rewrite (u64_small (wp_ z + ret)) by lia.
    intros H. apply IH in H; simpl; try lia; try assumption.
    destruct H as (w & Hw1 & -> & Hok & Hst & Herr).
    exists (ret + w). rewrite advance_twice.
    split; [lia|]. split; [reflexivity|].
    split; [intros E; specialize (Hok E); lia|]. split; [exact Hst|].
    intros E.
    destruct (Herr E) as (pre & r & post & -> & Hpre & Hr & -> & Hlt).
    exists (ret :: pre), r, post.
    split; [reflexivity|]. split; [constructor; assumption|].
    split; [exact Hr|]. split; [reflexivity|lia].
Qed.

(** A run of successful writes that ends before [left] bytes are written
    and is followed by a failed one: the loop stops there. *)
Lemma Append_loop_fails (pre : list Z) (ret : Z) (post : list Z) :
  forall left z,
    0 <= left < 2 ^ 32 -> left <= capacity_ z ->
    0 <= wp_ z -> wp_ z + capacity_ z < 2 ^ 64 ->
    Forall (fun r => 0 <= r) pre -> bytes_written pre < left -> ret < 0 ->
    Append_loop (pre ++ ret :: post) left z
    = Some (IOError,
            set_capacity (capacity_ z - bytes_written pre)
              (set_wp (wp_ z + bytes_written pre) z)).
Proof.
  induction pre as [|p pre IH]; intros left z Hl Hc Hw Hwc Hpre Hsum Hret;
    cbn [app Append_loop bytes_written fold_right] in *.
  - destruct (Z.eqb_spec left 0); [lia|].
    destruct (Z.ltb_spec ret 0); [|lia]. now rewrite advance_zero.
  - inversion Hpre as [|? ? Hp Hrest]; subst.
    fold (bytes_written pre) in *.
    assert (Hnn : 0 <= bytes_written pre).
    { clear -Hrest. induction Hrest; cbn; [lia|].
      fold (bytes_written l). lia. }
    destruct (Z.eqb_spec left 0); [lia|].
    destruct (Z.ltb_spec p 0); [lia|].
    rewrite (u32_small (left - p)) by lia.
    rewrite (u64_small (capacity_ z - p)) by lia.
    rewrite (u64_small (wp_ z + p)) by lia.
    rewrite IH by (cbn; try assumption; lia).
    now rewrite advance_twice.
Qed.

(** A run of successful writes that adds up to [left]: the loop ends with
    all of it written. *)
Lemma Append_loop_succeeds (pre post : list Z) :
  forall left z,
    0 <= left < 2 ^ 32 -> left <= capacity_ z ->
    0 <= wp_ z -> wp_ z + capacity_ z < 2 ^ 64 ->
    Forall (fun r => 0 <= r) pre -> bytes_written pre = left ->
    Append_loop (pre ++ post) left z
    = Some (OK, set_capacity (capacity_ z - left) (set_wp (wp_ z + left) z)).
Proof.
  induction pre as [|p pre IH]; intros left z Hl Hc Hw Hwc Hpre Hsum;
    cbn [app bytes_written fold_right] in *.
  - subst left. now rewrite Append_loop_done, advance_zero.
  - inversion Hpre as [|? ? Hp Hrest]; subst.
    fold (bytes_written pre) in *.
    assert (Hnn : 0 <= bytes_written pre).
    { clear -Hrest. induction Hrest; cbn; [lia|].
      fold (bytes_written l). lia. }
    cbn [Append_loop].
    destruct (Z.eqb_spec (p + bytes_written pre) 0) as [E|E].
    { rewrite E. now rewrite advance_zero. }
    destruct (Z.ltb_spec p 0); [lia|].
    rewrite (u32_small (p + bytes_written pre - p)) by lia.
    rewrite (u64_small (capacity_ z - p)) by lia.
    rewrite (u64_small (wp_ z + p)) by lia.
    rewrite IH by (cbn; try assumption; lia).
    rewrite advance_twice. repeat f_equal; lia.
Qed.

(** X1.  [Zone::Append] on a zone whose write pointer and capacity lie in
    the address space, with a backend that never reports more than it was
    asked to write.  Whatever the outcome, the zone differs from the one
    before only in [wp], advanced by the bytes written (at most [size]),
    and [capacity], reduced by as much.  On [OK] all [size] bytes were
    written; on an I/O error the bytes written are exactly those the
    successful writes before the failed one reported, fewer than [size]:
    nothing is rolled back; the only statuses are [OK], [NoSpace] and
    [IOError].  The call returns [NoSpace] when [size] exceeds the
    capacity; otherwise it returns [IOError] when the backend fails
    before [size] bytes are written, and [OK] once the successful writes
    add up to [size]. *)
Theorem Zone_Append_advances (rets : list Z) (z : Zone) (size : Z) :
  0 <= wp_ z -> wp_ z + capacity_ z < 2 ^ 64 ->
  0 <= size < 2 ^ 32 -> short_writes size rets ->
  (forall st z',
     Zone_Append rets z size = Some (st, z') ->
     exists written,
       0 <= written <= size /\
       z' = set_capacity (capacity_ z - written) (set_wp (wp_ z + written) z) /\
       (st = OK -> written = size) /\
       (st = NoSpace -> written = 0) /\
       (st = OK \/ st = NoSpace \/ st = IOError) /\
       (st = IOError ->
        exists pre ret post,
          rets = pre ++ ret :: post /\ Forall (fun r => 0 <= r) pre /\
          ret < 0 /\ written = bytes_written pre /\ written < size)) /\
  (capacity_ z < size -> Zone_Append rets z size = Some (NoSpace, z)) /\
  (size <= capacity_ z ->
   forall pre ret post,
     rets = pre ++ ret :: post -> Forall (fun r => 0 <= r) pre ->
     bytes_written pre < size -> ret < 0 ->
     Zone_Append rets z size
     = Some (IOError,
             set_capacity (capacity_ z - bytes_written pre)
               (set_wp (wp_ z + bytes_written pre) z))) /\
  (size <= capacity_ z ->
   forall pre post,
     rets = pre ++ post -> Forall (fun r => 0 <= r) pre ->
     bytes_written pre = size ->
     Zone_Append rets z size
     = Some (OK, set_capacity (capacity_ z - size) (set_wp (wp_ z + size) z))).
Proof.
  intros Hw Hwc Hsize Hs. unfold Zone_Append.
  split; [|split; [|split]].
  - intros st z' H. destruct (capacity_ z <? size) eqn:E.
    + injection H as <- <-. exists 0. rewrite advance_zero.
      repeat split; try lia; try discriminate. right; now left.
    + apply Z.ltb_ge in E.
      eapply Append_loop_written in H; try eassumption.
      destruct H as (w & Hw1 & Hz & Hok & Hst & Herr).
      exists w. repeat split; try assumption; try lia.
      * intros ->. destruct Hst; discriminate.
      * destruct Hst; [now left|right; now right].
  - intros Hlt. destruct (Z.ltb_spec (capacity_ z) size); [reflexivity|lia].
  - intros Hle pre ret post -> Hpre Hsum Hret.
    destruct (Z.ltb_spec (capacity_ z) size); [lia|].
    apply Append_loop_fails; assumption || lia.
  - intros Hle pre post -> Hpre Hsum.
    destruct (Z.ltb_spec (capacity_ z) size); [lia|].
    apply Append_loop_succeeds; assumption || lia.
Qed.

Lemma Zone_Append_advances_witness :
  Zone_Append [4096; -1] zone_ex 8192
  = Some (IOError,
          set_capacity (capacity_ zone_ex - 4096)
            (set_wp (wp_ zone_ex + 4096) zone_ex)).
Proof.
  destruct (Zone_Append_advances [4096; -1] zone_ex 8192)
    as (_ & _ & Hfail & _).
  - vm_compute. discriminate.
  - vm_compute. reflexivity.
  - vm_compute. split; [discriminate|reflexivity].
  - simpl. lia.
  - apply (Hfail ltac:(vm_compute; discriminate) [4096] (-1) []).
    + reflexivity.
    + repeat constructor. discriminate.
    + reflexivity.
    + reflexivity.
Defined.

(** ** Read *)

Lemma s32_small (x : Z) : - 2 ^ 31 <= x < 2 ^ 31 -> s32 x = x.
Proof. intros H. unfold s32. rewrite Z.mod_small by lia. lia. Qed.

(** While bytes are still wanted, the last answer seen does not matter. *)
Lemma Read_loop_last_answer (answers : list (Z * bool)) (left ret r r' : Z) :
  left <> 0 ->
  Read_loop answers left ret r = Read_loop answers left ret r'.
Proof.
  intros H. destruct answers as [|[a e] answers]; simpl;
    destruct (left =? 0) eqn:E; try reflexivity; lia.
Qed.

Lemma Read_loop_skips_interrupted (answers : list (Z * bool)) :
  forall left ret r,
    Read_loop answers left ret r =
    Read_loop (List.filter (fun a => negb (interrupted a)) answers) left ret r.
Proof.
  induction answers as [|[a e] answers IH]; intros left ret r.
  - reflexivity.
  - cbn [List.filter]. unfold interrupted at 1. cbn [fst snd].
    destruct ((a =? -1) && e) eqn:Hi; cbn [negb].
    + destruct (Z.eq_dec left 0) as [->|Hne].
      * destruct answers, (List.filter _ _); reflexivity.
      * cbn [Read_loop]. destruct (left =? 0) eqn:E; [lia|].
        apply andb_prop in Hi as [Ha He]. apply Z.eqb_eq in Ha. subst a.
        rewrite He. cbn. rewrite IH.
        apply Read_loop_last_answer. exact Hne.
    + cbn [Read_loop]. destruct (left =? 0); [reflexivity|].
      destruct (a <=? 0); [rewrite Hi; reflexivity|]. apply IH.
Qed.

(** X2.  [ZonedBlockDevice::Read] does not see interrupted calls: the
    answers of the backend that are [-1] with [errno = EINTR] can be
    dropped from the run without changing what [Read] returns, wherever
    they occur and however many there are. *)
Theorem Read_skips_interrupted (answers : list (Z * bool)) (n : Z) :
  Read answers n =
  Read (List.filter (fun a => negb (interrupted a)) answers) n.
Proof. unfold Read. apply Read_loop_skips_interrupted. Qed.

Lemma Read_loop_result (answers : list (Z * bool)) :
  forall left ret r v,
    0 <= ret -> 0 < left -> ret + left < 2 ^ 31 ->
    short_reads left answers ->
    Read_loop answers left ret r = Some v ->
    (v < 0 /\ Exists (fun a => fst a < 0 /\ interrupted a = false) answers) \/
    (ret <= v < ret + left /\ Exists (fun a => fst a = 0) answers) \/
    v = ret + left.
Proof.
  induction answers as [|[a e] answers IH]; intros left ret r v Hr Hl Hb Hs H;
    cbn [Read_loop] in H.
  - destruct (left =? 0) eqn:E; [lia|discriminate].
  - destruct (left =? 0) eqn:E; [lia|].
    destruct Hs as [Ha Hs]. cbn [fst] in Ha, Hs.
    destruct (a <=? 0) eqn:Ea.
    + destruct ((a =? -1) && e) eqn:Hi.
      * destruct (0 <? a) eqn:Ep; [lia|].
        apply IH in H; try assumption.
        destruct H as [[Hv Hex]|[[Hv Hex]|Hv]].
        -- left. split; [exact Hv|]. now apply Exists_cons_tl.
        -- right; left. split; [exact Hv|]. now apply Exists_cons_tl.
        -- right; right. exact Hv.
      * injection H as <-. destruct (a <? 0) eqn:En.
        -- left. split; [lia|]. apply Exists_cons_hd.
           unfold interrupted. cbn [fst snd]. split; [lia|exact Hi].
        -- right; left. split; [lia|]. apply Exists_cons_hd. cbn. lia.
    + destruct (0 <? a) eqn:Ep; [|lia].
      rewrite (s32_small (left - a)) in H by lia.
      rewrite (s32_small (ret + a)) in H by lia.
      destruct (Z.eq_dec (left - a) 0) as [Hz|Hnz].
      * rewrite Hz in H. destruct answers as [|[a' e'] answers'];
          cbn in H; destruct (a <? 0) eqn:En; try lia;
          injection H as <-; right; right; lia.
      * apply IH in H; try assumption; try lia.
        destruct H as [[Hv Hex]|[[Hv Hex]|Hv]].
        -- left. split; [exact Hv|]. now apply Exists_cons_tl.
        -- right; left. split; [lia|]. now apply Exists_cons_tl.
        -- right; right. lia.
Qed.

Lemma Read_loop_done (answers : list (Z * bool)) (ret r : Z) :
  Read_loop answers 0 ret r = Some (if r <? 0 then r else ret).
Proof. destruct answers; reflexivity. Qed.

Lemma bytes_read_nonneg (answers : list (Z * bool)) : 0 <= bytes_read answers.
Proof.
  induction answers as [|a answers IH]; cbn; [lia|].
  fold (bytes_read answers). destruct (0 <? fst a) eqn:E; [|lia].
  apply Z.ltb_lt in E. lia.
Qed.

(** A run of answers that report bytes or are interrupted, short of
    [left] bytes, followed by an answer that ends the read. *)
Lemma Read_loop_stops (pre : list (Z * bool)) (a : Z * bool)
    (post : list (Z * bool)) :
  forall left ret r,
    0 <= ret -> ret + left < 2 ^ 31 ->
    Forall read_goes_on pre -> bytes_read pre < left ->
    fst a <= 0 -> interrupted a = false ->
    Read_loop (pre ++ a :: post) left ret r
    = Some (if fst a <? 0 then fst a else ret + bytes_read pre).
Proof.
  induction pre as [|[p e] pre IH]; intros left ret r Hr Hb Hpre Hsum Ha Hi;
    cbn [app Read_loop bytes_read fold_right fst] in *.
  - destruct a as [a e]. cbn [fst] in *.
    destruct (Z.eqb_spec left 0); [lia|].
    destruct (Z.leb_spec a 0); [|lia].
    unfold interrupted in Hi. cbn [fst snd] in Hi. rewrite Hi.
    now rewrite Z.add_0_r.
  - inversion Hpre as [|? ? Hp Hrest]; subst.
    fold (bytes_read pre) in *.
    pose proof (bytes_read_nonneg pre) as Hnn.
    destruct (Z.ltb_spec 0 p) as [Hpos|Hneg].
    + destruct (Z.eqb_spec left 0); [lia|].
      destruct (Z.leb_spec p 0); [lia|].
      rewrite (s32_small (left - p)) by lia.
      rewrite (s32_small (ret + p)) by lia.
      rewrite IH by (try assumption; lia).
      rewrite Z.add_assoc. reflexivity.
    + destruct Hp as [Hp|Hp]; [cbn [fst] in Hp; lia|].
      unfold interrupted in Hp. cbn [fst snd] in Hp.
      destruct (Z.eqb_spec left 0); [lia|].
      destruct (Z.leb_spec p 0); [|lia].
      rewrite Hp.
      rewrite IH by (try assumption; lia).
      rewrite Z.add_0_l. reflexivity.
Qed.

(** A run of answers that report bytes or are interrupted and add up to
    [left]. *)
Lemma Read_loop_fills (pre post : list (Z * bool)) :
  forall left ret r,
    0 <= ret -> 0 < left -> ret + left < 2 ^ 31 ->
    Forall read_goes_on pre -> bytes_read pre = left ->
    Read_loop (pre ++ post) left ret r = Some (ret + left).
Proof.
  induction pre as [|[p e] pre IH]; intros left ret r Hr Hl Hb Hpre Hsum;
    cbn [app Read_loop bytes_read fold_right fst] in *.
  - lia.
  - inversion Hpre as [|? ? Hp Hrest]; subst.
    fold (bytes_read pre) in *.
    pose proof (bytes_read_nonneg pre) as Hnn.
    destruct (Z.ltb_spec 0 p) as [Hpos|Hneg].
    + destruct (Z.eqb_spec (p + bytes_read pre) 0); [lia|].
      destruct (Z.leb_spec p 0); [lia|].
      rewrite (s32_small (p + bytes_read pre - p)) by lia.
      rewrite (s32_small (ret + p)) by lia.
      destruct (Z.eq_dec (bytes_read pre) 0) as [Hz|Hnz].
      * replace (p + bytes_read pre - p) with 0 by lia.
        rewrite Read_loop_done.
        destruct (Z.ltb_spec p 0); [lia|]. f_equal. lia.
      * rewrite IH by (try assumption; lia). f_equal. lia.
    + destruct Hp as [Hp|Hp]; [cbn [fst] in Hp; lia|].
      unfold interrupted in Hp. cbn [fst snd] in Hp.
      destruct (Z.eqb_spec (0 + bytes_read pre) 0); [lia|].
      destruct (Z.leb_spec p 0); [|lia].
      rewrite Hp.
      rewrite IH by (try assumption; lia). reflexivity.
Qed.

(** X3.  What [ZonedBlockDevice::Read] returns.  A read of zero bytes
    returns [-1] without asking the backend.  For [0 < n < 2^31] and a
    backend that never reports more than it was asked to read, the result
    is [n], or a count below [n] after the backend reported the end of the
    data (0), or the negative answer of a failed call (the bytes read
    before it are not reported).  The call returns as soon as the backend
    gives an answer that is neither a count nor an interruption, with the
    bytes reported so far if that answer is 0 and with the answer itself
    if it is negative; and it returns [n] once the counts add up to
    [n]. *)
Theorem Read_result (answers : list (Z * bool)) (n : Z) :
  (n = 0 -> Read answers n = Some (-1)) /\
  (0 <= n < 2 ^ 31 -> short_reads n answers ->
   (forall v,
      Read answers n = Some v ->
      (n = 0 /\ v = -1) \/
      (0 < n /\
       ((v < 0 /\
         Exists (fun a => fst a < 0 /\ interrupted a = false) answers) \/
        (0 <= v < n /\ Exists (fun a => fst a = 0) answers) \/
        v = n))) /\
   (forall pre a post,
      answers = pre ++ a :: post -> Forall read_goes_on pre ->
      bytes_read pre < n -> fst a <= 0 -> interrupted a = false ->
      Read answers n = Some (if fst a <? 0 then fst a else bytes_read pre)) /\
   (forall pre post,
      answers = pre ++ post -> Forall read_goes_on pre ->
      bytes_read pre = n -> 0 < n ->
      Read answers n = Some n)).
Proof.
  split.
  { intros ->. unfold Read. apply Read_loop_done. }
  intros Hn Hs. split; [|split].
  - intros v H. unfold Read in H.
    destruct (Z.eq_dec n 0) as [->|Hne].
    + left. split; [reflexivity|].
      rewrite Read_loop_done in H. injection H as <-. reflexivity.
    + right. split; [lia|].
      apply Read_loop_result in H; try assumption; try lia.
  - intros pre a post -> Hpre Hsum Ha Hi. unfold Read.
    rewrite Read_loop_stops by (try assumption; lia). reflexivity.
  - intros pre post -> Hpre Hsum Hpos. unfold Read.
    rewrite Read_loop_fills by (try assumption; lia). reflexivity.
Qed.

Lemma Read_result_witness :
  Read [(4096, false); (-1, true); (0, false)] 8192 = Some 4096.
Proof.
  destruct (Read_result [(4096, false); (-1, true); (0, false)] 8192)
    as (_ & Hrun).
  destruct Hrun as (_ & Hstop & _).
  - vm_compute. split; [discriminate|reflexivity].
  - cbn. lia.
  - apply (Hstop [(4096, false); (-1, true)] (0, false) []).
    + reflexivity.
    + constructor; [left; reflexivity|].
      constructor; [right; reflexivity|constructor].
    + reflexivity.
    + cbn. lia.
    + reflexivity.
Defined.

(** ** Finding the zone of an offset *)

Lemma GetIOZone_from_spec (be : Backend) (offset : Z) (zones : list Zone) :
  forall k,
    match GetIOZone_from be offset zones k with
    | Some i =>
        (k <= i)%nat /\
        exists z,
          zones !! (i - k)%nat = Some z /\
          start_ z <= offset < u64 (start_ z + be_ZoneSize be)
    | None =>
        Forall (fun z => ~ start_ z <= offset < u64 (start_ z + be_ZoneSize be))
               zones
    end.
Proof.
  induction zones as [|z zones IH]; intros k; cbn [GetIOZone_from].
  - constructor.
  - destruct ((start_ z <=? offset) && (offset <? u64 (start_ z + be_ZoneSize be)))
      eqn:E.
    + split; [lia|]. exists z. rewrite Nat.sub_diag. split; [reflexivity|].
      apply andb_prop in E as [E1 E2]. lia.
    + specialize (IH (S k)).
      destruct (GetIOZone_from be offset zones (S k)) as [i|].
      * destruct IH as [Hle (z' & Hz' & Hin)]. split; [lia|].
        exists z'. split; [|exact Hin].
        replace (i - k)%nat with (S (i - S k)) by lia. exact Hz'.
      * constructor; [|exact IH].
        apply andb_false_iff in E as [E|E]; lia.
Qed.

(** X4.  On a device whose io zones start at multiples of a positive zone
    size, [GetIOZone] finds for an offset the io zone whose span holds it,
    and that zone's number ([GetZoneNr]) is [offset / zone_size]; it
    returns null exactly when no io zone holds the offset. *)
Theorem GetIOZone_zone_nr (be : Backend) (offset : Z) (d : Device) :
  0 < be_ZoneSize be ->
  Forall (zone_aligned be) (io_zones d) ->
  match GetIOZone be offset d with
  | Some i =>
      exists z,
        io_zones d !! i = Some z /\
        start_ z <= offset < start_ z + be_ZoneSize be /\
        GetZoneNr be z = offset / be_ZoneSize be
  | None =>
      forall z, z ∈ io_zones d ->
        ~ start_ z <= offset < start_ z + be_ZoneSize be
  end.
Proof.
  intros Hzs Hal. unfold GetIOZone.
  pose proof (GetIOZone_from_spec be offset (io_zones d) 0) as H.
  destruct (GetIOZone_from be offset (io_zones d) 0) as [i|].
  - destruct H as [_ (z & Hz & Hin)]. rewrite Nat.sub_0_r in Hz.
    exists z. split; [exact Hz|].
    destruct (Forall_lookup_1 _ _ _ _ Hal Hz) as [(k & Hk & Hstart) Hend].
    rewrite u64_small in Hin by lia. split; [exact Hin|].
    unfold GetZoneNr. rewrite Hstart in *.
    rewrite Z.div_mul by lia.
    apply Z.div_unique with (r := offset - k * be_ZoneSize be); lia.
  - intros z Hz. rewrite list.Forall_forall in H, Hal.
    specialize (H z Hz). destruct (Hal z Hz) as [(k & Hk & Hstart) Hend].
    rewrite u64_small in H by lia. exact H.
Qed.

Lemma GetIOZone_zone_nr_witness :
  exists z,
    io_zones dev_open_ex !! 1%nat = Some z /\
    GetZoneNr be_ex z = (4 * zone_size_ex + 4096) / be_ZoneSize be_ex.
Proof.
  assert (Hzs : 0 < be_ZoneSize be_ex) by reflexivity.
  assert (Hal : Forall (zone_aligned be_ex) (io_zones dev_open_ex)).
  { repeat constructor.
    - exists 3. split; [lia|reflexivity].
    - exists 4. split; [lia|reflexivity].
    - exists 5. split; [lia|reflexivity]. }
  pose proof (GetIOZone_zone_nr be_ex (4 * zone_size_ex + 4096) dev_open_ex
                Hzs Hal) as H.
  change (GetIOZone be_ex (4 * zone_size_ex + 4096) dev_open_ex)
    with (Some 1%nat) in H.
  destruct H as (z & Hz & _ & Hnr). exists z. split; assumption.
Defined.

(** ** Saving and restoring the reset counts *)

Lemma set_io_zones_id (d : Device) : set_io_zones (io_zones d) d = d.
Proof. destruct d. reflexivity. Qed.

(** X5.  The reset counts survive a round trip through the array:
    [SetIOZonesResetCount] applied to what [GetIOZonesResetCountArray]
    returned gives the device back, and after [SetIOZonesResetCount] of an
    array with an entry for every io zone, [GetIOZonesResetCountArray]
    returns those entries, the zones being otherwise as before. *)
Theorem reset_count_array_round_trip (d : Device) (reset_count : list Z) :
  SetIOZonesResetCount (GetIOZonesResetCountArray d) d = d /\
  ((length (io_zones d) <= length reset_count)%nat ->
   GetIOZonesResetCountArray (SetIOZonesResetCount reset_count d) =
     take (length (io_zones d)) reset_count /\
   forall i z,
     io_zones d !! i = Some z ->
     exists v,
       reset_count !! i = Some v /\
       io_zones (SetIOZonesResetCount reset_count d) !! i =
         Some (set_reset_count v z)).
Proof.
  unfold SetIOZonesResetCount, GetIOZonesResetCountArray. split.
  - rewrite <- (set_io_zones_id d) at 3. f_equal.
    apply list_eq. intros i. rewrite list_lookup_imap.
    destruct (io_zones d !! i) as [z|] eqn:E; [|reflexivity].
    cbn. rewrite list_lookup_fmap, E. cbn. destruct z; reflexivity.
  - intros Hlen. split.
    + apply list_eq. intros i. cbn [io_zones set_io_zones].
      rewrite list_lookup_fmap, list_lookup_imap, lookup_take.
      destruct (io_zones d !! i) as [z|] eqn:E; cbn.
      * apply lookup_lt_Some in E as Hi.
        destruct (decide (i < length (io_zones d))%nat); [|lia].
        destruct (lookup_lt_is_Some_2 reset_count i) as [v Hv]; [lia|].
        rewrite Hv. reflexivity.
      * apply lookup_ge_None in E.
        destruct (decide (i < length (io_zones d))%nat); [lia|reflexivity].
    + intros i z Hz. apply lookup_lt_Some in Hz as Hi.
      destruct (lookup_lt_is_Some_2 reset_count i) as [v Hv]; [lia|].
      exists v. split; [exact Hv|]. cbn [io_zones set_io_zones].
      rewrite list_lookup_imap, Hz. cbn. rewrite Hv. reflexivity.
Qed.

(** ** The source zone of a migration *)

Lemma least_reset_step_eligible (all : list Zone) (k : nat) (z : Zone)
    (acc : option nat * Z) :
  least_reset_step all k z acc =
  if least_reset_eligible z then
    if match fst acc with
       | None => true
       | Some a =>
           (least_reset_score z <? snd acc)
           || ((least_reset_score z =? snd acc)
               && (match all !! a with
                   | Some za => GetZoneReclaimableSpace za
                   | None => 0
                   end <? GetZoneReclaimableSpace z))
       end
    then (Some k, least_reset_score z) else acc
  else acc.
Proof.
  unfold least_reset_step, least_reset_eligible, least_reset_score.
  destruct (IsEmpty z), (IsUsed z), (bool_decide (lifetime_ z = WLTH_EXTREME)),
    (GetZoneReclaimableSpace z =? 0); reflexivity.
Qed.

Lemma least_reset_scan_spec (all : list Zone) :
  forall suf pre acc,
    all = pre ++ suf ->
    is_least_reset all (length pre) acc ->
    is_least_reset all (length all)
      (least_reset_scan all suf (length pre) acc).
Proof.
  induction suf as [|z suf IH]; intros pre acc Hall Hacc.
  - rewrite Hall, app_nil_r. rewrite Hall, app_nil_r in Hacc. exact Hacc.
  - cbn [least_reset_scan].
    assert (Hk : all !! length pre = Some z).
    { rewrite Hall. apply list_lookup_middle. reflexivity. }
    specialize (IH (pre ++ [z])).
    rewrite length_app in IH. cbn [length] in IH.
    replace (length pre + 1)%nat with (S (length pre)) in IH by lia.
    apply IH; [rewrite Hall, <- app_assoc; reflexivity|].
    clear IH. rewrite least_reset_step_eligible.
    destruct acc as [[a|] sc]; unfold is_least_reset in *; cbn [fst snd] in *.
    + destruct Hacc as (Ha & za & Hza & Hea & Hsc & Hmin).
      rewrite Hza. subst sc.
      destruct (least_reset_eligible z) eqn:He.
      * destruct ((least_reset_score z <? least_reset_score za)
                  || ((least_reset_score z =? least_reset_score za)
                      && (GetZoneReclaimableSpace za <? GetZoneReclaimableSpace z)))
          eqn:Hb; cbn [fst snd].
        -- assert (Hbefore : least_reset_before z za).
           { unfold least_reset_before.
             apply orb_prop in Hb as [Hb|Hb]; [left; lia|].
             apply andb_prop in Hb as [Hb1 Hb2]. right. lia. }
           split; [lia|]. exists z. split; [exact Hk|].
           split; [exact He|]. split; [reflexivity|].
           intros j zj Hj Hzj Hej.
           destruct (decide (j = length pre)) as [->|Hne].
           { rewrite Hk in Hzj. injection Hzj as <-.
             split; [|lia]. unfold least_reset_before. lia. }
           destruct (Hmin j zj ltac:(lia) Hzj Hej) as [Hn Hlt].
           unfold least_reset_before in *.
           split; [lia|]. intros _.
           destruct (decide (j < a)%nat) as [Hja|Hja]; [specialize (Hlt Hja); lia|].
           lia.
        -- split; [lia|]. exists za. split; [exact Hza|].
           split; [exact Hea|]. split; [reflexivity|].
           intros j zj Hj Hzj Hej.
           destruct (decide (j = length pre)) as [->|Hne].
           { rewrite Hk in Hzj. injection Hzj as <-.
             split; [|lia]. unfold least_reset_before.
             apply orb_false_elim in Hb as [Hb1 Hb2].
             apply andb_false_iff in Hb2. lia. }
           apply (Hmin j zj); [lia|assumption|assumption].
      * split; [lia|]. exists za. split; [exact Hza|].
        split; [exact Hea|]. split; [reflexivity|].
        intros j zj Hj Hzj Hej.
        destruct (decide (j = length pre)) as [->|Hne].
        { rewrite Hk in Hzj. injection Hzj as <-. congruence. }
        apply (Hmin j zj); [lia|assumption|assumption].
    + destruct (least_reset_eligible z) eqn:He; cbn [fst snd].
      * split; [lia|]. exists z. split; [exact Hk|].
        split; [exact He|]. split; [reflexivity|].
        intros j zj Hj Hzj Hej.
        destruct (decide (j = length pre)) as [->|Hne].
        { rewrite Hk in Hzj. injection Hzj as <-.
          split; [|lia]. unfold least_reset_before. lia. }
        rewrite (Hacc j zj) in Hej by (lia || assumption). discriminate.
      * intros j zj Hj Hzj.
        destruct (decide (j = length pre)) as [->|Hne].
        { rewrite Hk in Hzj. injection Hzj as <-. exact He. }
        apply (Hacc j zj); [lia|assumption].
Qed.

(** X6.  [GetLeastResetCountZone] takes no busy flag and changes nothing.
    The zones it considers are the io zones that are not empty, have live
    data, carry the [EXTREME] hint and have reclaimable space; with none it
    returns [NotFound] and null.  Otherwise it returns [OK] and the first
    zone, in the order of [io_zones], that is minimal for the score
    [reset_count * max_capacity / reclaimable] and, among equal scores,
    maximal for the reclaimable space. *)
Theorem GetLeastResetCountZone_spec (d : Device) :
  match GetLeastResetCountZone d with
  | (st, Some a) =>
      st = OK /\
      exists za,
        io_zones d !! a = Some za /\
        least_reset_eligible za = true /\
        forall j zj,
          io_zones d !! j = Some zj -> least_reset_eligible zj = true ->
          ~ least_reset_before zj za /\
          ((j < a)%nat -> least_reset_before za zj)
  | (st, None) =>
      st = NotFound /\
      forall j zj, io_zones d !! j = Some zj -> least_reset_eligible zj = false
  end.
Proof.
  unfold GetLeastResetCountZone.
  pose proof (least_reset_scan_spec (io_zones d) (io_zones d) [] (None, 0)
                eq_refl) as H.
  cbn [length] in H.
  assert (H0 : is_least_reset (io_zones d) 0 (None, 0)).
  { intros j zj Hj. lia. }
  specialize (H H0). unfold is_least_reset in H.
  destruct (least_reset_scan (io_zones d) (io_zones d) 0 (None, 0))
    as [[a|] sc]; cbn [fst snd] in *.
  - split; [reflexivity|].
    destruct H as (_ & za & Hza & Hea & _ & Hmin).
    exists za. split; [exact Hza|]. split; [exact Hea|].
    intros j zj Hzj Hej. apply (Hmin j zj); try assumption.
    eapply lookup_lt_Some; eassumption.
  - split; [reflexivity|]. intros j zj Hzj.
    apply (H j zj); [|exact Hzj]. eapply lookup_lt_Some; eassumption.
Qed.

(** ** What Open builds *)

Lemma Open_meta_loop_zones (zone_rep : list ZoneDesc) :
  forall m meta,
    m <= ZENFS_META_ZONES ->
    fst (Open_meta_loop zone_rep m meta)
      ++ (new_Zone <$> List.filter zd_usable (snd (Open_meta_loop zone_rep m meta)))
    = meta ++ (new_Zone <$> List.filter zd_usable zone_rep) /\
    (length (fst (Open_meta_loop zone_rep m meta))
     <= length meta + Z.to_nat (ZENFS_META_ZONES - m))%nat.
Proof.
  induction zone_rep as [|zd rest IH]; intros m meta Hm; cbn [Open_meta_loop].
  - cbn. split; [reflexivity|lia].
  - destruct (m <? ZENFS_META_ZONES) eqn:E.
    + cbn [List.filter]. unfold zd_usable at 2.
      destruct (zd_swr zd); cbn [andb].
      * destruct (IH (m + 1)
                    (if negb (zd_offline zd) then meta ++ [new_Zone zd] else meta))
          as [H1 H2]; [lia|].
        rewrite H1. destruct (zd_offline zd); cbn [negb] in *.
        -- split; [reflexivity|]. unfold ZENFS_META_ZONES in *. lia.
        -- split; [rewrite <- app_assoc; reflexivity|].
           rewrite length_app in H2. cbn in H2.
           unfold ZENFS_META_ZONES in *. lia.
      * destruct (IH m meta Hm) as [H1 H2]. split; assumption.
    + cbn [fst snd]. split; [reflexivity|lia].
Qed.

Lemma Acquire_Release_new (be : Backend) (zd : ZoneDesc) (close : bool) :
  CheckRelease
    (if close then snd (Zone_Close be (snd (Acquire (new_Zone zd))))
     else snd (Acquire (new_Zone zd)))
  = (OK, new_Zone zd).
Proof.
  assert (Hb : busy_ (new_Zone zd) = false).
  { unfold new_Zone. destruct (zd_writable zd); reflexivity. }
  assert (Hc : forall z, snd (Zone_Close be z) = z).
  { intros z. unfold Zone_Close.
    destruct (negb (IsEmpty z || IsFull z)); [|reflexivity].
    destruct (negb (bool_decide (be_Close be (start_ z) = OK))); reflexivity. }
  unfold Acquire. rewrite Hb. cbn [snd]. rewrite Hc.
  destruct close; unfold CheckRelease, Release; cbn;
    now rewrite set_busy_roundtrip.
Qed.

(** The second loop of [Open] cannot fail: it appends one idle zone for
    each usable zone of the listing and only counts the active ones. *)
Lemma Open_io_loop_zones (be : Backend) (readonly : bool)
    (zone_rep : list ZoneDesc) :
  forall d,
    exists active,
      Open_io_loop be readonly zone_rep d =
      (OK, set_active_io_zones active
             (set_io_zones
                (io_zones d ++ (new_Zone <$> List.filter zd_usable zone_rep)) d)).
Proof.
  induction zone_rep as [|zd rest IH]; intros d; cbn [Open_io_loop].
  - exists (active_io_zones_ d). cbn. rewrite app_nil_r.
    destruct d; reflexivity.
  - cbn [List.filter]. fold (zd_usable zd).
    destruct (zd_usable zd) eqn:Eu.
    + assert (Hb : busy_ (new_Zone zd) = false).
      { unfold new_Zone. destruct (zd_writable zd); reflexivity. }
      pose proof (Acquire_Release_new be zd
                    (zd_active zd && zd_open zd && negb readonly)) as Hrel.
      unfold Acquire in *. rewrite Hb in *. cbn [negb snd] in *.
      rewrite Hrel. cbn [ok negb].
      match goal with
      | |- context [Open_io_loop be readonly rest ?d1] =>
          destruct (IH d1) as [active ->]
      end.
      exists active. f_equal.
      destruct (zd_active zd); destruct d; cbn;
        unfold set_active_io_zones, set_io_zones; cbn;
        rewrite <- app_assoc; reflexivity.
    + apply IH.
Qed.

Lemma new_Zone_inv (zd : ZoneDesc) :
  zd_sane zd -> zone_inv (new_Zone zd) /\ zone_in_range (new_Zone zd).
Proof.
  intros (H1 & H2 & H3 & H4). unfold new_Zone, zone_inv, zone_in_range.
  destruct (zd_writable zd); cbn.
  - rewrite (u64_small (zd_wp zd - zd_start zd)) by lia.
    rewrite u64_small by lia. lia.
  - lia.
Qed.

(** What a successful [Open] of a device without zones leaves behind. *)
Lemma Open_OK_inv (be : Backend) (readonly exclusive : bool) (d d' : Device) :
  meta_zones d = [] -> io_zones d = [] ->
  Open be readonly exclusive d = (OK, d') ->
  exists zone_rep max_active max_open,
    be_ListZones be = Some zone_rep /\
    be_Open be readonly exclusive = (OK, max_active, max_open) /\
    Z.of_nat (length zone_rep) = be_NrZones be /\
    ZENFS_MIN_ZONES <= be_NrZones be /\
    meta_zones d' ++ io_zones d' = new_Zone <$> List.filter zd_usable zone_rep /\
    (length (meta_zones d') <= 3)%nat /\
    max_nr_active_io_zones_ d' =
      (if max_active =? 0 then be_NrZones be else u32 (max_active - 2)) /\
    max_nr_open_io_zones_ d' =
      (if max_open =? 0 then be_NrZones be else u32 (max_open - 2)).
Proof.
  intros Hm Hi H. unfold Open in H.
  destruct (negb readonly && negb exclusive); [discriminate|].
  destruct (be_Open be readonly exclusive) as [[ios ma] mo].
  destruct (bool_decide_reflect (ios = OK)) as [->|Hne]; cbn [negb] in H;
    [|injection H as H _; congruence].
  destruct (be_NrZones be <? ZENFS_MIN_ZONES) eqn:Enr; [discriminate|].
  destruct (be_ListZones be) as [zone_rep|]; [|discriminate].
  destruct (negb (Z.of_nat (length zone_rep) =? be_NrZones be)) eqn:El;
    [discriminate|].
  cbn [meta_zones set_max_nr_open_io_zones set_max_nr_active_io_zones] in H.
  rewrite Hm in H.
  destruct (Open_meta_loop_zones zone_rep 0 []) as [Hz Hlen];
    [unfold ZENFS_META_ZONES; lia|].
  destruct (Open_meta_loop zone_rep 0 []) as [meta rest]. cbn [fst snd] in *.
  match type of H with
  | Open_io_loop be readonly rest ?d4 = _ =>
      destruct (Open_io_loop_zones be readonly rest d4) as [active Hloop]
  end.
  rewrite Hloop in H. injection H as <-.
  apply negb_false_iff, Z.eqb_eq in El.
  unfold ZENFS_META_ZONES in Hlen. cbn in Hlen, Hz.
  exists zone_rep, ma, mo. cbn. rewrite Hi. cbn.
  repeat split; try reflexivity; try assumption; lia.
Qed.

(** X7.  A successful [Open] of a device without zones turns every zone of
    the listing that is sequential-write required and not offline into
    exactly one [Zone], in the order of the listing, the metadata zones (at
    most three) first; none of them is left busy.  The listing has the
    number of zones the backend announced, at least [ZENFS_MIN_ZONES]. *)
Theorem Open_zones (be : Backend) (readonly exclusive : bool) (d d' : Device) :
  meta_zones d = [] -> io_zones d = [] ->
  Open be readonly exclusive d = (OK, d') ->
  exists zone_rep,
    be_ListZones be = Some zone_rep /\
    Z.of_nat (length zone_rep) = be_NrZones be /\
    32 <= be_NrZones be /\
    meta_zones d' ++ io_zones d' = new_Zone <$> List.filter zd_usable zone_rep /\
    (length (meta_zones d') <= 3)%nat /\
    Forall (fun z => busy_ z = false) (meta_zones d' ++ io_zones d').
Proof.
  intros Hm Hi H.
  destruct (Open_OK_inv be readonly exclusive d d' Hm Hi H)
    as (zone_rep & ma & mo & HL & _ & Hlen & Hmin & Hz & Hmeta & _).
  exists zone_rep. repeat split; try assumption.
  rewrite Hz. apply list.Forall_forall. intros z Hin.
  apply list_elem_of_fmap in Hin as (zd & -> & _).
  unfold new_Zone. destruct (zd_writable zd); reflexivity.
Qed.

Lemma Open_zones_witness :
  exists d',
    Open be_listing_ex false true dev_new = (OK, d') /\
    (length (meta_zones d') <= 3)%nat /\
    Forall (fun z => busy_ z = false) (meta_zones d' ++ io_zones d').
Proof.
  destruct (Open be_listing_ex false true dev_new) as [st d'] eqn:E.
  assert (Hst : st = OK).
  { apply (f_equal fst) in E. vm_compute in E. congruence. }
  subst st. exists d'. split; [reflexivity|].
  destruct (Open_zones be_listing_ex false true dev_new d' eq_refl eq_refl E)
    as (zone_rep & _ & _ & _ & _ & Hm & Hb).
  split; assumption.
Defined.

(** X8.  [Open] fails only before it has created a zone: on every status
    other than [OK] the zone vectors and the token counts are as before,
    and the status is [InvalidArgument] for a write open that is not
    exclusive, the status of the backend's own [Open], [NotSupported] for
    fewer than 32 zones, or [IOError] for a listing that is missing or of
    the wrong length.  Once the listing is accepted [Open] succeeds: its
    busy-flag checks on the zones it creates never fail. *)
Theorem Open_failure (be : Backend) (readonly exclusive : bool)
    (d d' : Device) (st : IOStatus) :
  Open be readonly exclusive d = (st, d') -> st <> OK ->
  meta_zones d' = meta_zones d /\ io_zones d' = io_zones d /\
  open_io_zones_ d' = open_io_zones_ d /\
  active_io_zones_ d' = active_io_zones_ d /\
  ((readonly = false /\ exclusive = false /\ st = InvalidArgument) \/
   st = fst (fst (be_Open be readonly exclusive)) \/
   (st = NotSupported /\ be_NrZones be < 32) \/
   (st = IOError /\
    forall zone_rep, be_ListZones be = Some zone_rep ->
      Z.of_nat (length zone_rep) <> be_NrZones be)).
Proof.
  unfold Open. intros H Hst.
  destruct (negb readonly && negb exclusive) eqn:Ea.
  { injection H as <- <-. repeat split. left.
    destruct readonly, exclusive; try discriminate. repeat split. }
  destruct (be_Open be readonly exclusive) as [[ios ma] mo]. cbn [fst].
  destruct (bool_decide_reflect (ios = OK)) as [->|Hne]; cbn [negb] in H.
  2:{ injection H as <- <-. repeat split. right; left. reflexivity. }
  destruct (be_NrZones be <? ZENFS_MIN_ZONES) eqn:Enr.
  { injection H as <- <-. repeat split. right; right; left.
    unfold ZENFS_MIN_ZONES in Enr. split; [reflexivity|lia]. }
  destruct (be_ListZones be) as [zone_rep|].
  2:{ injection H as <- <-. repeat split. right; right; right.
      split; [reflexivity|]. intros zr Hzr. discriminate. }
  destruct (negb (Z.of_nat (length zone_rep) =? be_NrZones be)) eqn:El.
  { injection H as <- <-. repeat split. right; right; right.
    split; [reflexivity|]. intros zr Hzr. injection Hzr as <-.
    apply negb_true_iff, Z.eqb_neq in El. exact El. }
  destruct (Open_meta_loop zone_rep 0 _) as [meta rest].
  match type of H with
  | Open_io_loop be readonly rest ?d4 = _ =>
      destruct (Open_io_loop_zones be readonly rest d4) as [active Hloop]
  end.
  rewrite Hloop in H. injection H as <- _. contradiction.
Qed.

Lemma Open_failure_witness :
  Open be_ex false true dev_new =
  (IOError, set_max_nr_open_io_zones 12 (set_max_nr_active_io_zones 12 dev_new)).
Proof.
  assert (E : Open be_ex false true dev_new =
              (IOError,
               set_max_nr_open_io_zones 12 (set_max_nr_active_io_zones 12 dev_new)))
    by reflexivity.
  destruct (Open_failure be_ex false true dev_new _ IOError E)
    as (_ & _ & _ & _ & _); [discriminate|].
  exact E.
Defined.

(** X9.  After a successful [Open] of a device without zones, on a listing
    whose zones have their write pointer inside their capacity and their
    capacity inside the address space, every zone of the device satisfies
    the zone invariant: [start <= wp <= start + max_capacity], and
    [capacity = max_capacity - (wp - start)] unless the zone is full. *)
Theorem Open_establishes_zone_inv (be : Backend) (readonly exclusive : bool)
    (d d' : Device) (zone_rep : list ZoneDesc) :
  meta_zones d = [] -> io_zones d = [] ->
  be_ListZones be = Some zone_rep -> Forall zd_sane zone_rep ->
  Open be readonly exclusive d = (OK, d') ->
  Forall (fun z => zone_inv z /\ zone_in_range z)
         (meta_zones d' ++ io_zones d').
Proof.
  intros Hm Hi HL Hsane H.
  destruct (Open_OK_inv be readonly exclusive d d' Hm Hi H)
    as (zone_rep' & ma & mo & HL' & _ & _ & _ & Hz & _).
  rewrite HL in HL'. injection HL' as <-.
  rewrite Hz. apply list.Forall_forall. intros z Hin.
  apply list_elem_of_fmap in Hin as (zd & -> & Hzd).
  apply new_Zone_inv.
  rewrite list.Forall_forall in Hsane. apply Hsane.
  apply list_elem_of_In in Hzd. apply filter_In in Hzd as [Hzd _].
  apply list_elem_of_In. exact Hzd.
Qed.

(** X10.  The limits a successful [Open] sets: a backend limit of 0 means
    no limit and becomes the number of zones; any other limit is reduced
    by the two reserved zones, in 32-bit unsigned arithmetic (so a backend
    limit of 1 becomes 4294967295). *)
Theorem Open_limits (be : Backend) (readonly exclusive : bool)
    (d d' : Device) (max_active max_open : Z) :
  meta_zones d = [] -> io_zones d = [] ->
  be_Open be readonly exclusive = (OK, max_active, max_open) ->
  Open be readonly exclusive d = (OK, d') ->
  max_nr_active_io_zones_ d' =
    (if max_active =? 0 then be_NrZones be else u32 (max_active - 2)) /\
  max_nr_open_io_zones_ d' =
    (if max_open =? 0 then be_NrZones be else u32 (max_open - 2)) /\
  (max_active = 1 -> max_nr_active_io_zones_ d' = 4294967295).
Proof.
  intros Hm Hi Hbe H.
  destruct (Open_OK_inv be readonly exclusive d d' Hm Hi H)
    as (zone_rep' & ma & mo & _ & Hbe' & _ & _ & _ & _ & Ha & Ho).
  rewrite Hbe in Hbe'. injection Hbe' as <- <-.
  split; [exact Ha|]. split; [exact Ho|].
  intros ->. rewrite Ha. reflexivity.
Qed.

Lemma listing_ex_sane : Forall zd_sane listing_ex.
Proof.
  unfold listing_ex. cbn [map seq app].
  repeat (constructor; [repeat split; vm_compute; discriminate|]).
  constructor.
Qed.

Lemma Open_establishes_zone_inv_witness :
  exists d',
    Open be_listing_ex false true dev_new = (OK, d') /\
    Forall (fun z => zone_inv z /\ zone_in_range z)
           (meta_zones d' ++ io_zones d').
Proof.
  destruct (Open be_listing_ex false true dev_new) as [st d'] eqn:E.
  assert (Hst : st = OK).
  { apply (f_equal fst) in E. vm_compute in E. congruence. }
  subst st. exists d'. split; [reflexivity|].
  exact (Open_establishes_zone_inv be_listing_ex false true dev_new d'
           listing_ex eq_refl eq_refl eq_refl listing_ex_sane E).
Defined.

Lemma Open_limits_witness :
  exists d',
    Open be_listing_ex false true dev_new = (OK, d') /\
    max_nr_active_io_zones_ d' = 12 /\ max_nr_open_io_zones_ d' = 12.
Proof.
  destruct (Open be_listing_ex false true dev_new) as [st d'] eqn:E.
  assert (Hst : st = OK).
  { apply (f_equal fst) in E. vm_compute in E. congruence. }
  subst st. exists d'. split; [reflexivity|].
  destruct (Open_limits be_listing_ex false true dev_new d' 14 14
              eq_refl eq_refl eq_refl E) as (Ha & Ho & _).
  split; assumption.
Defined.

(** ** Frames of the zone operations *)

Lemma zone_Acquire_spec (r : ZoneRef) (d : Device) :
  match zone_at d r with
  | Some z =>
      zone_Acquire r d =
      (negb (busy_ z), if busy_ z then d else set_zone r (set_busy true z) d)
  | None => zone_Acquire r d = (false, d)
  end.
Proof.
  unfold zone_Acquire. destruct (zone_at d r) as [z|] eqn:E; [|reflexivity].
  unfold Acquire. destruct (busy_ z); [|reflexivity].
  cbn [negb]. now rewrite set_zone_id.
Qed.

Lemma wl_trigger_tokens (be : Backend) (d d' : Device) :
  wl_trigger be d = Some d' -> tokens_kept d d'.
Proof.
  revert d'. wl_trigger_cases; intros d' H; try discriminate;
    injection H as <-; repeat split.
Qed.

Lemma length_zones_set_zone (r : ZoneRef) (z : Zone) (d : Device) :
  length (meta_zones (set_zone r z d)) = length (meta_zones d) /\
  length (io_zones (set_zone r z d)) = length (io_zones d).
Proof.
  destruct r; unfold set_zone; cbn; rewrite length_insert; split; reflexivity.
Qed.

(** [Zone::Reset] touches the zone it is called on, the reset counters and
    the wear-levelling state, and nothing else. *)
Lemma Zone_Reset_frame (be : Backend) (r : ZoneRef) (d d' : Device)
    (st : IOStatus) :
  Zone_Reset be r d = Some (st, d') ->
  tokens_kept d d' /\
  (forall r', r' <> r -> zone_at d' r' = zone_at d r') /\
  length (meta_zones d') = length (meta_zones d) /\
  length (io_zones d') = length (io_zones d) /\
  (st = OK ->
   exists z offline max_capacity,
     zone_at d r = Some z /\
     be_Reset be (start_ z) = (OK, offline, max_capacity) /\
     zone_at d' r = Some (reset_zone offline max_capacity z)) /\
  (st <> OK -> d' = d).
Proof.
  unfold Zone_Reset. destruct (zone_at d r) as [z|] eqn:Hat.
  2:{ intros H. injection H as <- <-.
      repeat split; try apply tokens_kept_refl; try discriminate. }
  destruct (be_Reset be (start_ z)) as [[ios offline] mc] eqn:Hbe.
  destruct (bool_decide_reflect (ios = OK)) as [->|Hne]; cbn [negb].
  2:{ intros H. injection H as <- <-.
      repeat split; try apply tokens_kept_refl; congruence. }
  set (d1 := set_zone r (reset_zone offline mc z) d).
  set (d2 := set_total_reset_count (u32 (total_reset_count_ d1 + 1)) d1).
  destruct (wl_trigger be d2) as [d3|] eqn:Hwl; [|discriminate].
  intros H. injection H as <- <-.
  destruct (wl_trigger_zones be d2 d3 Hwl) as (Hm & Hi & _).
  destruct (length_zones_set_zone r (reset_zone offline mc z) d) as [Hlm Hli].
  split.
  { eapply tokens_kept_trans; [|eapply wl_trigger_tokens; exact Hwl].
    eapply tokens_kept_trans; [apply (tokens_kept_set_zone r)|].
    repeat split. }
  split.
  { intros r' Hr'. rewrite (zone_at_wl_trigger _ _ _ _ Hwl). unfold d2.
    rewrite zone_at_set_total_reset_count. unfold d1.
    apply zone_at_set_zone_ne. congruence. }
  split; [rewrite Hm; exact Hlm|].
  split; [rewrite Hi; exact Hli|].
  split; [|congruence].
  intros _. exists z, offline, mc.
  split; [reflexivity|]. split; [exact Hbe|].
  rewrite (zone_at_wl_trigger _ _ _ _ Hwl). unfold d2.
  rewrite zone_at_set_total_reset_count. unfold d1.
  eapply zone_at_set_zone. exact Hat.
Qed.

Lemma zone_CheckRelease_frame (rogue : ZoneRef -> bool) (r : ZoneRef)
    (d : Device) :
  (forall r', r' <> r ->
     zone_at (snd (zone_CheckRelease rogue r d)) r' = zone_at d r') /\
  length (meta_zones (snd (zone_CheckRelease rogue r d))) = length (meta_zones d) /\
  length (io_zones (snd (zone_CheckRelease rogue r d))) = length (io_zones d).
Proof.
  unfold zone_CheckRelease. destruct (zone_at d r) as [z|]; [|repeat split].
  destruct (CheckRelease _) as [s z']. cbn [snd].
  destruct (length_zones_set_zone r z' d) as [H1 H2].
  split; [|split; assumption].
  intros r' Hr'. apply zone_at_set_zone_ne. congruence.
Qed.

Lemma io_zones_eq_of_zone_at (d d' : Device) :
  (forall j, zone_at d' (IOZone j) = zone_at d (IOZone j)) ->
  io_zones d' = io_zones d.
Proof. intros H. apply list_eq. exact H. Qed.

Lemma meta_frame_refl (d : Device) : meta_frame d d.
Proof. repeat split. Qed.

Lemma meta_frame_trans (d1 d2 d3 : Device) :
  meta_frame d1 d2 -> meta_frame d2 d3 -> meta_frame d1 d3.
Proof.
  intros (T1 & I1 & L1) (T2 & I2 & L2). split; [|split; congruence].
  eapply tokens_kept_trans; eassumption.
Qed.

Lemma meta_frame_set_zone (i : nat) (z : Zone) (d : Device) :
  meta_frame d (set_zone (MetaZone i) z d).
Proof.
  split; [apply tokens_kept_set_zone|]. split; [reflexivity|].
  apply length_zones_set_zone.
Qed.

Lemma meta_frame_CheckRelease (rogue : ZoneRef -> bool) (i : nat) (d : Device) :
  meta_frame d (snd (zone_CheckRelease rogue (MetaZone i) d)).
Proof.
  destruct (zone_CheckRelease_tokens rogue (MetaZone i) d) as [Ht _].
  destruct (zone_CheckRelease_frame rogue (MetaZone i) d) as (Hz & Hm & _).
  split; [exact Ht|]. split; [|exact Hm].
  apply io_zones_eq_of_zone_at. intros j. apply Hz. discriminate.
Qed.

Lemma meta_frame_Reset (be : Backend) (i : nat) (d d' : Device)
    (st : IOStatus) :
  Zone_Reset be (MetaZone i) d = Some (st, d') -> meta_frame d d'.
Proof.
  intros H.
  destruct (Zone_Reset_frame be (MetaZone i) d d' st H) as (Ht & Hz & Hm & _).
  split; [exact Ht|]. split; [|exact Hm].
  apply io_zones_eq_of_zone_at. intros j. apply Hz. discriminate.
Qed.

Lemma AllocateMetaZone_body_result (be : Backend) (rogue : ZoneRef -> bool)
    (d0 : Device) (i : nat) (d : Device) :
  meta_frame d0 d ->
  match AllocateMetaZone_body be rogue i d with
  | Continue d' | Break d' => meta_frame d0 d'
  | Return None => True
  | Return (Some (st, out, d')) =>
      meta_frame d0 d' /\
      ((st = OK /\
        exists z,
          out = Some i /\ meta_zones d' !! i = Some z /\
          busy_ z = true /\ IsUsed z = false /\ IsEmpty z = true) \/
       (st = Corruption /\ out = None))
  end.
Proof.
  intros Hd. unfold AllocateMetaZone_body.
  pose proof (zone_Acquire_spec (MetaZone i) d) as Hacq.
  destruct (zone_at d (MetaZone i)) as [z|] eqn:Hat; rewrite Hacq;
    [|exact Hd].
  destruct (busy_ z) eqn:Hb; cbn [negb]; [exact Hd|].
  set (z1 := set_busy true z).
  set (d1 := set_zone (MetaZone i) z1 d).
  assert (Hd1 : meta_frame d0 d1).
  { eapply meta_frame_trans; [exact Hd|apply meta_frame_set_zone]. }
  assert (Hat1 : zone_at d1 (MetaZone i) = Some z1).
  { eapply zone_at_set_zone. exact Hat. }
  cbn [zone_at] in Hat1. rewrite Hat1.
  destruct (IsUsed z1) eqn:Hu; cbn [negb]; [exact Hd1|].
  destruct (IsEmpty z1) eqn:He; cbn [negb].
  { split; [exact Hd1|]. left. split; [reflexivity|].
    exists z1. repeat split; assumption. }
  destruct (Zone_Reset be (MetaZone i) d1) as [[rs d2]|] eqn:Hreset;
    [|exact I].
  pose proof (meta_frame_Reset be i d1 d2 rs Hreset) as Hfr.
  destruct (Zone_Reset_frame be (MetaZone i) d1 d2 rs Hreset)
    as (_ & _ & _ & _ & Hok & _).
  assert (Hd2 : meta_frame d0 d2) by (eapply meta_frame_trans; eassumption).
  destruct rs; cbn [ok negb].
  { (* the reset succeeded *)
    split; [exact Hd2|]. left. split; [reflexivity|].
    destruct (Hok eq_refl) as (z' & offline & mc & Hz' & _ & Hz2).
    cbn [zone_at] in Hz', Hz2. rewrite Hat1 in Hz'. injection Hz' as <-.
    exists (reset_zone offline mc z1). split; [reflexivity|].
    split; [exact Hz2|].
    unfold reset_zone, IsUsed, IsEmpty in *.
    destruct offline; cbn in *; repeat split; try assumption; apply Z.eqb_refl. }
  all: pose proof (meta_frame_CheckRelease rogue i d2) as Hfc;
    destruct (zone_CheckRelease_tokens rogue (MetaZone i) d2) as [_ Hst];
    destruct (zone_CheckRelease rogue (MetaZone i) d2) as [cs d3];
    cbn [fst snd] in *;
    assert (Hd3 : meta_frame d0 d3) by (eapply meta_frame_trans; eassumption);
    destruct (ok cs) eqn:Hcs; cbn [negb]; [exact Hd3|];
    split; [exact Hd3|]; right; split; [apply Hst; reflexivity|reflexivity].
Qed.

Lemma Zone_Reset_returns (be : Backend) (r : ZoneRef) (d : Device) :
  io_zones_counted d -> is_Some (Zone_Reset be r d).
Proof.
  intros Hc. unfold Zone_Reset.
  destruct (zone_at d r) as [z|]; [|eexists; reflexivity].
  destruct (be_Reset be (start_ z)) as [[ios offline] mc].
  destruct (negb _); [eexists; reflexivity|].
  match goal with
  | |- context [wl_trigger be ?x] =>
      destruct (wl_trigger_returns be x) as [d3 ->]
  end; [|eexists; reflexivity].
  apply (io_zones_counted_set_zone r (reset_zone offline mc z)) in Hc.
  exact Hc.
Qed.

(** On a device with io zones no iteration of [AllocateMetaZone] dies. *)
Lemma AllocateMetaZone_body_returns (be : Backend) (rogue : ZoneRef -> bool)
    (i : nat) (d : Device) :
  io_zones_counted d ->
  AllocateMetaZone_body be rogue i d <> Return None.
Proof.
  intros Hc. unfold AllocateMetaZone_body.
  pose proof (zone_Acquire_spec (MetaZone i) d) as Hacq.
  destruct (zone_at d (MetaZone i)) as [z|] eqn:Hat; rewrite Hacq;
    [|discriminate].
  destruct (busy_ z); cbn [negb]; [discriminate|].
  set (d1 := set_zone (MetaZone i) (set_busy true z) d).
  assert (Hc1 : io_zones_counted d1) by now apply io_zones_counted_set_zone.
  destruct (meta_zones d1 !! i) as [z1|]; [|discriminate].
  destruct (negb (IsUsed z1)); [|discriminate].
  destruct (negb (IsEmpty z1)); [|discriminate].
  destruct (Zone_Reset_returns be (MetaZone i) d1 Hc1) as [[rs d2] ->].
  destruct (negb (ok rs)); [|discriminate].
  destruct (zone_CheckRelease rogue (MetaZone i) d2) as [s2 d3].
  destruct (negb (ok s2)); discriminate.
Qed.

(** X11.  What [AllocateMetaZone] returns and what it leaves alone.  On a
    device with io zones (a count that fits 32 bits) the call returns.
    The status is [OK], [NoSpace] or [Corruption].  On [OK] the metadata
    zone handed out is held busy, has no live data and is empty (it was
    empty, or has just been reset); otherwise [*out_meta_zone] is null.
    In every case the io zones, the token counts and the migration flag
    are as before: metadata zones take no open or active token. *)
Theorem AllocateMetaZone_result (be : Backend) (rogue : ZoneRef -> bool)
    (d : Device) :
  (io_zones_counted d -> is_Some (AllocateMetaZone be rogue d)) /\
  forall (d' : Device) (st : IOStatus) (out : option nat),
    AllocateMetaZone be rogue d = Some (st, out, d') ->
    meta_frame d d' /\
    ((st = OK /\
      exists i z,
        out = Some i /\ meta_zones d' !! i = Some z /\
        busy_ z = true /\ IsUsed z = false /\ IsEmpty z = true) \/
     (st = NoSpace /\ out = None) \/
     (st = Corruption /\ out = None)).
Proof.
  unfold AllocateMetaZone. split.
  { intros Hc.
    pose proof (for_zones_rule
      (fun d1 : Device => meta_frame d d1)
      (fun r : option (IOStatus * option nat * Device) => is_Some r)
      (AllocateMetaZone_body be rogue)) as Hrule.
    match type of Hrule with ?A -> _ => assert (Hbody : A) end;
      [|specialize (Hrule Hbody (indices (meta_zones d)) d (meta_frame_refl d))].
    - intros i d1 Hd1.
      pose proof (AllocateMetaZone_body_result be rogue d i d1 Hd1) as Hb.
      assert (Hc1 : io_zones_counted d1).
      { destruct Hd1 as (_ & Hio & _). unfold io_zones_counted.
        rewrite Hio. exact Hc. }
      pose proof (AllocateMetaZone_body_returns be rogue i d1 Hc1) as Hr.
      destruct (AllocateMetaZone_body be rogue i d1) as [?|?|[r|]];
        [exact Hb|exact Hb|eexists; reflexivity|congruence].
    - destruct (for_zones _ _ _) as [d1|r];
        [eexists; reflexivity|exact Hrule]. }
  intros d' st out H.
  pose proof (for_zones_rule
    (fun d1 : Device => meta_frame d d1)
    (fun r : option (IOStatus * option nat * Device) =>
       match r with
       | None => True
       | Some (st, out, d') =>
           meta_frame d d' /\
           ((st = OK /\
             exists i z,
               out = Some i /\ meta_zones d' !! i = Some z /\
               busy_ z = true /\ IsUsed z = false /\ IsEmpty z = true) \/
            (st = Corruption /\ out = None))
       end)
    (AllocateMetaZone_body be rogue)) as Hrule.
  specialize (Hrule ltac:(
    intros i d1 Hd1;
    pose proof (AllocateMetaZone_body_result be rogue d i d1 Hd1) as Hb;
    destruct (AllocateMetaZone_body be rogue i d1) as [?|?|[[[? ?] ?]|]];
      [exact Hb|exact Hb| |exact I];
    destruct Hb as [Hf [[-> (z & Hz)]|Hc]];
      (split; [exact Hf|]); [left; split; [reflexivity|]; eauto|right; exact Hc])
    (indices (meta_zones d)) d (meta_frame_refl d)).
  destruct (for_zones _ _ _) as [d1|[[[st1 out1] d1]|]]; [| |discriminate].
  - injection H as <- <- <-. split; [exact Hrule|]. right; left. split; reflexivity.
  - injection H as <- <- <-. destruct Hrule as [Hf [Hok|Hc]].
    + split; [exact Hf|]. left. exact Hok.
    + split; [exact Hf|]. right; right. exact Hc.
Qed.

Lemma AllocateMetaZone_result_witness :
  exists st out d',
    AllocateMetaZone be_ex quiet dev_meta_io_ex = Some (st, out, d') /\
    meta_frame dev_meta_io_ex d'.
Proof.
  destruct (AllocateMetaZone_result be_ex quiet dev_meta_io_ex) as [Hret Hres].
  assert (Hc : io_zones_counted dev_meta_io_ex).
  { split; [discriminate|vm_compute; reflexivity]. }
  destruct (Hret Hc) as [[[st out] d'] E].
  exists st, out, d'. split; [exact E|]. apply (Hres d' st out E).
Defined.

(** ** The open token of an allocation *)

Lemma open_frame_refl (d : Device) : open_frame d d.
Proof. repeat split. Qed.

Lemma open_frame_trans (d1 d2 d3 : Device) :
  open_frame d1 d2 -> open_frame d2 d3 -> open_frame d1 d3.
Proof. unfold open_frame. intuition congruence. Qed.

Lemma open_frame_set_zone (i : nat) (z : Zone) (d : Device) :
  open_frame d (set_zone (IOZone i) z d).
Proof.
  unfold open_frame, set_zone. cbn. rewrite length_insert. repeat split.
Qed.

Lemma open_frame_Acquire (i : nat) (d : Device) :
  open_frame d (snd (zone_Acquire (IOZone i) d)).
Proof.
  unfold zone_Acquire. destruct (zone_at d (IOZone i)); [|apply open_frame_refl].
  destruct (Acquire _). apply open_frame_set_zone.
Qed.

Lemma open_frame_Release (rogue : ZoneRef -> bool) (i : nat) (d : Device) :
  open_frame d (snd (zone_Release rogue (IOZone i) d)).
Proof.
  unfold zone_Release. destruct (zone_at d (IOZone i)); [|apply open_frame_refl].
  destruct (Release _). apply open_frame_set_zone.
Qed.

Lemma open_frame_CheckRelease (rogue : ZoneRef -> bool) (i : nat) (d : Device) :
  open_frame d (snd (zone_CheckRelease rogue (IOZone i) d)).
Proof.
  unfold zone_CheckRelease.
  destruct (zone_at d (IOZone i)); [|apply open_frame_refl].
  destruct (CheckRelease _). apply open_frame_set_zone.
Qed.

Lemma open_frame_Finish (be : Backend) (i : nat) (d : Device) :
  open_frame d (snd (zone_Finish be i d)).
Proof.
  unfold zone_Finish. destruct (io_zones d !! i); [|apply open_frame_refl].
  destruct (Zone_Finish be _). apply open_frame_set_zone.
Qed.

Lemma open_frame_PutActive (d : Device) : open_frame d (PutActiveIOZoneToken d).
Proof. repeat split. Qed.

Lemma open_frame_GetActive (d : Device) :
  open_frame d (snd (GetActiveIOZoneTokenIfAvailable d)).
Proof.
  unfold GetActiveIOZoneTokenIfAvailable. destruct (_ <? _); repeat split.
Qed.

(** Take the next call of a scan body apart, keeping its frame. *)
Ltac frame_step :=
  match goal with
  | |- context [zone_Acquire (IOZone ?i) ?d] =>
      let H := fresh "Hf" in
      pose proof (open_frame_Acquire i d) as H;
      destruct (zone_Acquire (IOZone i) d) as [[|] ?]; cbn [fst snd] in H
  | |- context [zone_Finish ?be ?i ?d] =>
      let H := fresh "Hf" in
      let s := fresh "s" in
      pose proof (open_frame_Finish be i d) as H;
      destruct (zone_Finish be i d) as [s ?]; cbn [fst snd] in H;
      destruct (ok s) eqn:?; cbn [negb]
  | |- context [zone_Release ?g (IOZone ?i) ?d] =>
      let H := fresh "Hf" in
      pose proof (open_frame_Release g i d) as H;
      destruct (zone_Release g (IOZone i) d) as [? ?]; cbn [fst snd] in H
  | |- context [zone_CheckRelease ?g (IOZone ?i) ?d] =>
      let H := fresh "Hf" in
      let s := fresh "s" in
      pose proof (open_frame_CheckRelease g i d) as H;
      destruct (zone_CheckRelease g (IOZone i) d) as [s ?]; cbn [fst snd] in H;
      destruct (ok s) eqn:?; cbn [negb]
  | |- context [match ?l !! ?i with _ => _ end] => destruct (l !! i)
  | |- context [match ?x with _ => _ end] => is_var x; destruct x
  | |- context [if ?c then _ else _] => destruct c
  end.

Ltac frame_solve :=
  unfold open_frame, PutActiveIOZoneToken, PutOpenIOZoneToken in *;
  cbn in *; intuition congruence.

Lemma GetBestOpenZoneMatch_body_frame (rogue : ZoneRef -> bool)
    (lt : WriteLifeTimeHint) (mc : Z) (d0 : Device) (i : nat)
    (s : Device * option nat * Z) :
  open_frame d0 (fst (fst s)) ->
  match GetBestOpenZoneMatch_body rogue lt mc i s with
  | Continue s' | Break s' => open_frame d0 (fst (fst s'))
  | Return (st, d') => open_frame d0 d' /\ ok st = false
  end.
Proof.
  destruct s as [[d a] b]. cbn [fst]. intros Hd.
  unfold GetBestOpenZoneMatch_body.
  repeat frame_step; frame_solve.
Qed.

Lemma ApplyFinishThreshold_body_frame (be : Backend) (rogue : ZoneRef -> bool)
    (d0 : Device) (i : nat) (d : Device) :
  open_frame d0 d ->
  match ApplyFinishThreshold_body be rogue i d with
  | Continue d' | Break d' => open_frame d0 d'
  | Return (st, d') => open_frame d0 d' /\ ok st = false
  end.
Proof.
  intros Hd. unfold ApplyFinishThreshold_body.
  repeat frame_step; frame_solve.
Qed.

Lemma FinishCheapestIOZone_body_frame (rogue : ZoneRef -> bool)
    (d0 : Device) (i : nat) (s : Device * option nat) :
  open_frame d0 (fst s) ->
  match FinishCheapestIOZone_body rogue i s with
  | Continue s' | Break s' => open_frame d0 (fst s')
  | Return (st, d') => open_frame d0 d' /\ ok st = false
  end.
Proof.
  destruct s as [d v]. cbn [fst]. intros Hd.
  unfold FinishCheapestIOZone_body.
  repeat frame_step; frame_solve.
Qed.

Lemma AllocateEmptyZone_body_frame (rogue : ZoneRef -> bool)
    (prefer_worn : bool) (d0 : Device) (i : nat) (s : Device * option nat) :
  open_frame d0 (fst s) ->
  match AllocateEmptyZone_body rogue prefer_worn i s with
  | Continue s' | Break s' => open_frame d0 (fst s')
  | Return (st, d') => open_frame d0 d' /\ ok st = false
  end.
Proof.
  destruct s as [d a]. cbn [fst]. intros Hd.
  unfold AllocateEmptyZone_body, replace_or_return, release_or_return.
  repeat frame_step; frame_solve.
Qed.

Lemma GetBestOpenZoneMatch_frame (rogue : ZoneRef -> bool)
    (lt : WriteLifeTimeHint) (mc : Z) (d : Device) :
  open_frame d (snd (GetBestOpenZoneMatch rogue lt mc d)) /\
  match fst (GetBestOpenZoneMatch rogue lt mc d) with
  | (st, None) => ok st = false
  | (st, Some _) => st = OK
  end.
Proof.
  unfold GetBestOpenZoneMatch.
  pose proof (for_zones_rule
    (fun s : Device * option nat * Z => open_frame d (fst (fst s)))
    (fun r : IOStatus * Device => let '(st, d') := r in
                                  open_frame d d' /\ ok st = false)
    (GetBestOpenZoneMatch_body rogue lt mc)
    (GetBestOpenZoneMatch_body_frame rogue lt mc d)
    (indices (io_zones d)) (d, None, LIFETIME_DIFF_NOT_GOOD)
    (open_frame_refl d)) as H.
  destruct (for_zones _ _ _) as [[[d' a] b]|[st d']]; cbn [fst snd] in *.
  - split; [exact H|reflexivity].
  - exact H.
Qed.

Lemma AllocateEmptyZone_frame (rogue : ZoneRef -> bool)
    (lt : WriteLifeTimeHint) (d : Device) :
  open_frame d (snd (AllocateEmptyZone rogue lt d)) /\
  match fst (AllocateEmptyZone rogue lt d) with
  | (st, None) => ok st = false
  | (st, Some _) => st = OK
  end.
Proof.
  unfold AllocateEmptyZone.
  pose proof (for_zones_rule
    (fun s : Device * option nat => open_frame d (fst s))
    (fun r : IOStatus * Device => let '(st, d') := r in
                                  open_frame d d' /\ ok st = false)
    (AllocateEmptyZone_body rogue (hint_val lt <? hint_val WLTH_SHORT))
    (AllocateEmptyZone_body_frame rogue _ d)
    (indices (io_zones d)) (d, None) (open_frame_refl d)) as H.
  destruct (for_zones _ _ _) as [[d' a]|[st d']]; cbn [fst snd] in *.
  - split; [exact H|reflexivity].
  - exact H.
Qed.

Lemma ApplyFinishThreshold_frame (be : Backend) (rogue : ZoneRef -> bool)
    (d : Device) :
  open_frame d (snd (ApplyFinishThreshold be rogue d)).
Proof.
  unfold ApplyFinishThreshold.
  destruct (finish_threshold_ d =? 0); [apply open_frame_refl|].
  pose proof (for_zones_rule
    (fun d1 : Device => open_frame d d1)
    (fun r : IOStatus * Device => let '(st, d') := r in
                                  open_frame d d' /\ ok st = false)
    (ApplyFinishThreshold_body be rogue)
    (ApplyFinishThreshold_body_frame be rogue d)
    (indices (io_zones d)) d (open_frame_refl d)) as H.
  destruct (for_zones _ _ _) as [d'|[st d']]; cbn [fst snd] in *.
  - exact H.
  - apply H.
Qed.

Lemma FinishCheapestIOZone_frame (be : Backend) (rogue : ZoneRef -> bool)
    (d : Device) :
  open_frame d (snd (FinishCheapestIOZone be rogue d)).
Proof.
  unfold FinishCheapestIOZone.
  pose proof (for_zones_rule
    (fun s : Device * option nat => open_frame d (fst s))
    (fun r : IOStatus * Device => let '(st, d') := r in
                                  open_frame d d' /\ ok st = false)
    (FinishCheapestIOZone_body rogue)
    (FinishCheapestIOZone_body_frame rogue d)
    (indices (io_zones d)) (d, None) (open_frame_refl d)) as H.
  destruct (for_zones _ _ _) as [[d' [v|]]|[st d']]; cbn [fst snd] in *.
  - repeat frame_step; frame_solve.
  - exact H.
  - apply H.
Qed.

Lemma finish_until_active_token_frame (be : Backend)
    (rogue_at : nat -> ZoneRef -> bool)
    (fuel : nat) : forall k d st d',
  finish_until_active_token be rogue_at k fuel d = Some (st, d') ->
  open_frame d d'.
Proof.
  induction fuel as [|fuel IH]; intros k d st d' H;
    cbn [finish_until_active_token] in H;
    pose proof (open_frame_GetActive d) as Hg;
    destruct (GetActiveIOZoneTokenIfAvailable d) as [[|] d1]; cbn [snd] in Hg.
  - injection H as <- <-. exact Hg.
  - discriminate.
  - injection H as <- <-. exact Hg.
  - pose proof (FinishCheapestIOZone_frame be (rogue_at k) d1) as Hfc.
    destruct (FinishCheapestIOZone be (rogue_at k) d1) as [s d2].
    cbn [snd] in Hfc.
    destruct (ok s); cbn [negb] in H.
    + apply IH in H. eapply open_frame_trans; [exact Hg|].
      eapply open_frame_trans; eassumption.
    + injection H as <- <-. eapply open_frame_trans; eassumption.
Qed.

Lemma ok_false_ne (st : IOStatus) : ok st = false -> st <> OK.
Proof. intros H ->. discriminate. Qed.

Ltac held_solve :=
  unfold AllocateIOZone_post, open_token_held, open_frame, handed_out,
    PutActiveIOZoneToken, PutOpenIOZoneToken in *;
  cbn in *;
  repeat match goal with
         | H : ok ?s = false |- _ => apply ok_false_ne in H
         end;
  intuition (try congruence; try lia).

Lemma AllocateIOZone_finish_post (d0 d : Device) (allocated_zone : option nat) :
  open_token_held d0 d ->
  forall r, AllocateIOZone_finish allocated_zone d = Some r ->
            AllocateIOZone_post d0 r.
Proof.
  intros Hd r H. unfold AllocateIOZone_finish in H. injection H as <-.
  destruct allocated_zone; held_solve.
Qed.

Lemma open_token_held_frame (d0 d1 d2 : Device) :
  open_token_held d0 d1 -> open_frame d1 d2 -> open_token_held d0 d2.
Proof. unfold open_token_held, open_frame. intuition congruence. Qed.

Lemma AllocateIOZone_new_zone_post (be : Backend)
    (rogue_at : nat -> ZoneRef -> bool)
    (fuel : nat) (lt : WriteLifeTimeHint) (got_token : bool) (d0 d : Device) :
  open_token_held d0 d ->
  forall r, AllocateIOZone_new_zone be rogue_at fuel lt got_token d = Some r ->
            AllocateIOZone_post d0 r.
Proof.
  intros Hd r H. unfold AllocateIOZone_new_zone in H.
  assert (Hloop : forall s d1,
             (if got_token then Some (OK, d)
              else finish_until_active_token be rogue_at 3 fuel d)
             = Some (s, d1) ->
             open_token_held d0 d1).
  { intros s d1 E. destruct got_token.
    - injection E as <- <-. exact Hd.
    - apply finish_until_active_token_frame in E.
      eapply open_token_held_frame; eassumption. }
  destruct (if got_token then Some (OK, d)
            else finish_until_active_token be rogue_at 3 fuel d)
    as [[s d1]|]; [|discriminate].
  specialize (Hloop s d1 eq_refl).
  destruct (ok s) eqn:Hs; cbn [negb] in H.
  2:{ injection H as <-. held_solve. }
  destruct (AllocateEmptyZone_frame (rogue_at 2%nat) lt d1) as [Hfe Hst].
  destruct (AllocateEmptyZone (rogue_at 2%nat) lt d1) as [[s2 out2] d2].
  cbn [fst snd] in *.
  pose proof (open_token_held_frame _ _ _ Hloop Hfe) as Hd2.
  destruct out2 as [[a|]|].
  - subst s2. cbn [ok negb from_option id] in H.
    eapply AllocateIOZone_finish_post; [|exact H].
    destruct (io_zones d2 !! a); [|exact Hd2].
    eapply open_token_held_frame; [exact Hd2|apply open_frame_set_zone].
  - subst s2. cbn [ok negb from_option id] in H.
    eapply AllocateIOZone_finish_post; [|exact H].
    eapply open_token_held_frame; [exact Hd2|apply open_frame_PutActive].
  - rewrite Hst in H. cbn [negb] in H. injection H as <-. held_solve.
Qed.

(** X12.  Every return of [AllocateIOZone] accounts for the open token: the
    open-zone count is one higher than at the entry exactly when a zone is
    handed out, and as at the entry when the call returns null or an
    error (each error exit puts the token back).  Nothing is stored
    through [out_zone] exactly on the error exits.  The metadata zones, the
    migration flag and the deferred status are never touched.  This holds
    whatever the other threads do in each of the passes. *)
Theorem AllocateIOZone_open_token (be : Backend)
    (rogue_at : nat -> ZoneRef -> bool)
    (fuel : nat) (file_lifetime : WriteLifeTimeHint) (io_type : IOType)
    (d d' : Device) (st : IOStatus) (out : option (option nat)) :
  AllocateIOZone be rogue_at fuel file_lifetime io_type d
  = Some (st, out, d') ->
  open_io_zones_ d' = open_io_zones_ d + handed_out out /\
  (out = None <-> st <> OK) /\
  meta_zones d' = meta_zones d /\
  migrating_ d' = migrating_ d /\
  zone_deferred_status_ d' = zone_deferred_status_ d /\
  length (io_zones d') = length (io_zones d).
Proof.
  intros H. change (AllocateIOZone_post d (st, out, d')).
  unfold AllocateIOZone, GetZoneDeferredStatus in H.
  destruct (ok (zone_deferred_status_ d)) eqn:Hdef; cbn [negb] in H.
  2:{ injection H as <- <- <-. held_solve. }
  assert (Hfin : open_frame d
            (snd (if match io_type with kWAL => true | kNonWAL => false end
                  then (OK, d) else ApplyFinishThreshold be (rogue_at 0%nat) d))).
  { destruct io_type; [apply open_frame_refl|apply ApplyFinishThreshold_frame]. }
  destruct (if match io_type with kWAL => true | kNonWAL => false end
            then (OK, d) else ApplyFinishThreshold be (rogue_at 0%nat) d) as [s1 d1].
  cbn [snd] in Hfin.
  destruct (ok s1) eqn:Hs1; cbn [negb] in H.
  2:{ injection H as <- <- <-. held_solve. }
  unfold WaitForOpenIOZoneToken in H.
  destruct (open_io_zones_ d1 <? _); [|discriminate].
  set (d2 := set_open_io_zones (open_io_zones_ d1 + 1) d1) in H.
  assert (Hd2 : open_token_held d d2).
  { unfold d2. held_solve. }
  destruct (GetBestOpenZoneMatch_frame (rogue_at 1%nat) file_lifetime
              default_min_capacity d2) as [Hfb Hsb].
  destruct (GetBestOpenZoneMatch (rogue_at 1%nat) file_lifetime
              default_min_capacity d2) as [[s3 out3] d3]. cbn [fst snd] in *.
  pose proof (open_token_held_frame _ _ _ Hd2 Hfb) as Hd3.
  destruct out3 as [[best_diff allocated_zone]|].
  2:{ rewrite Hsb in H. cbn [negb] in H. injection H as <- <- <-. held_solve. }
  subst s3. cbn [ok negb from_option id] in H.
  destruct (LIFETIME_DIFF_COULD_BE_WORSE <=? best_diff).
  2:{ eapply AllocateIOZone_finish_post; [|exact H]; exact Hd3. }
  pose proof (open_frame_GetActive d3) as Hga.
  destruct (GetActiveIOZoneTokenIfAvailable d3) as [got_token d4].
  cbn [snd] in Hga.
  pose proof (open_token_held_frame _ _ _ Hd3 Hga) as Hd4.
  destruct allocated_zone as [a|].
  2:{ eapply AllocateIOZone_new_zone_post; [|exact H]; exact Hd4. }
  destruct (negb got_token && (best_diff =? LIFETIME_DIFF_COULD_BE_WORSE)).
  { eapply AllocateIOZone_finish_post; [|exact H]; exact Hd4. }
  pose proof (open_frame_CheckRelease (rogue_at 1%nat) a d4) as Hfr.
  destruct (zone_CheckRelease (rogue_at 1%nat) (IOZone a) d4) as [s5 d5].
  cbn [snd] in Hfr.
  pose proof (open_token_held_frame _ _ _ Hd4 Hfr) as Hd5.
  destruct (ok s5) eqn:Hs5; cbn [negb] in H.
  - eapply AllocateIOZone_new_zone_post; [|exact H]; exact Hd5.
  - injection H as <- <- <-. destruct got_token; held_solve.
Qed.

Lemma AllocateIOZone_open_token_witness :
  match AllocateIOZone be_ex (always quiet) 4 WLTH_SHORT kNonWAL dev_open_ex with
  | Some r => AllocateIOZone_post dev_open_ex r
  | None => False
  end.
Proof.
  destruct (AllocateIOZone be_ex (always quiet) 4 WLTH_SHORT kNonWAL
              dev_open_ex)
    as [[[st out] d']|] eqn:E; [|vm_compute in E; discriminate].
  apply (AllocateIOZone_open_token be_ex (always quiet) 4 WLTH_SHORT kNonWAL
           dev_open_ex d' st out E).
Defined.

(** ** Scans that rewrite the zones one by one *)

(** The rule for a loop over the positions [k, k + n) of a vector: the
    invariant [P] knows the position, [B] holds of a state the loop breaks
    with, [Q] of what an iteration returns. *)
Lemma for_zones_seq_rule {S R : Type} (P : nat -> S -> Prop) (B : S -> Prop)
    (Q : R -> Prop) (body : nat -> S -> Step S R) (n0 : nat) :
  (forall i s, (i < n0)%nat -> P i s ->
     match body i s with
     | Continue s' => P (Datatypes.S i) s'
     | Break s' => B s'
     | Return r => Q r
     end) ->
  forall n k s, (k + n = n0)%nat -> P k s ->
    match for_zones body (seq k n) s with
    | inl s' => P n0 s' \/ B s'
    | inr r => Q r
    end.
Proof.
  intros Hbody. induction n as [|n IH]; intros k s Hk Hs; cbn [seq for_zones].
  - left. replace n0 with k by lia. exact Hs.
  - assert (Hlt : (k < n0)%nat) by lia.
    specialize (Hbody k s Hlt Hs).
    destruct (body k s) as [s'|s'|r].
    + apply IH; [lia|exact Hbody].
    + right. exact Hbody.
    + exact Hbody.
Qed.

Lemma scanned_lookup (f : Zone -> Zone) (k : nat) (zones : list Zone) :
  scanned f k zones !! k = zones !! k.
Proof.
  unfold scanned. destruct (decide (k < length zones)%nat) as [Hlt|Hge].
  - rewrite lookup_app_r; rewrite length_fmap, length_take; [|lia].
    rewrite lookup_drop. f_equal. lia.
  - rewrite (lookup_ge_None_2 zones) by lia.
    apply lookup_ge_None_2.
    rewrite length_app, length_fmap, length_take, length_drop. lia.
Qed.

Lemma scanned_advance (f : Zone -> Zone) (k : nat) (zones : list Zone)
    (z : Zone) :
  zones !! k = Some z ->
  <[k := f z]> (scanned f k zones) = scanned f (S k) zones.
Proof.
  intros Hk. unfold scanned.
  apply lookup_lt_Some in Hk as Hlt.
  rewrite (take_S_r zones k z Hk), (drop_S zones z k Hk).
  rewrite fmap_app, <- app_assoc. cbn [fmap list_fmap app].
  rewrite insert_app_r_alt; rewrite length_fmap, length_take; [|lia].
  replace (k - k `min` length zones)%nat with 0%nat by lia.
  reflexivity.
Qed.

Lemma scanned_all (f : Zone -> Zone) (zones : list Zone) :
  scanned f (length zones) zones = f <$> zones.
Proof.
  unfold scanned. rewrite firstn_all, drop_all. apply app_nil_r.
Qed.

Lemma count_zones_advance (p : Zone -> bool) (k : nat) (zones : list Zone)
    (z : Zone) :
  zones !! k = Some z ->
  count_zones p (take (S k) zones) =
  count_zones p (take k zones) + (if p z then 1 else 0).
Proof.
  intros Hk. unfold count_zones.
  rewrite (take_S_r zones k z Hk), List.filter_app, length_app.
  cbn [List.filter]. destruct (p z); cbn [length]; lia.
Qed.

(** The zone operations on an io zone that is there. *)
Lemma zone_Acquire_io (i : nat) (d : Device) (z : Zone) :
  io_zones d !! i = Some z ->
  zone_Acquire (IOZone i) d =
  (negb (busy_ z),
   if busy_ z then d else set_zone (IOZone i) (set_busy true z) d).
Proof.
  intros H. pose proof (zone_Acquire_spec (IOZone i) d) as Hs.
  cbn [zone_at] in Hs. rewrite H in Hs. exact Hs.
Qed.

Lemma zone_CheckRelease_held (rogue : ZoneRef -> bool) (i : nat) (d : Device)
    (z : Zone) :
  io_zones d !! i = Some z -> busy_ z = true ->
  zone_CheckRelease rogue (IOZone i) d =
  (if rogue (IOZone i) then Corruption else OK,
   set_zone (IOZone i) (set_busy false z) d).
Proof.
  intros H Hb. unfold zone_CheckRelease, interfered. cbn [zone_at]. rewrite H.
  unfold CheckRelease, Release.
  destruct (rogue (IOZone i)); cbn [busy_ set_busy]; [|rewrite Hb];
    destruct z; reflexivity.
Qed.

Lemma Zone_Reset_io (be : Backend) (i : nat) (d : Device) (z : Zone) :
  io_zones d !! i = Some z ->
  Zone_Reset be (IOZone i) d =
  let '(ios, offline, max_capacity) := be_Reset be (start_ z) in
  if negb (bool_decide (ios = OK)) then Some (ios, d)
  else (fun d' => (OK, d'))
         <$> wl_trigger be
               (set_total_reset_count (u32 (total_reset_count_ d + 1))
                  (set_zone (IOZone i) (reset_zone offline max_capacity z) d)).
Proof.
  intros H. unfold Zone_Reset. cbn [zone_at]. rewrite H.
  destruct (be_Reset be (start_ z)) as [[ios offline] mc].
  destruct (negb _); [reflexivity|].
  cbn [total_reset_count_ set_zone set_io_zones].
  destruct (wl_trigger be _); reflexivity.
Qed.

Lemma open_frame_wl_trigger (be : Backend) (d d' : Device) :
  wl_trigger be d = Some d' -> open_frame d d'.
Proof.
  revert d'. wl_trigger_cases; intros d' H; try discriminate;
    injection H as <-; repeat split.
Qed.

Lemma io_zones_counted_lookup (i : nat) (z : Zone) (d : Device) :
  io_zones d !! i = Some z ->
  Z.of_nat (length (io_zones d)) < 2 ^ 32 ->
  io_zones_counted d.
Proof.
  intros Hz Hlt. split; [|exact Hlt]. intros E. rewrite E in Hz. discriminate.
Qed.

Lemma lookup_set_zone (i : nat) (z z' : Zone) (d : Device) :
  io_zones d !! i = Some z ->
  io_zones (set_zone (IOZone i) z' d) !! i = Some z'.
Proof.
  intros H. rewrite io_zones_set_zone. apply list_lookup_insert_eq.
  eapply lookup_lt_Some; eassumption.
Qed.

(** ** [ResetUnusedIOZones] *)

Lemma active_set_zone (r : ZoneRef) (z : Zone) (d : Device) :
  active_io_zones_ (set_zone r z d) = active_io_zones_ d.
Proof. destruct r; reflexivity. Qed.

Lemma reset_zone_held (offline : bool) (max_capacity : Z) (z : Zone) :
  busy_ z = false ->
  set_busy false (reset_zone offline max_capacity (set_busy true z)) =
  reset_zone offline max_capacity z.
Proof. destruct z, offline; cbn; intros ->; reflexivity. Qed.

(** One iteration of [ResetUnusedIOZones] on the zone [z] at position
    [i], on a device whose io zones can be counted in 32 bits: the
    iteration returns. *)
Lemma ResetUnusedIOZones_body_spec (be : Backend) (rogue : ZoneRef -> bool)
    (i : nat) (d : Device) (z : Zone) :
  io_zones d !! i = Some z ->
  Z.of_nat (length (io_zones d)) < 2 ^ 32 ->
  match ResetUnusedIOZones_body be rogue i d with
  | Continue d' =>
      open_frame d d' /\
      io_zones d' = <[i := reclaim_zone be z]> (io_zones d) /\
      active_io_zones_ d' =
        active_io_zones_ d
        - (if reclaimable z && negb (IsFull z) then 1 else 0) /\
      (busy_ z = false -> reclaim_succeeds be rogue i z)
  | Break _ => False
  | Return None => False
  | Return (Some (st, d')) =>
      open_frame d d' /\
      busy_ z = false /\
      ((reclaimable z = true /\ reset_answer be z <> OK /\
        st = reset_answer be z) \/
       (rogue (IOZone i) = true /\ st = Corruption)) /\
      exists z', io_zones d' = <[i := z']> (io_zones d) /\
                 (reclaimable z = false -> z' = z)
  end.
Proof.
  intros Hz Hlen. unfold ResetUnusedIOZones_body.
  rewrite (zone_Acquire_io i d z Hz).
  unfold reclaim_succeeds, reclaim_zone, reclaimable, reset_answer.
  destruct (busy_ z) eqn:Hb; cbn [negb andb].
  { split; [apply open_frame_refl|].
    split; [symmetry; now apply list_insert_id|].
    split; [lia|discriminate]. }
  set (zb := set_busy true z).
  set (d1 := set_zone (IOZone i) zb d).
  assert (Hf1 : open_frame d d1) by apply open_frame_set_zone.
  assert (Hz1 : io_zones d1 !! i = Some zb) by (eapply lookup_set_zone; exact Hz).
  assert (Hc1 : io_zones_counted d1).
  { apply io_zones_counted_set_zone.
    eapply io_zones_counted_lookup; eassumption. }
  rewrite Hz1.
  change (IsEmpty zb) with (IsEmpty z). change (IsUsed zb) with (IsUsed z).
  change (IsFull zb) with (IsFull z).
  destruct (negb (IsEmpty z) && negb (IsUsed z)) eqn:Hr.
  - rewrite (Zone_Reset_io be i d1 zb Hz1).
    change (start_ zb) with (start_ z).
    destruct (be_Reset be (start_ z)) as [[ios offline] mc].
    cbn [fst].
    destruct (bool_decide_reflect (ios = OK)) as [->|Hne]; cbn [negb ok].
    + set (zr := reset_zone offline mc zb).
      set (dr := set_total_reset_count (u32 (total_reset_count_ d1 + 1))
                   (set_zone (IOZone i) zr d1)).
      assert (Hcr : io_zones_counted dr).
      { apply (io_zones_counted_set_zone (IOZone i) zr) in Hc1. exact Hc1. }
      destruct (wl_trigger_returns be dr Hcr) as [d2 Hwl].
      rewrite Hwl. cbn [fmap option_fmap option_map ok negb].
      assert (Hi2 : io_zones d2 = <[i := zr]> (io_zones d1)).
      { destruct (wl_trigger_zones be dr d2 Hwl) as (_ & -> & _). reflexivity. }
      assert (Hf2 : open_frame d1 d2).
      { eapply open_frame_trans; [|eapply open_frame_wl_trigger; exact Hwl].
        eapply open_frame_trans; [apply (open_frame_set_zone i zr)|].
        repeat split. }
      assert (Ha2 : active_io_zones_ d2 = active_io_zones_ d).
      { destruct (wl_trigger_tokens be dr d2 Hwl) as (_ & -> & _).
        reflexivity. }
      assert (Hz2 : io_zones d2 !! i = Some zr).
      { rewrite Hi2. apply list_lookup_insert_eq.
        eapply lookup_lt_Some; exact Hz1. }
      assert (Hzr : busy_ zr = true) by (destruct z, offline; reflexivity).
      rewrite (zone_CheckRelease_held rogue i d2 zr Hz2 Hzr).
      assert (Hi3 : io_zones (set_zone (IOZone i) (set_busy false zr) d2)
                    = <[i := reset_zone offline mc z]> (io_zones d)).
      { rewrite io_zones_set_zone, Hi2. unfold d1.
        rewrite io_zones_set_zone, !list_insert_insert_eq.
        unfold zr, zb. now rewrite reset_zone_held. }
      assert (Hf3 : open_frame d (set_zone (IOZone i) (set_busy false zr) d2)).
      { eapply open_frame_trans; [exact Hf1|].
        eapply open_frame_trans; [exact Hf2|apply open_frame_set_zone]. }
      destruct (rogue (IOZone i)); cbn [negb ok].
      * split; [exact Hf3|]. split; [reflexivity|].
        split; [right; split; reflexivity|].
        eexists. split; [exact Hi3|discriminate].
      * destruct (IsFull z); cbn [negb andb].
        -- split; [exact Hf3|]. split; [exact Hi3|].
           split; [rewrite active_set_zone, Ha2; lia|].
           intros _. split; reflexivity.
        -- split; [eapply open_frame_trans;
                     [exact Hf3|apply open_frame_PutActive]|].
           split; [exact Hi3|].
           split; [unfold PutActiveIOZoneToken;
                   cbn [active_io_zones_ set_active_io_zones];
                   rewrite active_set_zone, Ha2; reflexivity|].
           intros _. split; reflexivity.
    + assert (Hzb : busy_ zb = true) by reflexivity.
      rewrite (zone_CheckRelease_held rogue i d1 zb Hz1 Hzb).
      assert (Hok : ok ios = false) by (destruct ios; try reflexivity; congruence).
      rewrite Hok. cbn [negb].
      split; [eapply open_frame_trans; [exact Hf1|apply open_frame_set_zone]|].
      split; [reflexivity|].
      split; [left; split; [reflexivity|split; [exact Hne|reflexivity]]|].
      eexists. split; [|discriminate].
      rewrite io_zones_set_zone. unfold d1.
      rewrite io_zones_set_zone, list_insert_insert_eq. reflexivity.
  - assert (Hzb : busy_ zb = true) by reflexivity.
    rewrite (zone_CheckRelease_held rogue i d1 zb Hz1 Hzb).
    assert (Hi3 : io_zones (set_zone (IOZone i) (set_busy false zb) d1)
                  = <[i := z]> (io_zones d)).
    { rewrite io_zones_set_zone. unfold d1.
      rewrite io_zones_set_zone, list_insert_insert_eq.
      unfold zb. now rewrite set_busy_roundtrip. }
    assert (Hf3 : open_frame d (set_zone (IOZone i) (set_busy false zb) d1)).
    { eapply open_frame_trans; [exact Hf1|apply open_frame_set_zone]. }
    destruct (rogue (IOZone i)); cbn [negb ok].
    + split; [exact Hf3|]. split; [reflexivity|].
      split; [right; split; reflexivity|].
      eexists. split; [exact Hi3|reflexivity].
    + split; [exact Hf3|]. split; [exact Hi3|].
      split; [rewrite active_set_zone; unfold d1;
              rewrite active_set_zone; cbn [andb]; lia|].
      intros _. split; [reflexivity|intros Hx; discriminate Hx].
Qed.

(** X13.  On a device whose io zones can be counted in 32 bits,
    [ResetUnusedIOZones] returns, and it leaves alone what it must not
    reclaim: whatever the backend answers, whatever other threads do and
    whatever status it returns, an io zone that is held by another thread,
    that is empty, or that has live data is on return exactly as it was at
    the entry.  The number of io zones, the open-token count, the metadata
    zones, the migration flag and the deferred status are as before too. *)
Theorem ResetUnusedIOZones_untouched (be : Backend) (rogue : ZoneRef -> bool)
    (d : Device) (j : nat) (z : Zone) :
  io_zones d !! j = Some z ->
  reclaimable z = false ->
  Z.of_nat (length (io_zones d)) < 2 ^ 32 ->
  exists st d',
    ResetUnusedIOZones be rogue d = Some (st, d') /\
    io_zones d' !! j = Some z /\
    open_frame d d'.
Proof.
  intros Hj Hz Hlt.
  set (P := fun (_ : nat) (s : Device) =>
              open_frame d s /\ io_zones s !! j = Some z).
  set (Q := fun r : option (IOStatus * Device) =>
              exists st d', r = Some (st, d') /\ P 0%nat d').
  assert (Hloop := for_zones_seq_rule P (fun _ => False) Q
                     (ResetUnusedIOZones_body be rogue) (length (io_zones d))).
  unfold ResetUnusedIOZones, indices.
  match type of Hloop with ?A -> _ => assert (Hbody : A) end;
    [|specialize (Hloop Hbody (length (io_zones d)) 0%nat d eq_refl
                    (conj (open_frame_refl d) Hj))].
  - intros i s Hi [Hf Hs].
    assert (Hlen : length (io_zones s) = length (io_zones d)) by apply Hf.
    destruct (lookup_lt_is_Some_2 (io_zones s) i) as [zi Hzi]; [lia|].
    assert (Hlts : Z.of_nat (length (io_zones s)) < 2 ^ 32)
      by (rewrite Hlen; exact Hlt).
    pose proof (ResetUnusedIOZones_body_spec be rogue i s zi Hzi Hlts) as Hb.
    destruct (ResetUnusedIOZones_body be rogue i s) as [s'|s'|[[st s']|]].
    + destruct Hb as (Hf' & Hi' & _). split.
      * eapply open_frame_trans; eassumption.
      * rewrite Hi'. destruct (decide (i = j)) as [->|Hne].
        -- rewrite Hzi in Hs. injection Hs as ->.
           unfold reclaim_zone. rewrite Hz.
           apply list_lookup_insert_eq. lia.
        -- rewrite list_lookup_insert_ne by exact Hne. exact Hs.
    + exact Hb.
    + destruct Hb as (Hf' & _ & _ & z' & Hi' & Hz').
      exists st, s'. split; [reflexivity|]. split.
      * eapply open_frame_trans; eassumption.
      * rewrite Hi'. destruct (decide (i = j)) as [->|Hne].
        -- rewrite Hzi in Hs. injection Hs as ->.
           rewrite (Hz' Hz). apply list_lookup_insert_eq. lia.
        -- rewrite list_lookup_insert_ne by exact Hne. exact Hs.
    + contradiction.
  - destruct (for_zones _ _ d) as [s'|r].
    + destruct Hloop as [[Hf Hs]|[]]. exists OK, s'.
      split; [reflexivity|]. split; assumption.
    + destruct Hloop as (st & d' & -> & Hf & Hs). exists st, d'.
      split; [reflexivity|]. split; assumption.
Qed.

Lemma ResetUnusedIOZones_untouched_witness :
  exists st d',
    ResetUnusedIOZones be_ex quiet dev_garbage_ex = Some (st, d') /\
    io_zones d' !! 1%nat = Some (open_zone_ex 4) /\
    open_frame dev_garbage_ex d'.
Proof.
  apply (ResetUnusedIOZones_untouched be_ex quiet dev_garbage_ex 1
           (open_zone_ex 4)); [reflexivity|reflexivity|].
  vm_compute. reflexivity.
Defined.

(** A scan that rewrites the io zones one by one: each iteration replaces
    the zone at hand by its image under [f], gives back an active token if
    [g] holds of it, and fails, with a result of which [bad] holds, exactly
    when [good] does not hold of an idle zone.  [I] is what the iterations
    keep of the device. *)
Lemma rewriting_scan {R : Type} (bad : R -> Prop)
    (body : nat -> Device -> Step Device R)
    (I : Device -> Prop) (f : Zone -> Zone) (g : Zone -> bool)
    (good : nat -> Zone -> Prop) (d : Device) :
  (forall i s z, I s -> io_zones s !! i = Some z ->
     match body i s with
     | Continue s' =>
         I s' /\
         io_zones s' = <[i := f z]> (io_zones s) /\
         active_io_zones_ s' = active_io_zones_ s - (if g z then 1 else 0) /\
         (busy_ z = false -> good i z)
     | Break _ => False
     | Return r => bad r /\ busy_ z = false /\ ~ good i z
     end) ->
  I d ->
  match for_zones body (indices (io_zones d)) d with
  | inl d' =>
      (forall j z, io_zones d !! j = Some z -> busy_ z = false -> good j z) /\
      io_zones d' = f <$> io_zones d /\
      active_io_zones_ d' = active_io_zones_ d - count_zones g (io_zones d)
  | inr r =>
      bad r /\
      exists j z, io_zones d !! j = Some z /\ busy_ z = false /\ ~ good j z
  end.
Proof.
  intros Hstep HI.
  set (P := fun (k : nat) (s : Device) =>
              I s /\
              io_zones s = scanned f k (io_zones d) /\
              active_io_zones_ s
              = active_io_zones_ d - count_zones g (take k (io_zones d)) /\
              forall j z, (j < k)%nat -> io_zones d !! j = Some z ->
                busy_ z = false -> good j z).
  set (Q := fun r : R =>
              bad r /\
              exists j z, io_zones d !! j = Some z /\ busy_ z = false /\
                          ~ good j z).
  assert (Hloop := for_zones_seq_rule P (fun _ => False) Q body
                     (length (io_zones d))).
  match type of Hloop with ?A -> _ => assert (Hbody : A) end;
    [|specialize (Hloop Hbody (length (io_zones d)) 0%nat d eq_refl)].
  - intros i s Hi (HIs & Hzs & Hact & Hdone).
    destruct (lookup_lt_is_Some_2 (io_zones d) i Hi) as [z Hz].
    assert (Hzi : io_zones s !! i = Some z).
    { rewrite Hzs, scanned_lookup. exact Hz. }
    specialize (Hstep i s z HIs Hzi).
    destruct (body i s) as [s'|s'|r].
    + destruct Hstep as (HI' & Hi' & Ha' & Hok).
      split; [exact HI'|]. split; [|split].
      * rewrite Hi', Hzs. now apply scanned_advance.
      * rewrite Ha', Hact, (count_zones_advance g i (io_zones d) z Hz). lia.
      * intros j zj Hlt Hj Hbj.
        destruct (decide (j = i)) as [->|Hne].
        -- rewrite Hz in Hj. injection Hj as <-. exact (Hok Hbj).
        -- apply (Hdone j zj); [lia|assumption|assumption].
    + exact Hstep.
    + destruct Hstep as (Hne & Hbz & Hnot). split; [exact Hne|].
      exists i, z. split; [exact Hz|]. split; assumption.
  - assert (HP0 : P 0%nat d).
    { split; [exact HI|]. split; [|split].
      - unfold scanned. rewrite take_0, drop_0. reflexivity.
      - rewrite take_0. unfold count_zones. cbn. lia.
      - intros j zj Hlt. lia. }
    specialize (Hloop HP0). unfold indices.
    destruct (for_zones body (seq 0 (length (io_zones d))) d) as [s'|r].
    + destruct Hloop as [(_ & Hzs & Hact & Hdone)|[]]. split; [|split].
      * intros j zj Hj. apply (Hdone j zj); [|exact Hj].
        eapply lookup_lt_Some; exact Hj.
      * rewrite Hzs. apply scanned_all.
      * rewrite Hact, firstn_all. reflexivity.
    + exact Hloop.
Qed.

(** X14.  On a device whose io zones can be counted in 32 bits,
    [ResetUnusedIOZones] returns, and it returns [OK] exactly when every
    io zone whose busy flag it could take was released without a failure
    and the backend reset each of them that was reclaimable (written, no
    live data).  On [OK] every reclaimable zone has been reset (write
    pointer at the start, capacity as the backend reports it, hint
    cleared, reset count one higher), every other zone is as before, and
    one active token has been put back for each reset zone that was not
    full. *)
Theorem ResetUnusedIOZones_OK (be : Backend) (rogue : ZoneRef -> bool)
    (d : Device) :
  Z.of_nat (length (io_zones d)) < 2 ^ 32 ->
  exists st d',
    ResetUnusedIOZones be rogue d = Some (st, d') /\
    (st = OK <->
     forall j z, io_zones d !! j = Some z -> busy_ z = false ->
       reclaim_succeeds be rogue j z) /\
    (st = OK ->
     io_zones d' = reclaim_zone be <$> io_zones d /\
     active_io_zones_ d'
     = active_io_zones_ d
       - count_zones (fun z => reclaimable z && negb (IsFull z)) (io_zones d)).
Proof.
  intros Hlt.
  pose proof (rewriting_scan
                (fun r : option (IOStatus * Device) =>
                   exists st d', r = Some (st, d') /\ st <> OK)
                (ResetUnusedIOZones_body be rogue)
                (fun s => length (io_zones s) = length (io_zones d))
                (reclaim_zone be)
                (fun z => reclaimable z && negb (IsFull z))
                (reclaim_succeeds be rogue) d) as Hscan.
  match type of Hscan with ?A -> _ => assert (Hbody : A) end;
    [|specialize (Hscan Hbody eq_refl)].
  - intros i s z Hs Hz.
    assert (Hlts : Z.of_nat (length (io_zones s)) < 2 ^ 32)
      by (rewrite Hs; exact Hlt).
    pose proof (ResetUnusedIOZones_body_spec be rogue i s z Hz Hlts) as Hb.
    destruct (ResetUnusedIOZones_body be rogue i s) as [s'|s'|[[st s']|]].
    + destruct Hb as (Hf & Hi' & Ha' & Hok).
      split; [|auto]. rewrite <- Hs. apply Hf.
    + exact Hb.
    + destruct Hb as (_ & Hbz & Hwhy & _). split; [|split; [exact Hbz|]].
      * exists st, s'. split; [reflexivity|].
        destruct Hwhy as [(_ & Hne & ->)|[_ ->]]; [exact Hne|discriminate].
      * intros [Hr Ha].
        destruct Hwhy as [(Hrz & Hne & _)|[Hrg _]]; [|congruence].
        exact (Hne (Ha Hrz)).
    + contradiction.
  - unfold ResetUnusedIOZones.
    destruct (for_zones _ _ d) as [s'|r].
    + destruct Hscan as (Hgood & Hzs & Hact). exists OK, s'.
      split; [reflexivity|].
      split; [split; [intros _; exact Hgood|reflexivity]|].
      intros _. split; assumption.
    + destruct Hscan as [(st & d' & -> & Hne) (j & zj & Hj & Hbj & Hnot)].
      exists st, d'. split; [reflexivity|].
      split; [|intros Hst; contradiction].
      split; [intros Hst; contradiction|].
      intros Hall. exfalso. exact (Hnot (Hall j zj Hj Hbj)).
Qed.

Lemma ResetUnusedIOZones_OK_witness :
  exists d',
    ResetUnusedIOZones be_ex quiet dev_garbage_ex = Some (OK, d') /\
    io_zones d' = reclaim_zone be_ex <$> io_zones dev_garbage_ex.
Proof.
  destruct (ResetUnusedIOZones_OK be_ex quiet dev_garbage_ex)
    as (st & d' & Hrun & _ & Hok); [vm_compute; reflexivity|].
  assert (Hst : st = OK).
  { apply (f_equal (fun r => fst <$> r)) in Hrun. vm_compute in Hrun.
    injection Hrun as <-. reflexivity. }
  subst st. exists d'. split; [exact Hrun|]. apply Hok. reflexivity.
Defined.

(** ** [ApplyFinishThreshold] *)

Lemma finished_zone_held (be : Backend) (z : Zone) :
  busy_ z = false ->
  set_busy false (finished_zone be (set_busy true z)) = finished_zone be z.
Proof. destruct z; cbn; intros ->; reflexivity. Qed.

Lemma zone_Release_held (rogue : ZoneRef -> bool) (i : nat) (d : Device)
    (z : Zone) :
  io_zones d !! i = Some z -> busy_ z = true ->
  zone_Release rogue (IOZone i) d =
  (negb (rogue (IOZone i)), set_zone (IOZone i) (set_busy false z) d).
Proof.
  intros H Hb. unfold zone_Release, interfered. cbn [zone_at]. rewrite H.
  unfold Release.
  destruct (rogue (IOZone i)); cbn [busy_ set_busy negb]; [|rewrite Hb];
    destruct z; reflexivity.
Qed.

Lemma zone_Finish_io (be : Backend) (i : nat) (d : Device) (z : Zone) :
  io_zones d !! i = Some z ->
  zone_Finish be i d =
  if negb (bool_decide (be_Finish be (start_ z) = OK))
  then (be_Finish be (start_ z), set_zone (IOZone i) z d)
  else (OK, set_zone (IOZone i) (finished_zone be z) d).
Proof.
  intros H. unfold zone_Finish, Zone_Finish. rewrite H.
  destruct (negb _); reflexivity.
Qed.

Lemma finish_threshold_set_zone (r : ZoneRef) (z : Zone) (d : Device) :
  finish_threshold_ (set_zone r z d) = finish_threshold_ d.
Proof. destruct r; reflexivity. Qed.

(** One iteration of [ApplyFinishThreshold] on the zone [z] at position
    [i]. *)
Lemma ApplyFinishThreshold_body_spec (be : Backend) (rogue : ZoneRef -> bool)
    (i : nat) (d : Device) (z : Zone) :
  io_zones d !! i = Some z ->
  match ApplyFinishThreshold_body be rogue i d with
  | Continue d' =>
      finish_threshold_ d' = finish_threshold_ d /\
      io_zones d' = <[i := finish_zone be (finish_threshold_ d) z]> (io_zones d) /\
      active_io_zones_ d' =
        active_io_zones_ d
        - (if finishable (finish_threshold_ d) z then 1 else 0) /\
      (busy_ z = false -> finish_succeeds be rogue (finish_threshold_ d) i z)
  | Break _ => False
  | Return (st, d') =>
      busy_ z = false /\
      ((finishable (finish_threshold_ d) z = true /\
        be_Finish be (start_ z) <> OK /\ st = be_Finish be (start_ z)) \/
       (rogue (IOZone i) = true /\ st = Corruption))
  end.
Proof.
  intros Hz. unfold ApplyFinishThreshold_body.
  rewrite (zone_Acquire_io i d z Hz).
  unfold finish_succeeds, finish_zone, finishable.
  destruct (busy_ z) eqn:Hb; cbn [negb andb].
  { split; [reflexivity|].
    split; [symmetry; now apply list_insert_id|].
    split; [lia|discriminate]. }
  set (zb := set_busy true z).
  set (d1 := set_zone (IOZone i) zb d).
  assert (Hz1 : io_zones d1 !! i = Some zb) by (eapply lookup_set_zone; exact Hz).
  assert (Hzb : busy_ zb = true) by reflexivity.
  rewrite Hz1.
  change (IsEmpty zb) with (IsEmpty z). change (IsFull zb) with (IsFull z).
  change (capacity_ zb) with (capacity_ z).
  change (max_capacity_ zb) with (max_capacity_ z).
  change (finish_threshold_ d1) with (finish_threshold_ d).
  destruct (negb (IsEmpty z || IsFull z)
            && (capacity_ z <? u64 (max_capacity_ z * finish_threshold_ d) / 100))
    eqn:Hr.
  - rewrite (zone_Finish_io be i d1 zb Hz1).
    change (start_ zb) with (start_ z).
    destruct (bool_decide_reflect (be_Finish be (start_ z) = OK)) as [Hok|Hne];
      cbn [negb ok].
    + set (zf := finished_zone be zb).
      set (d2 := set_zone (IOZone i) zf d1).
      assert (Hz2 : io_zones d2 !! i = Some zf)
        by (eapply lookup_set_zone; exact Hz1).
      assert (Hzf : busy_ zf = true) by (destruct z; reflexivity).
      rewrite (zone_CheckRelease_held rogue i d2 zf Hz2 Hzf).
      destruct (rogue (IOZone i)); cbn [negb ok].
      * split; [reflexivity|]. right. split; reflexivity.
      * split; [reflexivity|]. split; [|split].
        -- unfold PutActiveIOZoneToken. cbn [io_zones set_active_io_zones].
           rewrite io_zones_set_zone. unfold d2. rewrite io_zones_set_zone.
           unfold d1. rewrite io_zones_set_zone, !list_insert_insert_eq.
           unfold zf, zb. now rewrite finished_zone_held.
        -- unfold PutActiveIOZoneToken.
           cbn [active_io_zones_ set_active_io_zones].
           rewrite active_set_zone. unfold d2. rewrite active_set_zone.
           unfold d1. rewrite active_set_zone. reflexivity.
        -- intros _. split; [reflexivity|]. intros _. exact Hok.
    + assert (Hok : ok (be_Finish be (start_ z)) = false)
        by (destruct (be_Finish be (start_ z)); try reflexivity; congruence).
      rewrite Hok. cbn [negb].
      destruct (zone_Release rogue (IOZone i) (set_zone (IOZone i) zb d1)).
      split; [reflexivity|]. left.
      split; [reflexivity|]. split; [exact Hne|reflexivity].
  - rewrite (zone_CheckRelease_held rogue i d1 zb Hz1 Hzb).
    destruct (rogue (IOZone i)); cbn [negb ok].
    + split; [reflexivity|]. right. split; reflexivity.
    + split; [reflexivity|]. split; [|split].
      * rewrite io_zones_set_zone. unfold d1.
        rewrite io_zones_set_zone, list_insert_insert_eq.
        unfold zb. now rewrite set_busy_roundtrip.
      * rewrite active_set_zone. unfold d1. rewrite active_set_zone. lia.
      * intros _. split; [reflexivity|intros Hx; discriminate Hx].
Qed.

(** X15.  [ApplyFinishThreshold] with a threshold of 0 does nothing.
    Otherwise it returns [OK] exactly when every io zone whose busy flag
    it could take was released without a failure and the backend finished
    each of them that was neither empty nor full and had less than
    [finish_threshold_] percent of its capacity left.  On [OK] each of
    those zones is full (capacity 0, write pointer at the end of the zone),
    every other zone is as before, and one active token has been put back
    for each finished zone. *)
Theorem ApplyFinishThreshold_OK (be : Backend) (rogue : ZoneRef -> bool)
    (d : Device) :
  (finish_threshold_ d = 0 -> ApplyFinishThreshold be rogue d = (OK, d)) /\
  (finish_threshold_ d <> 0 ->
   (fst (ApplyFinishThreshold be rogue d) = OK <->
    forall j z, io_zones d !! j = Some z -> busy_ z = false ->
      finish_succeeds be rogue (finish_threshold_ d) j z) /\
   (fst (ApplyFinishThreshold be rogue d) = OK ->
    io_zones (snd (ApplyFinishThreshold be rogue d))
    = finish_zone be (finish_threshold_ d) <$> io_zones d /\
    active_io_zones_ (snd (ApplyFinishThreshold be rogue d))
    = active_io_zones_ d
      - count_zones (finishable (finish_threshold_ d)) (io_zones d))).
Proof.
  unfold ApplyFinishThreshold.
  destruct (finish_threshold_ d =? 0) eqn:Hthr.
  { split; [reflexivity|]. intros Hne. apply Z.eqb_eq in Hthr. contradiction. }
  split; [intros H0; apply Z.eqb_neq in Hthr; contradiction|]. intros _.
  pose proof (rewriting_scan (fun r : IOStatus * Device => fst r <> OK)
                (ApplyFinishThreshold_body be rogue)
                (fun s => finish_threshold_ s = finish_threshold_ d)
                (finish_zone be (finish_threshold_ d))
                (finishable (finish_threshold_ d))
                (finish_succeeds be rogue (finish_threshold_ d)) d) as Hscan.
  match type of Hscan with ?A -> _ => assert (Hbody : A) end;
    [|specialize (Hscan Hbody eq_refl)].
  - intros i s z Hs Hz.
    pose proof (ApplyFinishThreshold_body_spec be rogue i s z Hz) as Hb.
    rewrite Hs in Hb.
    destruct (ApplyFinishThreshold_body be rogue i s) as [s'|s'|[st s']].
    + destruct Hb as (Ht & Hi' & Ha' & Hok).
      split; [congruence|]. auto.
    + exact Hb.
    + destruct Hb as (Hbz & Hwhy). split; [|split; [exact Hbz|]].
      * destruct Hwhy as [(_ & Hne & ->)|[_ ->]]; [exact Hne|discriminate].
      * intros [Hr Ha].
        destruct Hwhy as [(Hrz & Hne & _)|[Hrg _]]; [|congruence].
        exact (Hne (Ha Hrz)).
  - destruct (for_zones _ _ d) as [s'|[st s']]; cbn [fst snd].
    + destruct Hscan as (Hgood & Hzs & Hact).
      split; [split; [intros _; exact Hgood|reflexivity]|].
      intros _. split; assumption.
    + destruct Hscan as [Hne (j & zj & Hj & Hbj & Hnot)].
      split; [|intros Hst; contradiction].
      split; [intros Hst; contradiction|].
      intros Hall. exfalso. exact (Hnot (Hall j zj Hj Hbj)).
Qed.

(** ** The migration zone *)

(** [GetBestOpenZoneMatch] without interference: the result and the
    device. *)
Lemma GetBestOpenZoneMatch_quiet (lt : WriteLifeTimeHint) (mc : Z)
    (d : Device) :
  exists best_diff zone_out,
    GetBestOpenZoneMatch quiet lt mc d =
      (OK, Some (best_diff, zone_out), hold zone_out d) /\
    is_best_match lt mc (io_zones d) zone_out best_diff.
Proof.
  pose proof (GetBestOpenZoneMatch_loop lt mc d (io_zones d) [] None
                LIFETIME_DIFF_NOT_GOOD eq_refl I) as Hloop.
  pose proof (best_match_scan_spec lt mc (io_zones d) [] None
                LIFETIME_DIFF_NOT_GOOD) as Hspec.
  cbn [length app] in Hloop, Hspec.
  destruct (best_match_scan lt mc (io_zones d) 0 (None, LIFETIME_DIFF_NOT_GOOD))
    as [zone_out best_diff].
  exists best_diff, zone_out. split.
  - unfold GetBestOpenZoneMatch, indices.
    change (hold None d) with d in Hloop. rewrite Hloop. reflexivity.
  - apply Hspec; [|exact I].
    split; [reflexivity|]. intros j z Hj. discriminate.
Qed.

Lemma set_migrating_roundtrip (d : Device) :
  migrating_ d = false -> set_migrating false (set_migrating true d) = d.
Proof. destruct d; cbn; intros ->; reflexivity. Qed.

Lemma release_held_restores (a : nat) (za : Zone) (d : Device) :
  io_zones d !! a = Some za -> busy_ za = false -> migrating_ d = false ->
  ReleaseMigrateZone quiet (Some a)
    (set_zone (IOZone a) (set_busy true za) (set_migrating true d))
  = (OK, d).
Proof.
  intros Hza Hb Hm. unfold ReleaseMigrateZone.
  rewrite (quiet_release a za); [|apply list_lookup_insert_eq;
                                   eapply lookup_lt_Some; exact Hza|exact Hb].
  f_equal. destruct d. cbn in *. subst. unfold set_zone, set_io_zones. cbn.
  f_equal. rewrite list_insert_insert_eq. now apply list_insert_id.
Qed.

(** X16.  Taking and releasing the migration zone is a round trip.  With
    no other thread interfering, [TakeMigrateZone] on a device that is not
    migrating returns [OK]; when it hands out a zone, [migrating_] is set,
    and [ReleaseMigrateZone] of that zone returns [OK] and gives the device
    back exactly as it was before the take; when it hands out null, the
    device is as before, [migrating_] cleared. *)
Theorem migrate_zone_round_trip (file_lifetime : WriteLifeTimeHint)
    (min_capacity : Z) (d : Device) :
  migrating_ d = false ->
  exists zone_out d1,
    TakeMigrateZone quiet file_lifetime min_capacity d
    = Some (OK, Some zone_out, d1) /\
    match zone_out with
    | Some a =>
        migrating_ d1 = true /\
        (exists za, io_zones d !! a = Some za /\
                    open_candidate min_capacity za = true /\
                    io_zones d1 = <[a := set_busy true za]> (io_zones d)) /\
        ReleaseMigrateZone quiet (Some a) d1 = (OK, d)
    | None => d1 = d
    end.
Proof.
  intros Hm. unfold TakeMigrateZone. rewrite Hm.
  destruct (GetBestOpenZoneMatch_quiet file_lifetime min_capacity
              (set_migrating true d)) as (best_diff & zone_out & -> & Hbest).
  exists zone_out. destruct zone_out as [a|]; cbn [fmap option_fmap option_map
    snd mjoin option_join ok andb].
  - cbn [is_best_match] in Hbest. destruct Hbest as (za & Hza & Hc & _).
    change (io_zones (set_migrating true d)) with (io_zones d) in Hza.
    rewrite (hold_Some a za) by exact Hza.
    eexists. split; [reflexivity|]. split; [reflexivity|].
    split; [exists za; repeat split; assumption|].
    apply release_held_restores; [exact Hza| |exact Hm].
    eapply open_candidate_idle; exact Hc.
  - exists d. split; [|reflexivity].
    change (hold None (set_migrating true d)) with (set_migrating true d).
    cbn. now rewrite set_migrating_roundtrip.
Qed.

Lemma migrate_zone_round_trip_witness :
  exists zone_out d1,
    TakeMigrateZone quiet WLTH_SHORT 0 dev_open_ex = Some (OK, Some zone_out, d1) /\
    match zone_out with
    | Some a =>
        migrating_ d1 = true /\
        (exists za, io_zones dev_open_ex !! a = Some za /\
                    open_candidate 0 za = true /\
                    io_zones d1 = <[a := set_busy true za]> (io_zones dev_open_ex)) /\
        ReleaseMigrateZone quiet (Some a) d1 = (OK, dev_open_ex)
    | None => d1 = dev_open_ex
    end.
Proof.
  apply (migrate_zone_round_trip WLTH_SHORT 0 dev_open_ex). reflexivity.
Defined.

Lemma migrate_enter_active (d d1 : Device) :
  migrate_enter d = Some d1 ->
  active_io_zones_ d1 = active_io_zones_ d /\
  max_nr_active_io_zones_ d1 = max_nr_active_io_zones_ d.
Proof.
  unfold migrate_enter, WaitForOpenIOZoneToken. intros H.
  destruct (migrating_ d); [discriminate|].
  destruct (_ <? _); [|discriminate].
  injection H as <-. split; reflexivity.
Qed.

Lemma migrate_claim_empty_active (rogue : ZoneRef -> bool)
    (lt : WriteLifeTimeHint) (t : option nat) (d : Device) :
  let r := migrate_claim_empty rogue lt t d in
  let available := active_io_zones_ d <? max_nr_active_io_zones_ d in
  max_nr_active_io_zones_ (fst r) = max_nr_active_io_zones_ d /\
  match t with
  | None => snd r = None /\ active_io_zones_ (fst r) = active_io_zones_ d
  | Some t =>
      if available
      then snd r = Some t /\ active_io_zones_ (fst r) = active_io_zones_ d + 1
      else snd r = None /\ active_io_zones_ (fst r) = active_io_zones_ d
  end.
Proof.
  unfold migrate_claim_empty. destruct t as [t|]; [|repeat split].
  unfold GetActiveIOZoneTokenIfAvailable.
  destruct (_ <? _); cbn [negb].
  - destruct (_ !! _); cbn; repeat split.
  - pose proof (zone_Release_tokens rogue (IOZone t) (PutOpenIOZoneToken d)) as H.
    destruct (zone_Release _ _ _) as [b d']. cbn [fst snd] in *.
    unfold tokens_kept, PutOpenIOZoneToken in H. cbn in H.
    intuition congruence.
Qed.

Lemma migrate_enter_zones (d d1 : Device) :
  migrate_enter d = Some d1 -> io_zones d1 = io_zones d.
Proof.
  unfold migrate_enter, WaitForOpenIOZoneToken. intros H.
  destruct (migrating_ d); [discriminate|].
  destruct (_ <? _); [|discriminate].
  injection H as <-. reflexivity.
Qed.

Lemma zone_CheckRelease_io_other (rogue : ZoneRef -> bool) (i j : nat)
    (d : Device) :
  j <> i ->
  io_zones (snd (zone_CheckRelease rogue (IOZone i) d)) !! j = io_zones d !! j.
Proof.
  intros Hne. unfold zone_CheckRelease. cbn [zone_at].
  destruct (io_zones d !! i) as [z|]; [|reflexivity].
  destruct (CheckRelease _) as [st z']. cbn [snd].
  rewrite io_zones_set_zone. apply list_lookup_insert_ne. congruence.
Qed.

(** The target of the first scan of [GetMigrateTargetZone] is a zone that
    was empty and not held when the scan began. *)
Lemma migrate_empty_scan_found (rogue : ZoneRef -> bool) (d1 d2 : Device)
    (t : nat) :
  migrate_empty_scan rogue d1 = inl (d2, Some t) ->
  exists z, io_zones d1 !! t = Some z /\ IsEmpty z = true /\ busy_ z = false.
Proof.
  set (P := fun (k : nat) (s : Device * option nat) =>
              (forall j, (k <= j)%nat ->
                 io_zones (fst s) !! j = io_zones d1 !! j) /\
              match snd s with
              | Some t =>
                  (t < k)%nat /\
                  exists z, io_zones d1 !! t = Some z /\ IsEmpty z = true /\
                            busy_ z = false
              | None => True
              end).
  assert (Hloop := for_zones_seq_rule P (fun _ => False)
                     (fun _ : IOStatus * Device => True)
                     (migrate_empty_body rogue) (length (io_zones d1))).
  match type of Hloop with ?A -> _ => assert (Hbody : A) end;
    [|specialize (Hloop Hbody (length (io_zones d1)) 0%nat (d1, None) eq_refl)].
  - intros i [s tg] Hi [Hs Ht]. cbn [fst snd] in Hs, Ht.
    destruct (lookup_lt_is_Some_2 (io_zones d1) i Hi) as [z Hz].
    assert (Hzi : io_zones s !! i = Some z) by (rewrite Hs by lia; exact Hz).
    assert (Hmono : match tg with
                    | Some t =>
                        (t < Datatypes.S i)%nat /\
                        exists z, io_zones d1 !! t = Some z /\
                                  IsEmpty z = true /\ busy_ z = false
                    | None => True
                    end).
    { destruct tg as [t0|]; [|exact I]. destruct Ht as [Hlt Hex].
      split; [lia|exact Hex]. }
    unfold migrate_empty_body, P. rewrite (zone_Acquire_io i s z Hzi).
    cbn [fst snd].
    destruct (busy_ z) eqn:Hb; cbn [negb].
    { split; [|exact Hmono]. intros j Hj. apply Hs. lia. }
    set (sa := set_zone (IOZone i) (set_busy true z) s).
    assert (Hsa : forall j, (Datatypes.S i <= j)%nat ->
                    io_zones sa !! j = io_zones d1 !! j).
    { intros j Hj. unfold sa. rewrite io_zones_set_zone.
      rewrite list_lookup_insert_ne by lia. apply Hs. lia. }
    assert (Hza : io_zones sa !! i = Some (set_busy true z))
      by (eapply lookup_set_zone; exact Hzi).
    rewrite Hza. change (IsEmpty (set_busy true z)) with (IsEmpty z).
    change (reset_count_ (set_busy true z)) with (reset_count_ z).
    assert (Hrel : forall r : nat, (r <= i)%nat ->
              forall j, (Datatypes.S i <= j)%nat ->
                io_zones (snd (zone_CheckRelease rogue (IOZone r) sa)) !! j
                = io_zones d1 !! j).
    { intros r Hr j Hj. rewrite zone_CheckRelease_io_other by lia.
      apply Hsa. exact Hj. }
    destruct (IsEmpty z) eqn:He.
    + destruct tg as [t0|].
      * destruct Ht as [Hlt Hex].
        destruct (reset_count_at sa t0 <? reset_count_ z).
        -- pose proof (Hrel t0 ltac:(lia)) as Hr0.
           destruct (zone_CheckRelease rogue (IOZone t0) sa) as [st sr].
           cbn [snd] in Hr0.
           destruct (ok st); cbn [negb].
           ++ split; [exact Hr0|]. cbn [snd]. split; [lia|].
              exists z. repeat split; assumption.
           ++ destruct (zone_CheckRelease rogue (IOZone i) sr) as [st2 sr2].
              destruct (negb (ok st2)); exact I.
        -- pose proof (Hrel i ltac:(lia)) as Hri.
           destruct (zone_CheckRelease rogue (IOZone i) sa) as [st sr].
           cbn [snd] in Hri.
           destruct (ok st); cbn [negb]; [|exact I].
           split; [exact Hri|exact Hmono].
      * split; [exact Hsa|]. cbn [snd]. split; [lia|].
        exists z. repeat split; assumption.
    + pose proof (Hrel i ltac:(lia)) as Hri.
      destruct (zone_CheckRelease rogue (IOZone i) sa) as [st sr].
      cbn [snd] in Hri.
      destruct (ok st); cbn [negb]; [|exact I].
      split; [exact Hri|exact Hmono].
  - intros Hrun. unfold migrate_empty_scan, indices in Hrun.
    rewrite Hrun in Hloop.
    destruct Hloop as [[_ Ht]|[]]; [split; [reflexivity|exact I]|].
    cbn [snd] in Ht. apply Ht.
Qed.

(** X17.  The tokens on the exits of [GetMigrateTargetZone] that are not
    failures ([OK] and [NotFound]), whatever the other threads do in each
    of the two scans.  The open token taken at the entry is still out on
    return, whether or not a target is handed out, unless the first scan
    found an empty zone for which no active token was available: then it
    has been put back, also when the second scan hands out a target.  An
    active token is taken exactly when the first scan found an empty zone
    and a token was available.  The zone the first scan ends with was
    empty and not held at the entry, and when a token is available it is
    that very zone that is handed out, with [OK]. *)
Theorem GetMigrateTargetZone_tokens (rogue_at : nat -> ZoneRef -> bool)
    (file_lifetime : WriteLifeTimeHint) (min_capacity : Z)
    (d d1 d' : Device) (st : IOStatus) (out : option (option nat)) :
  migrate_enter d = Some d1 ->
  GetMigrateTargetZone rogue_at file_lifetime min_capacity d
  = Some (st, out, d') ->
  st <> Corruption ->
  let found := empty_target (migrate_empty_scan (rogue_at 0%nat) d1) in
  let available := active_io_zones_ d <? max_nr_active_io_zones_ d in
  open_io_zones_ d' =
    open_io_zones_ d + (if found && negb available then 0 else 1) /\
  active_io_zones_ d' =
    active_io_zones_ d + (if found && available then 1 else 0) /\
  (found && available = true -> st = OK /\ exists t, out = Some (Some t)) /\
  (st = OK \/ st = NotFound) /\
  (forall d2 t,
     migrate_empty_scan (rogue_at 0%nat) d1 = inl (d2, Some t) ->
     (exists z, io_zones d !! t = Some z /\ IsEmpty z = true /\
                busy_ z = false) /\
     (available = true -> st = OK /\ out = Some (Some t))).
Proof.
  intros Henter H Hst. unfold GetMigrateTargetZone in H. rewrite Henter in H.
  pose proof (migrate_enter_active d d1 Henter) as [Ha Hmax].
  pose proof (migrate_enter_zones d d1 Henter) as Hzones.
  apply migrate_enter_spec in Henter as [Hm Ho].
  pose proof (migrate_empty_scan_tokens (rogue_at 0%nat) d1) as H1.
  pose proof (migrate_empty_scan_found (rogue_at 0%nat) d1) as Hfound.
  rewrite Hzones in Hfound.
  destruct (migrate_empty_scan (rogue_at 0%nat) d1) as [[d2 t]|[s1 d2]].
  2:{ injection H as <- <- <-. destruct H1 as [-> _]. contradiction. }
  cbn [fst] in H1.
  pose proof (migrate_claim_empty_tokens (rogue_at 0%nat) file_lifetime t d2)
    as H2.
  pose proof (migrate_claim_empty_active (rogue_at 0%nat) file_lifetime t d2)
    as H2a.
  destruct (migrate_claim_empty (rogue_at 0%nat) file_lifetime t d2)
    as [d3 t'].
  cbn [fst snd] in H2, H2a. destruct H2 as [H2m H2o]. destruct H2a as [H2x H2a].
  pose proof (migrate_open_scan_tokens (rogue_at 1%nat) file_lifetime
                min_capacity t' d3) as H3.
  assert (Hav : (active_io_zones_ d2 <? max_nr_active_io_zones_ d2)
                = (active_io_zones_ d <? max_nr_active_io_zones_ d)).
  { unfold tokens_kept in H1. destruct H1 as (_ & -> & -> & _).
    now rewrite Ha, Hmax. }
  rewrite Hav in H2a.
  unfold tokens_kept in H1.
  destruct (migrate_open_scan (rogue_at 1%nat) file_lifetime min_capacity
              t' d3) as [[d4 [t4|]]|[s4 d4]] eqn:Hscan; cbn [fst] in H3.
  3:{ injection H as <- <- <-. destruct H3 as [-> _]. contradiction. }
  - injection H as <- <- <-. unfold tokens_kept in H3.
    destruct t as [t|]; cbn [empty_target andb].
    + destruct (active_io_zones_ d <? max_nr_active_io_zones_ d);
        cbn [negb andb]; destruct H2a as [-> H2a].
      * unfold migrate_open_scan in Hscan. injection Hscan as _ <-.
        split; [lia|]. split; [lia|]. split; [eauto|].
        split; [left; reflexivity|].
        intros d2' t0 E. injection E as _ <-.
        split; [exact (Hfound d2 t eq_refl)|]. intros _. split; reflexivity.
      * split; [lia|]. split; [lia|].
        split; [discriminate|]. split; [left; reflexivity|].
        intros d2' t0 E. injection E as _ <-.
        split; [exact (Hfound d2 t eq_refl)|discriminate].
    + destruct H2a as [-> H2a].
      split; [lia|]. split; [lia|]. split; [discriminate|].
      split; [left; reflexivity|]. intros d2' t0 E. discriminate E.
  - injection H as <- <- <-. unfold tokens_kept in H3.
    cbn [open_io_zones_ active_io_zones_ set_migrating].
    destruct t as [t|]; cbn [empty_target andb].
    + destruct (active_io_zones_ d <? max_nr_active_io_zones_ d);
        cbn [negb andb]; destruct H2a as [-> H2a].
      * unfold migrate_open_scan in Hscan. discriminate.
      * split; [lia|]. split; [lia|].
        split; [discriminate|]. split; [right; reflexivity|].
        intros d2' t0 E. injection E as _ <-.
        split; [exact (Hfound d2 t eq_refl)|discriminate].
    + destruct H2a as [-> H2a].
      split; [lia|]. split; [lia|]. split; [discriminate|].
      split; [right; reflexivity|]. intros d2' t0 E. discriminate E.
Qed.

Lemma GetMigrateTargetZone_tokens_witness :
  exists d',
    GetMigrateTargetZone (always quiet) WLTH_SHORT 0 dev_migrate_free_ex
    = Some (OK, Some (Some 1%nat), d') /\
    open_io_zones_ d' = open_io_zones_ dev_migrate_free_ex + 1 /\
    active_io_zones_ d' = active_io_zones_ dev_migrate_free_ex + 1.
Proof.
  destruct (migrate_enter dev_migrate_free_ex) as [d1|] eqn:Henter;
    [|vm_compute in Henter; discriminate].
  assert (Hfound : exists d2, migrate_empty_scan quiet d1 = inl (d2, Some 1%nat)).
  { pose proof Henter as Hc. vm_compute in Hc. injection Hc as Hc.
    rewrite <- Hc. eexists. vm_compute. reflexivity. }
  destruct Hfound as [d2 Hfound].
  destruct (GetMigrateTargetZone (always quiet) WLTH_SHORT 0 dev_migrate_free_ex)
    as [[[st out] d']|] eqn:E; [|vm_compute in E; discriminate].
  assert (Hst : st = OK).
  { apply (f_equal (fmap (fun r => fst (fst r)))) in E.
    vm_compute in E. congruence. }
  subst st.
  destruct (GetMigrateTargetZone_tokens (always quiet) WLTH_SHORT 0
              dev_migrate_free_ex d1 d' OK out Henter E)
    as (Ho & Ha & _ & _ & Hpin); [discriminate|].
  change (always quiet 0%nat) with quiet in Ho, Ha, Hpin.
  rewrite Hfound in Ho, Ha. cbn [empty_target] in Ho, Ha.
  destruct (Hpin d2 1%nat Hfound) as [_ Hout].
  destruct (Hout eq_refl) as [_ ->].
  exists d'. split; [reflexivity|].
  split; [rewrite Ho|rewrite Ha]; vm_compute; reflexivity.
Defined.

(** ** [FinishCheapestIOZone] *)

Lemma finish_candidate_idle (z : Zone) :
  finish_candidate z = true -> busy_ z = false.
Proof. unfold finish_candidate. destruct (busy_ z); [discriminate|reflexivity]. Qed.

Lemma hold_lookup_ne (v : option nat) (k : nat) (z : Zone) (d0 : Device) :
  io_zones d0 !! k = Some z ->
  match v with Some a => a <> k | None => True end ->
  io_zones (hold v d0) !! k = Some z.
Proof.
  intros Hk Hne. destruct v as [a|]; [|exact Hk]. unfold hold.
  destruct (io_zones d0 !! a) as [za|]; [|exact Hk].
  rewrite io_zones_set_zone, list_lookup_insert_ne by exact Hne. exact Hk.
Qed.

(** One iteration of [FinishCheapestIOZone] without interference, on a
    device that is [d0] with the victim so far held. *)
Lemma FinishCheapestIOZone_step (d0 : Device) (k : nat) (z : Zone)
    (victim : option nat) :
  io_zones d0 !! k = Some z ->
  match victim with
  | None => True
  | Some v => v <> k /\ exists zv, io_zones d0 !! v = Some zv /\ busy_ zv = false
  end ->
  FinishCheapestIOZone_body quiet k (hold victim d0, victim) =
  Continue (hold (cheapest_step (io_zones d0) k z victim) d0,
            cheapest_step (io_zones d0) k z victim).
Proof.
  intros Hk Hv.
  assert (Hat : io_zones (hold victim d0) !! k = Some z).
  { apply hold_lookup_ne; [exact Hk|]. destruct victim; [apply Hv|exact I]. }
  unfold FinishCheapestIOZone_body, cheapest_step, finish_candidate.
  rewrite (zone_Acquire_io k _ z Hat).
  destruct (busy_ z) eqn:Hb; cbn [negb andb]; [reflexivity|].
  rewrite (lookup_set_zone k z _ _ Hat).
  change (IsEmpty (set_busy true z)) with (IsEmpty z).
  change (IsFull (set_busy true z)) with (IsFull z).
  change (capacity_ (set_busy true z)) with (capacity_ z).
  assert (Hrel : zone_CheckRelease quiet (IOZone k)
                   (set_zone (IOZone k) (set_busy true z) (hold victim d0))
                 = (OK, hold victim d0)).
  { rewrite (quiet_release k z); [|eapply lookup_set_zone; exact Hat|exact Hb].
    rewrite set_zone_set_zone. f_equal. now apply set_zone_id. }
  destruct (IsEmpty z || IsFull z); cbn [negb].
  { rewrite Hrel. reflexivity. }
  destruct victim as [v|].
  2:{ rewrite (hold_Some k z) by exact Hk. reflexivity. }
  destruct Hv as (Hne & zv & Hzv & Hbv).
  rewrite (hold_Some v zv) by exact Hzv.
  rewrite io_zones_set_zone, list_lookup_insert_ne by congruence.
  rewrite (lookup_set_zone v zv _ _ Hzv).
  change (capacity_ (set_busy true zv)) with (capacity_ zv).
  unfold capacity_at. rewrite Hzv.
  destruct (capacity_ z <? capacity_ zv).
  - rewrite (quiet_release v zv); [| |exact Hbv].
    + cbn [ok negb]. rewrite (hold_Some k z) by exact Hk.
      rewrite set_zone_comm by congruence.
      rewrite set_zone_set_zone, (set_zone_id (IOZone v)) by exact Hzv.
      reflexivity.
    + rewrite io_zones_set_zone, list_lookup_insert_ne by congruence.
      eapply lookup_set_zone; exact Hzv.
  - rewrite <- (hold_Some v zv) by exact Hzv.
    rewrite Hrel. reflexivity.
Qed.

(** The loop of [FinishCheapestIOZone], run without interference, chooses
    as [cheapest_scan] does and holds its choice. *)
Lemma FinishCheapestIOZone_loop (d0 : Device) :
  forall suf pre victim,
    io_zones d0 = pre ++ suf ->
    match victim with
    | None => True
    | Some v =>
        (v < length pre)%nat /\
        exists zv, io_zones d0 !! v = Some zv /\ busy_ zv = false
    end ->
    for_zones (FinishCheapestIOZone_body quiet)
      (seq (length pre) (length suf)) (hold victim d0, victim) =
    inl (hold (cheapest_scan (io_zones d0) suf (length pre) victim) d0,
         cheapest_scan (io_zones d0) suf (length pre) victim).
Proof.
  induction suf as [|z suf IH]; intros pre victim Hzs Hv.
  - reflexivity.
  - assert (Hk : io_zones d0 !! length pre = Some z).
    { rewrite Hzs. apply list_lookup_middle. reflexivity. }
    cbn [length seq for_zones cheapest_scan].
    rewrite (FinishCheapestIOZone_step d0 (length pre) z victim Hk).
    2:{ destruct victim as [v|]; [|exact I].
        destruct Hv as [Hlt Hex]. split; [lia|exact Hex]. }
    specialize (IH (pre ++ [z])).
    rewrite length_app in IH. cbn [length] in IH.
    replace (length pre + 1)%nat with (S (length pre)) in IH by lia.
    apply IH; [rewrite Hzs, <- app_assoc; reflexivity|].
    unfold cheapest_step.
    destruct (finish_candidate z) eqn:Hc.
    + assert (Hnew : (length pre < S (length pre))%nat /\
                     exists zv, io_zones d0 !! length pre = Some zv /\
                                busy_ zv = false).
      { split; [lia|]. exists z. split; [exact Hk|].
        now apply finish_candidate_idle. }
      destruct victim as [v|]; [|exact Hnew].
      destruct (capacity_ z <? capacity_at (io_zones d0) v); [exact Hnew|].
      destruct Hv as [Hlt Hex]. split; [lia|exact Hex].
    + destruct victim as [v|]; [|exact I].
      destruct Hv as [Hlt Hex]. split; [lia|exact Hex].
Qed.

(** What [cheapest_scan] chooses is the cheapest zone. *)
Lemma cheapest_scan_spec (all : list Zone) :
  forall suf pre victim,
    all = pre ++ suf ->
    is_cheapest all (length pre) victim ->
    is_cheapest all (length all)
      (cheapest_scan all suf (length pre) victim).
Proof.
  induction suf as [|z suf IH]; intros pre victim Hall Hacc.
  - cbn [cheapest_scan]. rewrite app_nil_r in Hall. subst all. exact Hacc.
  - cbn [cheapest_scan].
    assert (Hk : all !! length pre = Some z).
    { rewrite Hall. apply list_lookup_middle. reflexivity. }
    specialize (IH (pre ++ [z])).
    rewrite length_app in IH. cbn [length] in IH.
    replace (length pre + 1)%nat with (S (length pre)) in IH by lia.
    apply IH; [rewrite Hall, <- app_assoc; reflexivity|].
    unfold cheapest_step.
    destruct (finish_candidate z) eqn:Hc.
    + destruct victim as [v|]; cbn [is_cheapest] in Hacc |- *.
      * destruct Hacc as (Hlt & zv & Hzv & Hcv & Hmin).
        unfold capacity_at. rewrite Hzv.
        destruct (capacity_ z <? capacity_ zv) eqn:Hcap.
        -- apply Z.ltb_lt in Hcap. split; [lia|].
           exists z. split; [exact Hk|]. split; [exact Hc|].
           intros j zj Hj Hzj Hcj.
           destruct (decide (j = length pre)) as [->|Hne].
           { rewrite Hk in Hzj. injection Hzj as <-. split; lia. }
           destruct (Hmin j zj ltac:(lia) Hzj Hcj) as [Hle _].
           split; [lia|intros _; lia].
        -- apply Z.ltb_ge in Hcap. split; [lia|].
           exists zv. split; [exact Hzv|]. split; [exact Hcv|].
           intros j zj Hj Hzj Hcj.
           destruct (decide (j = length pre)) as [->|Hne].
           { rewrite Hk in Hzj. injection Hzj as <-. split; [lia|lia]. }
           exact (Hmin j zj ltac:(lia) Hzj Hcj).
      * split; [lia|]. exists z. split; [exact Hk|]. split; [exact Hc|].
        intros j zj Hj Hzj Hcj.
        destruct (decide (j = length pre)) as [->|Hne].
        { rewrite Hk in Hzj. injection Hzj as <-. split; lia. }
        rewrite (Hacc j zj ltac:(lia) Hzj) in Hcj. discriminate.
    + destruct victim as [v|]; cbn [is_cheapest] in Hacc |- *.
      * destruct Hacc as (Hlt & zv & Hzv & Hcv & Hmin).
        split; [lia|]. exists zv. split; [exact Hzv|]. split; [exact Hcv|].
        intros j zj Hj Hzj Hcj.
        destruct (decide (j = length pre)) as [->|Hne].
        { rewrite Hk in Hzj. injection Hzj as <-. congruence. }
        exact (Hmin j zj ltac:(lia) Hzj Hcj).
      * intros j zj Hj Hzj.
        destruct (decide (j = length pre)) as [->|Hne].
        { rewrite Hk in Hzj. injection Hzj as <-. exact Hc. }
        exact (Hacc j zj ltac:(lia) Hzj).
Qed.

(** X18.  Without interference, [FinishCheapestIOZone] picks among the io
    zones whose busy flag it can take and that are neither empty nor full
    the one with the least capacity left, the first of them in the order
    of [io_zones] on a tie.  With no such zone it returns [OK] and changes
    nothing.  Otherwise it finishes the victim: when the backend succeeds
    the victim is full and released, one active token is put back and no
    other zone has changed; when the backend fails its status is returned
    and the device is as it was. *)
Theorem FinishCheapestIOZone_spec (be : Backend) (d : Device) :
  exists victim,
    is_cheapest (io_zones d) (length (io_zones d)) victim /\
    match victim with
    | None => FinishCheapestIOZone be quiet d = (OK, d)
    | Some v =>
        exists zv,
          io_zones d !! v = Some zv /\
          FinishCheapestIOZone be quiet d =
          if bool_decide (be_Finish be (start_ zv) = OK)
          then (OK, PutActiveIOZoneToken
                      (set_zone (IOZone v) (finished_zone be zv) d))
          else (be_Finish be (start_ zv), d)
    end.
Proof.
  pose proof (FinishCheapestIOZone_loop d (io_zones d) [] None eq_refl I)
    as Hloop.
  pose proof (cheapest_scan_spec (io_zones d) (io_zones d) [] None eq_refl)
    as Hspec.
  cbn [length app] in Hloop, Hspec.
  assert (Hbest : is_cheapest (io_zones d) (length (io_zones d))
                    (cheapest_scan (io_zones d) (io_zones d) 0 None)).
  { apply Hspec. intros j z Hj. lia. }
  clear Hspec. unfold FinishCheapestIOZone, indices.
  change (hold None d) with d in Hloop. rewrite Hloop. clear Hloop.
  destruct (cheapest_scan (io_zones d) (io_zones d) 0 None) as [v|].
  2:{ exists None. split; [exact Hbest|reflexivity]. }
  exists (Some v). split; [exact Hbest|].
  destruct Hbest as (_ & zv & Hzv & Hc & _).
  exists zv. split; [exact Hzv|].
  apply finish_candidate_idle in Hc.
  rewrite (hold_Some v zv) by exact Hzv.
  set (zb := set_busy true zv).
  assert (Hz1 : io_zones (set_zone (IOZone v) zb d) !! v = Some zb)
    by (eapply lookup_set_zone; exact Hzv).
  rewrite (zone_Finish_io be v _ zb Hz1).
  change (start_ zb) with (start_ zv).
  rewrite set_zone_set_zone.
  destruct (bool_decide (be_Finish be (start_ zv) = OK)) eqn:Hfin;
    cbn [negb].
  - rewrite set_zone_set_zone.
    rewrite (zone_CheckRelease_held quiet v _ (finished_zone be zb));
      [|eapply lookup_set_zone; exact Hzv|destruct zv; reflexivity].
    unfold quiet. cbn [ok negb]. rewrite set_zone_set_zone.
    unfold zb. now rewrite finished_zone_held.
  - rewrite (zone_CheckRelease_held quiet v _ zb Hz1 eq_refl).
    unfold quiet. cbn [ok negb].
    apply bool_decide_eq_false in Hfin.
    assert (Hok : ok (be_Finish be (start_ zv)) = false)
      by (destruct (be_Finish be (start_ zv)); try reflexivity; congruence).
    rewrite Hok. rewrite set_zone_set_zone.
    unfold zb. rewrite set_busy_roundtrip by exact Hc.
    now rewrite set_zone_id.
Qed.

(** ** [AllocateEmptyZone] *)

Lemma empty_candidate_idle (z : Zone) :
  empty_candidate z = true -> busy_ z = false.
Proof. unfold empty_candidate. destruct (busy_ z); [discriminate|reflexivity]. Qed.

(** One iteration of [AllocateEmptyZone] without interference, on a device
    that is [d0] with the choice so far held. *)
Lemma AllocateEmptyZone_step (pw : bool) (d0 : Device) (k : nat) (z : Zone)
    (acc : option nat) :
  io_zones d0 !! k = Some z ->
  match acc with
  | None => True
  | Some a => a <> k /\ exists za, io_zones d0 !! a = Some za /\ busy_ za = false
  end ->
  AllocateEmptyZone_body quiet pw k (hold acc d0, acc) =
  if empty_candidate z && empty_replaces pw (io_zones d0) acc z then
    if negb pw && (reset_count_ z =? 0)
    then Break (hold (Some k) d0, Some k)
    else Continue (hold (Some k) d0, Some k)
  else Continue (hold acc d0, acc).
Proof.
  intros Hk Ha.
  assert (Hat : io_zones (hold acc d0) !! k = Some z).
  { apply hold_lookup_ne; [exact Hk|]. destruct acc; [apply Ha|exact I]. }
  unfold AllocateEmptyZone_body, empty_candidate, empty_replaces.
  rewrite (zone_Acquire_io k _ z Hat).
  destruct (busy_ z) eqn:Hb; cbn [negb andb]; [reflexivity|].
  rewrite (lookup_set_zone k z _ _ Hat).
  change (IsEmpty (set_busy true z)) with (IsEmpty z).
  change (reset_count_ (set_busy true z)) with (reset_count_ z).
  assert (Hrel : zone_CheckRelease quiet (IOZone k)
                   (set_zone (IOZone k) (set_busy true z) (hold acc d0))
                 = (OK, hold acc d0)).
  { rewrite (quiet_release k z); [|eapply lookup_set_zone; exact Hat|exact Hb].
    rewrite set_zone_set_zone. f_equal. now apply set_zone_id. }
  destruct (IsEmpty z); cbn [andb].
  2:{ unfold release_or_return. rewrite Hrel. reflexivity. }
  destruct acc as [a|].
  { destruct Ha as (Hne & za & Hza & Hba).
    unfold reset_count_at.
    rewrite (hold_Some a za) by exact Hza.
    rewrite io_zones_set_zone, list_lookup_insert_ne by congruence.
    rewrite (lookup_set_zone a za _ _ Hza).
    change (reset_count_ (set_busy true za)) with (reset_count_ za).
    rewrite Hza.
    destruct (if pw then reset_count_ za <? reset_count_ z
              else reset_count_ z <? reset_count_ za).
    - unfold replace_or_return.
      rewrite (quiet_release a za); [| |exact Hba].
      + cbn [ok negb]. rewrite (hold_Some k z) by exact Hk.
        rewrite set_zone_comm by congruence.
        rewrite set_zone_set_zone, (set_zone_id (IOZone a)) by exact Hza.
        reflexivity.
      + rewrite io_zones_set_zone, list_lookup_insert_ne by congruence.
        eapply lookup_set_zone; exact Hza.
    - rewrite <- (hold_Some a za) by exact Hza.
      unfold release_or_return. rewrite Hrel. reflexivity. }
  cbn [replace_or_return]. rewrite (hold_Some k z) by exact Hk. reflexivity.
Qed.

(** The loop of [AllocateEmptyZone], run without interference, chooses as
    [empty_scan] does and holds its choice. *)
Lemma AllocateEmptyZone_loop (pw : bool) (d0 : Device) :
  forall suf pre acc,
    io_zones d0 = pre ++ suf ->
    match acc with
    | None => True
    | Some a =>
        (a < length pre)%nat /\
        exists za, io_zones d0 !! a = Some za /\ busy_ za = false
    end ->
    for_zones (AllocateEmptyZone_body quiet pw)
      (seq (length pre) (length suf)) (hold acc d0, acc) =
    inl (hold (empty_scan pw (io_zones d0) suf (length pre) acc) d0,
         empty_scan pw (io_zones d0) suf (length pre) acc).
Proof.
  induction suf as [|z suf IH]; intros pre acc Hzs Ha.
  - reflexivity.
  - assert (Hk : io_zones d0 !! length pre = Some z).
    { rewrite Hzs. apply list_lookup_middle. reflexivity. }
    cbn [length seq for_zones empty_scan].
    rewrite (AllocateEmptyZone_step pw d0 (length pre) z acc Hk).
    2:{ destruct acc as [a|]; [|exact I].
        destruct Ha as [Hlt Hex]. split; [lia|exact Hex]. }
    specialize (IH (pre ++ [z])).
    rewrite length_app in IH. cbn [length] in IH.
    replace (length pre + 1)%nat with (S (length pre)) in IH by lia.
    destruct (empty_candidate z && empty_replaces pw (io_zones d0) acc z)
      eqn:Hc.
    + destruct (negb pw && (reset_count_ z =? 0)); [reflexivity|].
      apply IH; [rewrite Hzs, <- app_assoc; reflexivity|].
      split; [lia|]. exists z. split; [exact Hk|].
      apply andb_prop in Hc as [Hc _]. now apply empty_candidate_idle.
    + apply IH; [rewrite Hzs, <- app_assoc; reflexivity|].
      destruct acc as [a|]; [|exact I].
      destruct Ha as [Hlt Hex]. split; [lia|exact Hex].
Qed.

Ltac suits_solve :=
  unfold suits_better in *;
  repeat match goal with
         | H : context [if ?b then _ else _] |- _ => is_var b; destruct b
         | |- context [if ?b then _ else _] => is_var b; destruct b
         end;
  rewrite ?Z.ltb_lt, ?Z.ltb_ge in *; try discriminate; lia.

(** A candidate that replaces the choice among the first [k] zones is the
    choice among the first [k + 1]. *)
Lemma is_empty_choice_replace (pw : bool) (all : list Zone) (k : nat)
    (z : Zone) (acc : option nat) :
  all !! k = Some z ->
  empty_candidate z = true ->
  empty_replaces pw all acc z = true ->
  is_empty_choice_upto pw all k acc ->
  is_empty_choice_upto pw all (S k) (Some k).
Proof.
  intros Hk Hc Hr Hacc. split; [lia|].
  exists z. split; [exact Hk|]. split; [exact Hc|].
  intros j zj Hj Hzj Hcj.
  destruct (decide (j = k)) as [->|Hne].
  { rewrite Hk in Hzj. injection Hzj as <-. split; [suits_solve|lia]. }
  destruct acc as [a|]; cbn [is_empty_choice_upto empty_replaces] in Hacc, Hr.
  - destruct Hacc as (Hlt & za & Hza & _ & Hmin). rewrite Hza in Hr.
    destruct (Hmin j zj ltac:(lia) Hzj Hcj) as [Hno _].
    split; [|intros _]; suits_solve.
  - rewrite (Hacc j zj ltac:(lia) Hzj) in Hcj. discriminate.
Qed.

(** A zone that does not replace the choice leaves it the choice. *)
Lemma is_empty_choice_keep (pw : bool) (all : list Zone) (k : nat)
    (z : Zone) (acc : option nat) :
  all !! k = Some z ->
  empty_candidate z && empty_replaces pw all acc z = false ->
  is_empty_choice_upto pw all k acc ->
  is_empty_choice_upto pw all (S k) acc.
Proof.
  intros Hk Hc Hacc.
  destruct acc as [a|]; cbn [is_empty_choice_upto empty_replaces] in *.
  - destruct Hacc as (Hlt & za & Hza & Hca & Hmin). rewrite Hza in Hc.
    split; [lia|]. exists za. split; [exact Hza|]. split; [exact Hca|].
    intros j zj Hj Hzj Hcj.
    destruct (decide (j = k)) as [->|Hne].
    + rewrite Hk in Hzj. injection Hzj as <-. rewrite Hcj in Hc.
      cbn [andb] in Hc. split; [suits_solve|lia].
    + exact (Hmin j zj ltac:(lia) Hzj Hcj).
  - rewrite andb_true_r in Hc. intros j zj Hj Hzj.
    destruct (decide (j = k)) as [->|Hne].
    + rewrite Hk in Hzj. injection Hzj as <-. exact Hc.
    + exact (Hacc j zj ltac:(lia) Hzj).
Qed.

(** What [empty_scan] chooses is the choice of [AllocateEmptyZone]. *)
Lemma empty_scan_spec (pw : bool) (all : list Zone) :
  forall suf pre acc,
    all = pre ++ suf ->
    is_empty_choice_upto pw all (length pre) acc ->
    is_empty_choice pw all (empty_scan pw all suf (length pre) acc).
Proof.
  induction suf as [|z suf IH]; intros pre acc Hall Hacc.
  - left. cbn [empty_scan]. rewrite app_nil_r in Hall. subst all. exact Hacc.
  - cbn [empty_scan].
    assert (Hk : all !! length pre = Some z).
    { rewrite Hall. apply list_lookup_middle. reflexivity. }
    specialize (IH (pre ++ [z])).
    rewrite length_app in IH. cbn [length] in IH.
    replace (length pre + 1)%nat with (S (length pre)) in IH by lia.
    destruct (empty_candidate z && empty_replaces pw all acc z) eqn:Hc.
    + apply andb_prop in Hc as [Hc Hr].
      pose proof (is_empty_choice_replace pw all (length pre) z acc
                    Hk Hc Hr Hacc) as Hnew.
      destruct (negb pw && (reset_count_ z =? 0)) eqn:Hstop.
      * right. apply andb_prop in Hstop as [Hpw Hzero].
        split; [destruct pw; [discriminate|reflexivity]|].
        exists (length pre), z. split; [reflexivity|]. split; [exact Hk|].
        split; [now apply Z.eqb_eq|exact Hnew].
      * apply IH; [rewrite Hall, <- app_assoc; reflexivity|exact Hnew].
    + apply IH; [rewrite Hall, <- app_assoc; reflexivity|].
      eapply is_empty_choice_keep; eassumption.
Qed.

(** X19.  Without interference, [AllocateEmptyZone] returns [OK] and
    hands out, among the io zones whose busy flag it can take and that are
    empty, the one with the most resets for a file whose hint is below
    [SHORT] and the one with the fewest resets otherwise, the first of
    them in the order of [io_zones] on a tie; in the second case the scan
    stops at the first such zone that was never reset and beats the
    choice so far.  With no empty zone to take it hands out null.  On
    return only the zone handed out is held; nothing else has changed. *)
Theorem AllocateEmptyZone_spec (file_lifetime : WriteLifeTimeHint)
    (d : Device) :
  exists zone_out,
    AllocateEmptyZone quiet file_lifetime d
    = (OK, Some zone_out, hold zone_out d) /\
    is_empty_choice (hint_val file_lifetime <? hint_val WLTH_SHORT)
      (io_zones d) zone_out.
Proof.
  set (pw := hint_val file_lifetime <? hint_val WLTH_SHORT).
  pose proof (AllocateEmptyZone_loop pw d (io_zones d) [] None eq_refl I)
    as Hloop.
  pose proof (empty_scan_spec pw (io_zones d) (io_zones d) [] None eq_refl)
    as Hspec.
  cbn [length app] in Hloop, Hspec.
  exists (empty_scan pw (io_zones d) (io_zones d) 0 None). split.
  - unfold AllocateEmptyZone, indices. fold pw.
    change (hold None d) with d in Hloop. rewrite Hloop. reflexivity.
  - apply Hspec. intros j z Hj. lia.
Qed.

(** ** The idle detector *)

Lemma window_max_is_max (window_qps_max qps1 qps2 : Z) :
  window_max window_qps_max qps1 qps2 = Z.max window_qps_max (Z.max qps1 qps2).
Proof.
  unfold window_max.
  repeat match goal with
         | |- context [?a <? ?b] => destruct (Z.ltb_spec a b)
         end; lia.
Qed.

Lemma raise_threshold_between (t m : Z) :
  qps_small t -> qps_small m ->
  t <= raise_threshold t m <= Z.max t m /\
  (t < m -> raise_threshold t m < m) /\
  (t + 1 < m -> t < raise_threshold t m).
Proof.
  unfold qps_small, raise_threshold. intros Ht Hm.
  destruct (Z.ltb_spec t m); [|lia].
  rewrite u64_small by lia.
  Z.div_mod_to_equations. lia.
Qed.

Lemma qps_verdict_spec (w1 r1 w2 r2 wthr rthr : Z) :
  qps_small w1 -> qps_small r1 -> qps_small w2 -> qps_small r2 ->
  qps_small wthr -> qps_small rthr ->
  (qps_verdict w1 r1 w2 r2 wthr rthr = 0 \/
   qps_verdict w1 r1 w2 r2 wthr rthr = 1) /\
  (qps_verdict w1 r1 w2 r2 wthr rthr = 1 <->
   calm w1 w2 wthr /\ calm r1 r2 rthr /\
   ((w1 < wthr /\ w2 < wthr) \/ (r1 < rthr /\ r2 < rthr))).
Proof.
  unfold qps_small, qps_verdict, calm. intros Hw1 Hr1 Hw2 Hr2 Hwt Hrt.
  destruct (Z.ltb_spec w1 wthr), (Z.ltb_spec w2 wthr),
    (Z.ltb_spec r1 rthr), (Z.ltb_spec r2 rthr),
    (Z.ltb_spec r1 r2), (Z.ltb_spec w1 w2); cbn [andb];
    repeat match goal with
           | |- context [u64 ?x] => rewrite (u64_small x) by lia
           end;
    repeat match goal with
           | |- context [?a <? ?b] => destruct (Z.ltb_spec a b)
           end;
    (split; [first [left; reflexivity|right; reflexivity]|]);
    (split; [intros Hv; try discriminate Hv; lia
            |intros Hc; try reflexivity; exfalso; lia]).
Qed.

Lemma JudgeQpsTrend_verdict_of_state (w1 r1 w2 r2 : Z) (q : QpsState) :
  fst (JudgeQpsTrend w1 r1 w2 r2 q) =
  qps_verdict w1 r1 w2 r2
    (idle_qps_write_threshold_ (snd (JudgeQpsTrend w1 r1 w2 r2 q)))
    (idle_qps_read_threshold_ (snd (JudgeQpsTrend w1 r1 w2 r2 q))).
Proof.
  unfold JudgeQpsTrend.
  repeat match goal with
         | |- context [if ?c then _ else _] => destruct c
         end; reflexivity.
Qed.

(** What [JudgeQpsTrend] makes of the thresholds, the window maxima and the
    counters. *)
Lemma JudgeQpsTrend_state (w1 r1 w2 r2 : Z) (q : QpsState) :
  qps_state_small q ->
  qps_small w1 -> qps_small r1 -> qps_small w2 -> qps_small r2 ->
  let q' := snd (JudgeQpsTrend w1 r1 w2 r2 q) in
  let wmax := Z.max (window_qps_write_max_ q) (Z.max w1 w2) in
  let rmax := Z.max (window_qps_read_max_ q) (Z.max r1 r2) in
  qps_state_small q' /\
  (idle_qps_fail_count_ q < 5 ->
   window_qps_write_max_ q' = wmax /\ window_qps_read_max_ q' = rmax /\
   idle_qps_fail_count_ q' = idle_qps_fail_count_ q) /\
  (5 <= idle_qps_fail_count_ q ->
   window_qps_write_max_ q' = 0 /\ window_qps_read_max_ q' = 0 /\
   idle_qps_fail_count_ q' = 0) /\
  (5 <= idle_qps_successive_count_ q ->
   idle_qps_write_threshold_ q' = 76 /\ idle_qps_read_threshold_ q' = 5000) /\
  (idle_qps_successive_count_ q < 5 ->
   idle_qps_successive_count_ q' = idle_qps_successive_count_ q /\
   idle_qps_write_threshold_ q' =
     (if 5 <=? idle_qps_fail_count_ q
      then raise_threshold (idle_qps_write_threshold_ q) wmax
      else idle_qps_write_threshold_ q) /\
   idle_qps_read_threshold_ q' =
     (if 5 <=? idle_qps_fail_count_ q
      then raise_threshold (idle_qps_read_threshold_ q) rmax
      else idle_qps_read_threshold_ q)).
Proof.
  intros (Hwm & Hrm & Hwt & Hrt & Hfc & Hsc) Hw1 Hr1 Hw2 Hr2.
  cbv zeta. unfold JudgeQpsTrend. rewrite !window_max_is_max.
  set (wmax := Z.max (window_qps_write_max_ q) (Z.max w1 w2)).
  set (rmax := Z.max (window_qps_read_max_ q) (Z.max r1 r2)).
  assert (Hwmax : qps_small wmax) by (unfold qps_small in *; lia).
  assert (Hrmax : qps_small rmax) by (unfold qps_small in *; lia).
  pose proof (raise_threshold_between _ _ Hwt Hwmax) as (Hw & _).
  pose proof (raise_threshold_between _ _ Hrt Hrmax) as (Hr & _).
  unfold qps_state_small.
  destruct (Z.leb_spec 5 (idle_qps_fail_count_ q)),
    (Z.leb_spec 5 (idle_qps_successive_count_ q));
    repeat match goal with
           | |- context [?a =? ?b] => destruct (Z.eqb_spec a b)
           end;
    cbn [negb orb snd window_qps_write_max_ window_qps_read_max_
         idle_qps_write_threshold_ idle_qps_read_threshold_
         idle_qps_fail_count_ idle_qps_successive_count_];
    unfold qps_small in *; repeat split; lia.
Qed.

Lemma qps_ex_small : qps_state_small qps_ex.
Proof. unfold qps_state_small, qps_small. cbn. lia. Qed.

Lemma raise_threshold_mean (t m : Z) :
  qps_small t -> qps_small m -> t < m ->
  raise_threshold t m = (t + m) / 2.
Proof.
  unfold qps_small, raise_threshold. intros Ht Hm Hlt.
  destruct (Z.ltb_spec t m); [|lia].
  rewrite u64_small by lia. reflexivity.
Qed.

(** X20.  The verdict of [JudgeQpsTrend], for rates that fit 31 bits.  It
    is 0 or 1.  It is 1 (idle) exactly when each of the two rates, writes
    and reads, is calm (below its threshold in both windows, or falling by
    more than five percent of the threshold) and at least one of them is
    below its threshold in both windows; the thresholds are those the call
    leaves behind.  No threshold falls below the smaller of its old value
    and its default (76 writes, 5000 reads), so rates below both in both
    windows always give 1. *)
Theorem JudgeQpsTrend_verdict (w1 r1 w2 r2 : Z) (q : QpsState) :
  qps_state_small q ->
  qps_small w1 -> qps_small r1 -> qps_small w2 -> qps_small r2 ->
  let verdict := fst (JudgeQpsTrend w1 r1 w2 r2 q) in
  let wthr := idle_qps_write_threshold_ (snd (JudgeQpsTrend w1 r1 w2 r2 q)) in
  let rthr := idle_qps_read_threshold_ (snd (JudgeQpsTrend w1 r1 w2 r2 q)) in
  (verdict = 0 \/ verdict = 1) /\
  (verdict = 1 <->
   calm w1 w2 wthr /\ calm r1 r2 rthr /\
   ((w1 < wthr /\ w2 < wthr) \/ (r1 < rthr /\ r2 < rthr))) /\
  Z.min (idle_qps_write_threshold_ q) 76 <= wthr /\
  Z.min (idle_qps_read_threshold_ q) 5000 <= rthr /\
  (Z.max w1 w2 < Z.min (idle_qps_write_threshold_ q) 76 ->
   Z.max r1 r2 < Z.min (idle_qps_read_threshold_ q) 5000 ->
   verdict = 1).
Proof.
  intros Hq Hw1 Hr1 Hw2 Hr2. cbv zeta.
  pose proof (JudgeQpsTrend_state w1 r1 w2 r2 q Hq Hw1 Hr1 Hw2 Hr2) as Hst.
  cbv zeta in Hst. destruct Hst as (Hq' & _ & _ & Hdef & Hkeep).
  rewrite (JudgeQpsTrend_verdict_of_state w1 r1 w2 r2 q).
  set (q' := snd (JudgeQpsTrend w1 r1 w2 r2 q)) in *.
  destruct Hq' as (_ & _ & Hwt' & Hrt' & _).
  pose proof (qps_verdict_spec w1 r1 w2 r2 _ _ Hw1 Hr1 Hw2 Hr2 Hwt' Hrt')
    as [H01 Hiff].
  assert (Hlow : Z.min (idle_qps_write_threshold_ q) 76
                 <= idle_qps_write_threshold_ q' /\
                 Z.min (idle_qps_read_threshold_ q) 5000
                 <= idle_qps_read_threshold_ q').
  { destruct Hq as (Hwm & Hrm & Hwt & Hrt & _).
    destruct (Z.le_gt_cases 5 (idle_qps_successive_count_ q)) as [Hs|Hs].
    - destruct (Hdef Hs) as [-> ->]. lia.
    - destruct (Hkeep Hs) as (_ & -> & ->).
      assert (Hwmax : qps_small (Z.max (window_qps_write_max_ q) (Z.max w1 w2)))
        by (unfold qps_small in *; lia).
      assert (Hrmax : qps_small (Z.max (window_qps_read_max_ q) (Z.max r1 r2)))
        by (unfold qps_small in *; lia).
      pose proof (raise_threshold_between _ _ Hwt Hwmax) as (Hw & _).
      pose proof (raise_threshold_between _ _ Hrt Hrmax) as (Hr & _).
      destruct (5 <=? idle_qps_fail_count_ q); lia. }
  split; [exact H01|]. split; [exact Hiff|].
  split; [apply Hlow|]. split; [apply Hlow|].
  intros Hw Hr. apply Hiff. unfold calm. lia.
Qed.

Lemma JudgeQpsTrend_verdict_witness :
  fst (JudgeQpsTrend 50 1000 40 900 qps_ex) = 1.
Proof.
  assert (Hs : forall x, 0 <= x < 2 ^ 31 -> qps_small x) by (intros x H; exact H).
  apply (JudgeQpsTrend_verdict 50 1000 40 900 qps_ex qps_ex_small);
    try (apply Hs; lia); reflexivity.
Defined.

(** X21.  How [JudgeQpsTrend] adapts, for rates that fit 31 bits.  Below
    five counted failures the window maxima take the larger sample and the
    thresholds stay; from five on each threshold below its window maximum
    becomes the mean of the two, rounded down: it stays below the maximum,
    it is above its old value when the maximum exceeds that by two or
    more, and it is unchanged when the maximum exceeds it by one; no
    threshold moves down, and the window maxima and the failure count
    start again at zero.  With
    five counted successes the thresholds are at their defaults (76, 5000)
    on return, whatever the failures did.  The call itself never counts a
    verdict: neither counter goes up.  The state stays within 31 bits. *)
Theorem JudgeQpsTrend_adapts (w1 r1 w2 r2 : Z) (q : QpsState) :
  qps_state_small q ->
  qps_small w1 -> qps_small r1 -> qps_small w2 -> qps_small r2 ->
  let q' := snd (JudgeQpsTrend w1 r1 w2 r2 q) in
  let wmax := Z.max (window_qps_write_max_ q) (Z.max w1 w2) in
  let rmax := Z.max (window_qps_read_max_ q) (Z.max r1 r2) in
  qps_state_small q' /\
  idle_qps_fail_count_ q' <= idle_qps_fail_count_ q /\
  idle_qps_successive_count_ q' <= idle_qps_successive_count_ q /\
  (idle_qps_fail_count_ q < 5 ->
   window_qps_write_max_ q' = wmax /\ window_qps_read_max_ q' = rmax /\
   (idle_qps_successive_count_ q < 5 ->
    idle_qps_write_threshold_ q' = idle_qps_write_threshold_ q /\
    idle_qps_read_threshold_ q' = idle_qps_read_threshold_ q)) /\
  (5 <= idle_qps_fail_count_ q ->
   window_qps_write_max_ q' = 0 /\ window_qps_read_max_ q' = 0 /\
   idle_qps_fail_count_ q' = 0 /\
   (idle_qps_successive_count_ q < 5 ->
    idle_qps_write_threshold_ q <= idle_qps_write_threshold_ q' /\
    idle_qps_read_threshold_ q <= idle_qps_read_threshold_ q' /\
    (idle_qps_write_threshold_ q < wmax ->
     idle_qps_write_threshold_ q' < wmax) /\
    (idle_qps_read_threshold_ q < rmax ->
     idle_qps_read_threshold_ q' < rmax) /\
    (wmax <= idle_qps_write_threshold_ q ->
     idle_qps_write_threshold_ q' = idle_qps_write_threshold_ q) /\
    (rmax <= idle_qps_read_threshold_ q ->
     idle_qps_read_threshold_ q' = idle_qps_read_threshold_ q) /\
    (idle_qps_write_threshold_ q < wmax ->
     idle_qps_write_threshold_ q' = (idle_qps_write_threshold_ q + wmax) / 2) /\
    (idle_qps_read_threshold_ q < rmax ->
     idle_qps_read_threshold_ q' = (idle_qps_read_threshold_ q + rmax) / 2) /\
    (idle_qps_write_threshold_ q + 1 < wmax ->
     idle_qps_write_threshold_ q < idle_qps_write_threshold_ q') /\
    (idle_qps_read_threshold_ q + 1 < rmax ->
     idle_qps_read_threshold_ q < idle_qps_read_threshold_ q') /\
    (idle_qps_write_threshold_ q + 1 = wmax ->
     idle_qps_write_threshold_ q' = idle_qps_write_threshold_ q) /\
    (idle_qps_read_threshold_ q + 1 = rmax ->
     idle_qps_read_threshold_ q' = idle_qps_read_threshold_ q))) /\
  (5 <= idle_qps_successive_count_ q ->
   idle_qps_write_threshold_ q' = 76 /\ idle_qps_read_threshold_ q' = 5000).
Proof.
  intros Hq Hw1 Hr1 Hw2 Hr2. cbv zeta.
  pose proof (JudgeQpsTrend_state w1 r1 w2 r2 q Hq Hw1 Hr1 Hw2 Hr2) as Hst.
  cbv zeta in Hst. destruct Hst as (Hq' & Hno & Hfail & Hdef & Hkeep).
  set (q' := snd (JudgeQpsTrend w1 r1 w2 r2 q)) in *.
  set (wmax := Z.max (window_qps_write_max_ q) (Z.max w1 w2)) in *.
  set (rmax := Z.max (window_qps_read_max_ q) (Z.max r1 r2)) in *.
  pose proof Hq as (Hwm & Hrm & Hwt & Hrt & Hfc & Hsc).
  assert (Hwmax : qps_small wmax) by (unfold qps_small, wmax in *; lia).
  assert (Hrmax : qps_small rmax) by (unfold qps_small, rmax in *; lia).
  pose proof (raise_threshold_between _ _ Hwt Hwmax) as (Hw & Hwlt & Hwup).
  pose proof (raise_threshold_between _ _ Hrt Hrmax) as (Hr & Hrlt & Hrup).
  split; [exact Hq'|].
  split.
  { destruct (Z.le_gt_cases 5 (idle_qps_fail_count_ q)) as [H5|H5].
    - destruct (Hfail H5) as (_ & _ & ->). lia.
    - destruct (Hno H5) as (_ & _ & ->). lia. }
  split.
  { destruct (Z.le_gt_cases 5 (idle_qps_successive_count_ q)) as [H5|H5].
    - destruct Hq' as (_ & _ & _ & _ & _ & Hs'). unfold qps_small in Hs'.
      destruct (Z.le_gt_cases (idle_qps_successive_count_ q')
                  (idle_qps_successive_count_ q)) as [Hle|Hgt]; [exact Hle|].
      exfalso. revert Hgt. unfold q', JudgeQpsTrend.
      repeat match goal with
             | |- context [if ?c then _ else _] => destruct c
             end; cbn; lia.
    - destruct (Hkeep H5) as (-> & _). lia. }
  split.
  { intros H5. destruct (Hno H5) as (-> & -> & _).
    split; [reflexivity|]. split; [reflexivity|].
    intros Hs. destruct (Hkeep Hs) as (_ & -> & ->).
    destruct (Z.leb_spec 5 (idle_qps_fail_count_ q)); [lia|].
    split; reflexivity. }
  split; [|exact Hdef].
  intros H5. destruct (Hfail H5) as (-> & -> & ->).
  split; [reflexivity|]. split; [reflexivity|]. split; [reflexivity|].
  intros Hs. destruct (Hkeep Hs) as (_ & -> & ->).
  destruct (Z.leb_spec 5 (idle_qps_fail_count_ q)); [|lia].
  split; [lia|]. split; [lia|]. split; [exact Hwlt|]. split; [exact Hrlt|].
  split; [|split; [|split; [|split; [|split; [exact Hwup|split;
    [exact Hrup|]]]]]].
  - intros Hle. unfold raise_threshold.
    destruct (Z.ltb_spec (idle_qps_write_threshold_ q) wmax); [lia|reflexivity].
  - intros Hle. unfold raise_threshold.
    destruct (Z.ltb_spec (idle_qps_read_threshold_ q) rmax); [lia|reflexivity].
  - intros Hlt. apply raise_threshold_mean; assumption.
  - intros Hlt. apply raise_threshold_mean; assumption.
  - split; intros Hone.
    + rewrite raise_threshold_mean by (try assumption; lia).
      rewrite <- Hone. Z.div_mod_to_equations. lia.
    + rewrite raise_threshold_mean by (try assumption; lia).
      rewrite <- Hone. Z.div_mod_to_equations. lia.
Qed.

Lemma JudgeQpsTrend_adapts_witness :
  idle_qps_write_threshold_ (snd (JudgeQpsTrend 50 1000 40 900 qps_ex)) = 200 /\
  idle_qps_read_threshold_ (snd (JudgeQpsTrend 50 1000 40 900 qps_ex)) = 7500 /\
  idle_qps_fail_count_ (snd (JudgeQpsTrend 50 1000 40 900 qps_ex)) = 0.
Proof.
  assert (Hs : forall x, 0 <= x < 2 ^ 31 -> qps_small x) by (intros x H; exact H).
  destruct (JudgeQpsTrend_adapts 50 1000 40 900 qps_ex qps_ex_small)
    as (_ & _ & _ & _ & Hfail & _); try (apply Hs; lia).
  destruct Hfail as (_ & _ & Hfc & Hthr); [cbn; lia|].
  destruct Hthr as (_ & _ & _ & _ & _ & _ & Hw & Hr & _); [cbn; lia|].
  split; [apply Hw; reflexivity|]. split; [apply Hr; reflexivity|exact Hfc].
Defined.

(** ** The token counters *)

(** X22.  Taking and putting back tokens.  On a device with an open limit
    between 1 and 2^32 - 1, an allocator that is not prioritized never
    takes the last open token: when its [WaitForOpenIOZoneToken] returns,
    the count has gone up by one and is still below the limit, so that a
    prioritized allocator gets a token at once.  [PutOpenIOZoneToken] after
    the wait, and [PutActiveIOZoneToken] after a successful
    [GetActiveIOZoneTokenIfAvailable], give the device back as it was; an
    active token is only handed out below the active limit, and a refused
    request changes nothing. *)
Theorem token_take_and_put (d d' : Device) :
  0 < max_nr_open_io_zones_ d < 2 ^ 32 ->
  WaitForOpenIOZoneToken false d = Some d' ->
  open_io_zones_ d' = open_io_zones_ d + 1 /\
  open_io_zones_ d' < max_nr_open_io_zones_ d' /\
  is_Some (WaitForOpenIOZoneToken true d') /\
  PutOpenIOZoneToken d' = d /\
  (if fst (GetActiveIOZoneTokenIfAvailable d)
   then active_io_zones_ d < max_nr_active_io_zones_ d /\
        PutActiveIOZoneToken (snd (GetActiveIOZoneTokenIfAvailable d)) = d
   else max_nr_active_io_zones_ d <= active_io_zones_ d /\
        snd (GetActiveIOZoneTokenIfAvailable d) = d).
Proof.
  intros Hmax H. unfold WaitForOpenIOZoneToken in *.
  rewrite u32_small in H by lia.
  destruct (Z.ltb_spec (open_io_zones_ d) (max_nr_open_io_zones_ d - 1));
    [|discriminate].
  injection H as <-.
  cbn [open_io_zones_ max_nr_open_io_zones_ set_open_io_zones].
  split; [reflexivity|]. split; [lia|]. split.
  { destruct (Z.ltb_spec (open_io_zones_ d + 1) (max_nr_open_io_zones_ d));
      [eexists; reflexivity|lia]. }
  split.
  { unfold PutOpenIOZoneToken, set_open_io_zones. destruct d. cbn.
    rewrite Z.add_simpl_r. reflexivity. }
  unfold GetActiveIOZoneTokenIfAvailable.
  destruct (Z.ltb_spec (active_io_zones_ d) (max_nr_active_io_zones_ d));
    cbn [fst snd].
  - split; [assumption|].
    unfold PutActiveIOZoneToken, set_active_io_zones. destruct d. cbn.
    rewrite Z.add_simpl_r. reflexivity.
  - split; [assumption|reflexivity].
Qed.

Lemma token_take_and_put_witness :
  exists d', WaitForOpenIOZoneToken false dev_ex = Some d' /\
             PutOpenIOZoneToken d' = dev_ex.
Proof.
  destruct (WaitForOpenIOZoneToken false dev_ex) as [d'|] eqn:E;
    [|vm_compute in E; discriminate].
  exists d'. split; [reflexivity|].
  apply (token_take_and_put dev_ex d'); [vm_compute; split; reflexivity|exact E].
Defined.

(** ** Space accounting *)

(** A 64-bit running sum that stays below 2^64 is the sum. *)
Lemma fold_sum (step : Z -> Zone -> Z) (f g : Zone -> Z) (zones : list Zone) :
  Forall (fun z => 0 <= f z <= g z /\
                   forall a, 0 <= a -> a + g z < 2 ^ 64 -> step a z = a + f z)
         zones ->
  forall acc, 0 <= acc -> acc + sum_over g zones < 2 ^ 64 ->
    fold_left step zones acc = acc + sum_over f zones /\
    0 <= sum_over f zones <= sum_over g zones.
Proof.
  induction 1 as [|z zones (Hfz & Hstep) Hrest IH]; intros acc Hacc Hsum;
    cbn [fold_left sum_over foldr] in *.
  - split; lia.
  - fold (sum_over f zones) in *. fold (sum_over g zones) in *.
    assert (Hg : 0 <= sum_over g zones).
    { clear - Hrest. induction Hrest as [|z' zones' (Hz' & _) _ IH'];
        cbn [sum_over foldr]; [lia|]. fold (sum_over g zones'). lia. }
    rewrite Hstep by lia.
    destruct (IH (acc + f z)) as [-> Hle]; [lia|lia|].
    split; lia.
Qed.

Lemma space_ok_terms (z : Zone) :
  space_ok z -> max_capacity_ z < 2 ^ 64 ->
  0 <= capacity_ z <= max_capacity_ z /\
  0 <= used_capacity_ z <= max_capacity_ z /\
  0 <= GetZoneReclaimableSpace z <= max_capacity_ z /\
  capacity_ z + used_capacity_ z + GetZoneReclaimableSpace z = max_capacity_ z /\
  (IsFull z = true ->
   u64 (max_capacity_ z - used_capacity_ z) = GetZoneReclaimableSpace z).
Proof.
  unfold space_ok, GetZoneReclaimableSpace, IsFull. intros [Hu Hz] Hmax.
  destruct (Z.eqb_spec (capacity_ z) 0) as [H0|H0].
  - rewrite u64_small by lia. repeat split; try lia.
  - destruct Hz as (Hc & Hcap & Hw). rewrite u64_small by lia.
    repeat split; try lia; try discriminate.
Qed.

(** X23.  The space queries add up.  On a device whose io zones have
    consistent counters and whose total capacity fits 64 bits,
    [GetFreeSpace] plus [GetUsedSpace] plus the reclaimable space of every
    io zone ([GetZoneReclaimableSpace]) is the total capacity of the io
    zones: no running sum wraps around.  [GetReclaimableSpace] counts of
    that reclaimable space only the part that lies in full zones. *)
Theorem space_queries_add_up (d : Device) :
  Forall space_ok (io_zones d) ->
  sum_over max_capacity_ (io_zones d) < 2 ^ 64 ->
  GetFreeSpace d + GetUsedSpace d
  + sum_over GetZoneReclaimableSpace (io_zones d)
  = sum_over max_capacity_ (io_zones d) /\
  GetReclaimableSpace d
  = sum_over (fun z => if IsFull z then GetZoneReclaimableSpace z else 0)
      (io_zones d) /\
  GetReclaimableSpace d <= sum_over GetZoneReclaimableSpace (io_zones d).
Proof.
  unfold GetFreeSpace, GetUsedSpace, GetReclaimableSpace.
  generalize (io_zones d) as zones. intros zones Hok Hsum.
  assert (Hmax : Forall (fun z => space_ok z /\ 0 <= max_capacity_ z < 2 ^ 64)
                   zones).
  { revert Hsum. induction Hok as [|z zones Hz Hrest IH];
      cbn [sum_over foldr]; intros Hsum; [constructor|].
    fold (sum_over max_capacity_ zones) in Hsum.
    assert (Hz0 : 0 <= max_capacity_ z).
    { unfold space_ok, IsFull in Hz. destruct Hz as [Hu Hz].
      destruct (capacity_ z =? 0); lia. }
    assert (Hs0 : 0 <= sum_over max_capacity_ zones).
    { clear - Hrest. induction Hrest as [|z' zones' Hz' _ IH'];
        cbn [sum_over foldr]; [lia|]. fold (sum_over max_capacity_ zones').
      unfold space_ok, IsFull in Hz'. destruct Hz' as [Hu Hz'].
      destruct (capacity_ z' =? 0); lia. }
    constructor; [split; [exact Hz|lia]|apply IH; lia]. }
  clear Hok.
  assert (Hfree : fold_left (fun free z => u64 (free + capacity_ z)) zones 0
                  = sum_over capacity_ zones).
  { destruct (fold_sum (fun free z => u64 (free + capacity_ z))
                capacity_ max_capacity_ zones) with (acc := 0) as [-> _];
      [|lia|lia|lia].
    eapply Forall_impl; [|exact Hmax]. intros z [Hz Hm].
    destruct (space_ok_terms z Hz) as (Hc & _); [lia|].
    split; [exact Hc|]. intros a Ha Hlt. apply u64_small. lia. }
  assert (Hused : fold_left (fun used z => u64 (used + used_capacity_ z)) zones 0
                  = sum_over used_capacity_ zones).
  { destruct (fold_sum (fun used z => u64 (used + used_capacity_ z))
                used_capacity_ max_capacity_ zones) with (acc := 0) as [-> _];
      [|lia|lia|lia].
    eapply Forall_impl; [|exact Hmax]. intros z [Hz Hm].
    destruct (space_ok_terms z Hz) as (_ & Hu & _); [lia|].
    split; [exact Hu|]. intros a Ha Hlt. apply u64_small. lia. }
  assert (Hrec : fold_left
                   (fun reclaimable z =>
                      if IsFull z
                      then u64 (reclaimable
                                + u64 (max_capacity_ z - used_capacity_ z))
                      else reclaimable) zones 0
                 = sum_over
                     (fun z => if IsFull z then GetZoneReclaimableSpace z else 0)
                     zones).
  { destruct (fold_sum
                (fun reclaimable z =>
                   if IsFull z
                   then u64 (reclaimable
                             + u64 (max_capacity_ z - used_capacity_ z))
                   else reclaimable)
                (fun z => if IsFull z then GetZoneReclaimableSpace z else 0)
                max_capacity_ zones) with (acc := 0) as [-> _];
      [|lia|lia|lia].
    eapply Forall_impl; [|exact Hmax]. intros z [Hz Hm].
    destruct (space_ok_terms z Hz) as (_ & _ & Hr & _ & Hfull); [lia|].
    destruct (IsFull z).
    - split; [exact Hr|]. intros a Ha Hlt.
      rewrite (Hfull eq_refl). apply u64_small. lia.
    - split; [lia|]. intros a Ha Hlt. lia. }
  rewrite Hfree, Hused, Hrec. clear Hfree Hused Hrec.
  clear Hsum. induction Hmax as [|z zones [Hz Hm] _ IH];
    cbn [sum_over foldr]; [lia|].
  fold (sum_over capacity_ zones) (sum_over used_capacity_ zones)
       (sum_over GetZoneReclaimableSpace zones)
       (sum_over max_capacity_ zones)
       (sum_over (fun z => if IsFull z then GetZoneReclaimableSpace z else 0)
          zones) in *.
  destruct (space_ok_terms z Hz) as (_ & _ & Hr & Hsum & _); [lia|].
  destruct (IsFull z); lia.
Qed.

Lemma space_queries_add_up_witness :
  GetFreeSpace dev_space_ex + GetUsedSpace dev_space_ex
  + sum_over GetZoneReclaimableSpace (io_zones dev_space_ex)
  = sum_over max_capacity_ (io_zones dev_space_ex).
Proof.
  apply (space_queries_add_up dev_space_ex).
  - repeat constructor; vm_compute; intuition discriminate.
  - reflexivity.
Defined.

(** ** The fast path of [AllocateIOZone] *)

Lemma hold_tokens (v : option nat) (d : Device) :
  active_io_zones_ (hold v d) = active_io_zones_ d /\
  max_nr_active_io_zones_ (hold v d) = max_nr_active_io_zones_ d.
Proof.
  unfold hold. destruct v as [a|]; [|split; reflexivity].
  destruct (io_zones d !! a); split; reflexivity.
Qed.

(** X24.  The fast path of [AllocateIOZone] for a write-ahead-log file,
    without interference, on a device with no deferred error and an open
    token to take.  When the best open-zone match has a lifetime diff
    below [LIFETIME_DIFF_COULD_BE_WORSE], or equal to it while no active
    token is available, that zone is handed out with [OK]: the device on
    return is the one at the entry with one more open token and the zone
    held, no active token is taken, no zone is finished or reset, and the
    zone keeps its lifetime hint. *)
Theorem AllocateIOZone_reuses_open_zone (be : Backend) (fuel : nat)
    (file_lifetime : WriteLifeTimeHint) (d : Device) :
  zone_deferred_status_ d = OK ->
  open_io_zones_ d < max_nr_open_io_zones_ d ->
  exists best_diff zone_out,
    is_best_match file_lifetime default_min_capacity (io_zones d)
      zone_out best_diff /\
    (best_diff < LIFETIME_DIFF_COULD_BE_WORSE \/
     (best_diff = LIFETIME_DIFF_COULD_BE_WORSE /\
      max_nr_active_io_zones_ d <= active_io_zones_ d) ->
     is_Some zone_out /\
     AllocateIOZone be (always quiet) fuel file_lifetime kWAL d =
     Some (OK, Some zone_out,
           hold zone_out (set_open_io_zones (open_io_zones_ d + 1) d))).
Proof.
  intros Hdef Hopen.
  set (d2 := set_open_io_zones (open_io_zones_ d + 1) d).
  destruct (GetBestOpenZoneMatch_quiet file_lifetime default_min_capacity d2)
    as (best_diff & zone_out & Hmatch & Hbest).
  exists best_diff, zone_out. split; [exact Hbest|]. intros Hcase.
  assert (Hsome : is_Some zone_out).
  { destruct zone_out as [a|]; [eexists; reflexivity|].
    destruct Hbest as [-> _].
    unfold LIFETIME_DIFF_NOT_GOOD, LIFETIME_DIFF_COULD_BE_WORSE in Hcase. lia. }
  split; [exact Hsome|]. destruct Hsome as [a ->].
  unfold AllocateIOZone, GetZoneDeferredStatus, WaitForOpenIOZoneToken.
  rewrite Hdef. cbn [ok negb].
  destruct (Z.ltb_spec (open_io_zones_ d) (max_nr_open_io_zones_ d)); [|lia].
  fold d2. change (always quiet 1%nat) with quiet. rewrite Hmatch. cbn [ok negb from_option id].
  destruct (Z.leb_spec LIFETIME_DIFF_COULD_BE_WORSE best_diff) as [Hge|Hlt];
    [|reflexivity].
  destruct Hcase as [Hlt|[-> Hact]]; [lia|].
  unfold GetActiveIOZoneTokenIfAvailable.
  destruct (hold_tokens (Some a) d2) as [-> ->].
  change (active_io_zones_ d2) with (active_io_zones_ d).
  change (max_nr_active_io_zones_ d2) with (max_nr_active_io_zones_ d).
  destruct (Z.ltb_spec (active_io_zones_ d) (max_nr_active_io_zones_ d)); [lia|].
  cbn [negb andb]. rewrite Z.eqb_refl. reflexivity.
Qed.

Lemma AllocateIOZone_reuses_open_zone_witness :
  exists zone_out,
    is_Some zone_out /\
    AllocateIOZone be_ex (always quiet) 0 WLTH_SHORT kWAL dev_open_full_ex =
    Some (OK, Some zone_out,
          hold zone_out
            (set_open_io_zones (open_io_zones_ dev_open_full_ex + 1)
               dev_open_full_ex)).
Proof.
  destruct (AllocateIOZone_reuses_open_zone be_ex 0 WLTH_SHORT dev_open_full_ex)
    as (best_diff & zone_out & Hbest & Hfast); [reflexivity|reflexivity|].
  exists zone_out. apply Hfast. right. split; [|vm_compute; discriminate].
  destruct zone_out as [a|].
  - destruct Hbest as (za & Hza & _ & -> & _).
    destruct a as [|[|[|a]]]; cbn in Hza; try discriminate;
      injection Hza as <-; reflexivity.
  - destruct Hbest as [_ Hnone].
    specialize (Hnone 0%nat (open_zone_ex 3) eq_refl). vm_compute in Hnone.
    discriminate.
Defined.
